(** * SignSynth Academy: the classroom logic, embedded and verified

    A shallow embedding of the TypeScript sources

      - [src/types.ts], [src/constants.ts]
      - [src/hooks/useProgress] (the progress store, saved and reloaded)
      - [src/services/aiService.ts] ([analyzeHandShape],
        [generateReferenceImage], [createLessonFromIntent])
      - [src/App.tsx] (lesson loading, frame submission, voice commands,
        sentence decomposition, navigation, tabs, practice, controls)
      - [src/components/TeacherFeedback.tsx] (the feedback panel)

    React state is threaded explicitly: a handler is a function from the
    component state to the next state and the list of asynchronous
    operations it starts; the continuation that runs when an awaited
    promise settles is a second function.  JavaScript values that reach
    the program untyped (the result of [JSON.parse]) are kept as a
    dynamically typed [json] value.  A handler reads the state of the
    latest render, as the closures of the component do once React has
    rendered the previous update.

    Numbers.  XP, streaks, indices and lengths are integers, held in
    [Z] and [nat]; a sum of two numbers is the sum of doubles, exact on
    the safe integers and rounded beyond them.  The random draws of the
    fallback enter as their outcomes (a boolean and an index below
    three).

    Strings.  A JavaScript string is a sequence of UTF-16 code units.
    User-facing text (sentences, transcripts, prompts) is modelled by
    [string], each [ascii] standing for one code unit in 0..255, so the
    embedding covers Latin-1 text; string values inside parsed JSON are
    kept as lists of code units ([list N]) because an escape can denote
    any unit. *)

From Stdlib Require Import ZArith Ascii String List Lia Bool.
From Stdlib Require Import Decimal DecimalFacts DecimalPos DecimalZ DecimalString.
From stdpp Require Import base tactics option list strings.
Import ListNotations.

Set Warnings "-register-all".
Local Open Scope Z_scope.

(** ** JavaScript strings *)

Module JS.

Definition code (c : ascii) : N := N_of_ascii c.

(** The code units in 0..255 matched by the regular expression class
    [\s] and removed by [String.prototype.trim]: TAB, LF, VT, FF, CR,
    SPACE and NO-BREAK SPACE. *)
Definition isWhitespace (c : ascii) : bool :=
  let n := code c in
  ((9 <=? n) && (n <=? 13) || (n =? 32) || (n =? 160))%N.

Definition isUpper (c : ascii) : bool :=
  let n := code c in ((65 <=? n) && (n <=? 90))%N.

Definition isLower (c : ascii) : bool :=
  let n := code c in ((97 <=? n) && (n <=? 122))%N.

(** The class [[A-Za-z]]. *)
Definition isAlpha (c : ascii) : bool := isUpper c || isLower c.

Definition isDigit (c : ascii) : bool :=
  let n := code c in ((48 <=? n) && (n <=? 57))%N.

Fixpoint trimStart (s : string) : string :=
  match s with
  | EmptyString => EmptyString
  | String c r => if isWhitespace c then trimStart r else s
  end.

Fixpoint trimEnd (s : string) : string :=
  match s with
  | EmptyString => EmptyString
  | String c r =>
      match trimEnd r with
      | EmptyString => if isWhitespace c then EmptyString else String c EmptyString
      | r' => String c r'
      end
  end.

Definition trim (s : string) : string := trimEnd (trimStart s).

(** [s.split(/\s+/)].  The flag tells whether the scan is inside a run
    of separators; the head of the result is the token being read.
    As in JavaScript a leading or trailing separator leaves an empty
    token and the empty string splits into one empty token. *)
Fixpoint splitWsFrom (inSeparator : bool) (s : string) : list string :=
  match s with
  | EmptyString => [EmptyString]
  | String c r =>
      if isWhitespace c then
        if inSeparator then splitWsFrom true r
        else EmptyString :: splitWsFrom true r
      else
        match splitWsFrom false r with
        | t :: ts => String c t :: ts
        | [] => [String c EmptyString]
        end
  end.

Definition splitWs (s : string) : list string := splitWsFrom false s.

(** [s.replace(/[^A-Za-z]/g, '')]. *)
Fixpoint stripNonAlpha (s : string) : string :=
  match s with
  | EmptyString => EmptyString
  | String c r => if isAlpha c then String c (stripNonAlpha r) else stripNonAlpha r
  end.

Definition shift (c : ascii) (d : Z) : ascii :=
  ascii_of_N (Z.to_N (Z.of_N (code c) + d)).

(** [toUpperCase] on the letters a-z.  The source applies it only to
    the output of [stripNonAlpha], where no other cased unit occurs. *)
Definition upperChar (c : ascii) : ascii := if isLower c then shift c (-32) else c.

Fixpoint toUpperCase (s : string) : string :=
  match s with
  | EmptyString => EmptyString
  | String c r => String (upperChar c) (toUpperCase r)
  end.

(** [toLowerCase] on the units 0..255: A-Z and the Latin-1 capitals
    U+00C0..U+00DE (all but the multiplication sign U+00D7) move up
    by 32. *)
Definition lowerChar (c : ascii) : ascii :=
  let n := code c in
  if isUpper c || ((192 <=? n) && (n <=? 222) && negb (n =? 215))%N
  then shift c 32 else c.

Fixpoint toLowerCase (s : string) : string :=
  match s with
  | EmptyString => EmptyString
  | String c r => String (lowerChar c) (toLowerCase r)
  end.

(** [s.includes(sub)]. *)
Fixpoint includes (s sub : string) : bool :=
  String.prefix sub s ||
  match s with
  | EmptyString => false
  | String _ r => includes r sub
  end.

(** Decimal rendering of an integer inside a template literal. *)
Definition showZ (z : Z) : string := NilZero.string_of_int (Z.to_int z).
Definition showNat (n : nat) : string := showZ (Z.of_nat n).

(** The double-quote character, which the templates of the source
    contain. *)
Definition dq : string := String (ascii_of_nat 34) EmptyString.

(** Code units of a Latin-1 string. *)
Definition units (s : string) : list N := map code (list_ascii_of_string s).

End JS.

(** ** JSON values and [JSON.parse] *)

Module JSON.

(** A parsed JSON value.  A number keeps the exact decimal value of
    its literal, [mantissa * 10 ^ exponent]; the double it is rounded
    to is not modelled, except for the test whether it rounds to zero.
    An object keeps its members in source order. *)
Inductive json : Type :=
| JNull
| JBool (b : bool)
| JNum (mantissa exponent : Z)
| JStr (s : list N)
| JArr (items : list json)
| JObj (members : list (list N * json)).

(** Outcome of a parsing step: a value and the unread input, a syntax
    error, or recursion budget exhausted. *)
Inductive pres (A : Type) : Type :=
| POk (a : A) (rest : list ascii)
| PErr
| PFuel.
Arguments POk {A} a rest.
Arguments PErr {A}.
Arguments PFuel {A}.

(** JSON white space: SPACE, TAB, LF, CR. *)
Definition isWs (c : ascii) : bool :=
  let n := JS.code c in ((n =? 32) || (n =? 9) || (n =? 10) || (n =? 13))%N.

Fixpoint skipWs (s : list ascii) : list ascii :=
  match s with
  | c :: r => if isWs c then skipWs r else s
  | [] => []
  end.

(** The quotation mark. *)
Definition quote : ascii := ascii_of_nat 34.

(** [headIs c s] reads the character [c] at the head of [s]. *)
Definition headIs (c : ascii) (s : list ascii) : option (list ascii) :=
  match s with
  | c' :: r => if Ascii.eqb c' c then Some r else None
  | [] => None
  end.

(** [expect lit s] reads the keyword [lit] at the head of [s]. *)
Fixpoint expect (lit s : list ascii) : option (list ascii) :=
  match lit with
  | [] => Some s
  | l :: lit' =>
      match headIs l s with
      | Some s' => expect lit' s'
      | None => None
      end
  end.

Definition digitVal (c : ascii) : Z := Z.of_N (JS.code c) - 48.

(** Reads a possibly empty run of digits: their value appended to
    [acc], how many were read, and the rest. *)
Fixpoint digits (acc : Z) (count : Z) (s : list ascii) : Z * Z * list ascii :=
  match s with
  | c :: r => if JS.isDigit c then digits (10 * acc + digitVal c) (count + 1) r
              else (acc, count, s)
  | [] => (acc, count, [])
  end.

(** The integer part: a single 0, or a digit 1-9 followed by digits. *)
Definition intPart (s : list ascii) : option (Z * list ascii) :=
  match s with
  | c :: r =>
      if Ascii.eqb c "0" then Some (0, r)
      else if JS.isDigit c then
        let '(v, _, r') := digits (digitVal c) 1 r in Some (v, r')
      else None
  | [] => None
  end.

(** The optional fraction: the mantissa extended by the fraction
    digits, and their number. *)
Definition fracPart (m : Z) (s : list ascii) : option (Z * Z * list ascii) :=
  match headIs "." s with
  | Some r =>
      let '(v, n, r') := digits m 0 r in
      if n =? 0 then None else Some (v, n, r')
  | None => Some (m, 0, s)
  end.

Definition expDigits (sign : Z) (s : list ascii) : option (Z * list ascii) :=
  let '(v, n, r) := digits 0 0 s in
  if n =? 0 then None else Some (sign * v, r).

(** The optional exponent. *)
Definition expPart (s : list ascii) : option (Z * list ascii) :=
  match s with
  | c :: r =>
      if Ascii.eqb c "e" || Ascii.eqb c "E" then
        match headIs "+" r, headIs "-" r with
        | Some r', _ => expDigits 1 r'
        | None, Some r' => expDigits (-1) r'
        | None, None => expDigits 1 r
        end
      else Some (0, s)
  | [] => Some (0, [])
  end.

Definition parseNumber (s : list ascii) : pres json :=
  let '(sign, s1) :=
    match headIs "-" s with
    | Some r => (-1, r)
    | None => (1, s)
    end in
  match intPart s1 with
  | None => PErr
  | Some (i, s2) =>
      match fracPart i s2 with
      | None => PErr
      | Some (m, fracLen, s3) =>
          match expPart s3 with
          | None => PErr
          | Some (e, s4) => POk (JNum (sign * m) (e - fracLen)) s4
          end
      end
  end.

Definition hexVal (c : ascii) : option N :=
  let n := JS.code c in
  if JS.isDigit c then Some (n - 48)%N
  else if ((97 <=? n) && (n <=? 102))%N then Some (n - 87)%N
  else if ((65 <=? n) && (n <=? 70))%N then Some (n - 55)%N
  else None.

Definition hex4 (a b c d : ascii) : option N :=
  match hexVal a, hexVal b, hexVal c, hexVal d with
  | Some x, Some y, Some z, Some w => Some (((x * 16 + y) * 16 + z) * 16 + w)%N
  | _, _, _, _ => None
  end.

(** The code unit denoted by a one-letter escape. *)
Definition escapeUnit (c : ascii) : option N :=
  if Ascii.eqb c quote then Some 34%N
  else if Ascii.eqb c "\" then Some 92%N
  else if Ascii.eqb c "/" then Some 47%N
  else if Ascii.eqb c "b" then Some 8%N
  else if Ascii.eqb c "f" then Some 12%N
  else if Ascii.eqb c "n" then Some 10%N
  else if Ascii.eqb c "r" then Some 13%N
  else if Ascii.eqb c "t" then Some 9%N
  else None.

(** An escape after its reverse solidus: the unit it denotes and the
    rest. *)
Definition escape (s : list ascii) : option (N * list ascii) :=
  match s with
  | e :: r =>
      if Ascii.eqb e "u" then
        match r with
        | h1 :: h2 :: h3 :: h4 :: r' =>
            match hex4 h1 h2 h3 h4 with
            | Some u => Some (u, r')
            | None => None
            end
        | _ => None
        end
      else
        match escapeUnit e with
        | Some u => Some (u, r)
        | None => None
        end
  | [] => None
  end.

(** The characters of a string literal after its opening quote, up to
    and including the closing quote.  The budget is the length of the
    input: every step reads at least one character. *)
Fixpoint stringBodyIn (n : nat) (s : list ascii) : option (list N * list ascii) :=
  match n, s with
  | S n', c :: r =>
      if Ascii.eqb c quote then Some ([], r)
      else if Ascii.eqb c "\" then
        match escape r with
        | Some (u, r') =>
            match stringBodyIn n' r' with
            | Some (us, rest) => Some (u :: us, rest)
            | None => None
            end
        | None => None
        end
      else if (JS.code c <? 32)%N then None
      else
        match stringBodyIn n' r with
        | Some (us, rest) => Some (JS.code c :: us, rest)
        | None => None
        end
  | _, _ => None
  end.

Definition stringBody (s : list ascii) : option (list N * list ascii) :=
  stringBodyIn (length s) s.

Definition keyword (lit : string) (v : json) (s : list ascii) : pres json :=
  match expect (list_ascii_of_string lit) s with
  | Some r => POk v r
  | None => PErr
  end.

(** Recursive descent.  [parseElems] reads the elements of an array
    after its opening bracket, [parseMembers] the members of an object
    after its opening brace; both are entered only when the container
    is not empty. *)
Fixpoint parseValue (fuel : nat) (s : list ascii) : pres json :=
  match fuel with
  | O => PFuel
  | S f =>
      match skipWs s with
      | [] => PErr
      | c :: r =>
          if Ascii.eqb c "n" then keyword "null" JNull (c :: r)
          else if Ascii.eqb c "t" then keyword "true" (JBool true) (c :: r)
          else if Ascii.eqb c "f" then keyword "false" (JBool false) (c :: r)
          else if Ascii.eqb c quote then
            match stringBody r with
            | Some (us, rest) => POk (JStr us) rest
            | None => PErr
            end
          else if Ascii.eqb c "[" then
            match headIs "]" (skipWs r) with
            | Some rest => POk (JArr []) rest
            | None => parseElems f r []
            end
          else if Ascii.eqb c "{" then
            match headIs "}" (skipWs r) with
            | Some rest => POk (JObj []) rest
            | None => parseMembers f r []
            end
          else if Ascii.eqb c "-" || JS.isDigit c then parseNumber (c :: r)
          else PErr
      end
  end
with parseElems (fuel : nat) (s : list ascii) (acc : list json) : pres json :=
  match fuel with
  | O => PFuel
  | S f =>
      match parseValue f s with
      | POk v r =>
          match headIs "," (skipWs r), headIs "]" (skipWs r) with
          | Some r', _ => parseElems f r' (v :: acc)
          | None, Some r' => POk (JArr (rev (v :: acc))) r'
          | None, None => PErr
          end
      | PErr => PErr
      | PFuel => PFuel
      end
  end
with parseMembers (fuel : nat) (s : list ascii) (acc : list (list N * json)) : pres json :=
  match fuel with
  | O => PFuel
  | S f =>
      match headIs quote (skipWs s) with
      | Some r =>
          match stringBody r with
          | Some (k, r1) =>
              match headIs ":" (skipWs r1) with
              | Some r2 =>
                  match parseValue f r2 with
                  | POk v r3 =>
                      match headIs "," (skipWs r3), headIs "}" (skipWs r3) with
                      | Some r4, _ => parseMembers f r4 ((k, v) :: acc)
                      | None, Some r4 => POk (JObj (rev ((k, v) :: acc))) r4
                      | None, None => PErr
                      end
                  | PErr => PErr
                  | PFuel => PFuel
                  end
              | None => PErr
              end
          | None => PErr
          end
      | None => PErr
      end
  end.

(** Between two nested calls of the three parsers at most one reads
    no character, so twice the length of the input is budget enough
    (lemma [parse_within_budget]). *)
Definition budget (s : list ascii) : nat := 2 * length s + 2.

(** [JSON.parse(text)]: [None] is the [SyntaxError] it throws. *)
Definition parse (text : string) : option json :=
  let s := list_ascii_of_string text in
  match parseValue (budget s) s with
  | POk v rest => match skipWs rest with [] => Some v | _ :: _ => None end
  | PErr => None
  | PFuel => None
  end.

(** *** Reading a parsed value *)

(** Result of the property access [v.key]. *)
Inductive access : Type :=
| TypeErrorOnNull
| Undefined
| Value (v : json).

(** A later member with the same key overwrites an earlier one. *)
Fixpoint lookupMember (key : list N) (ms : list (list N * json)) : option json :=
  match ms with
  | [] => None
  | (k, v) :: ms' =>
      match lookupMember key ms' with
      | Some v' => Some v'
      | None => if decide (k = key) then Some v else None
      end
  end.

(** [v.key] for a key that is no built-in property of strings, arrays
    or objects (the source reads [success] only). *)
Definition prop (key : string) (v : json) : access :=
  match v with
  | JNull => TypeErrorOnNull
  | JObj ms =>
      match lookupMember (JS.units key) ms with
      | Some x => Value x
      | None => Undefined
      end
  | _ => Undefined
  end.

(** Whether the double nearest to [m * 10 ^ e] is not zero: the value
    must exceed half the least subnormal, [2 ^ -1075]. *)
Definition numberNonZero (m e : Z) : bool :=
  if 0 <=? e then negb (m =? 0)
  else 10 ^ (- e) <? Z.abs m * 2 ^ 1075.

(** [ToBoolean]. *)
Definition truthy (v : json) : bool :=
  match v with
  | JNull => false
  | JBool b => b
  | JNum m e => numberNonZero m e
  | JStr s => match s with [] => false | _ :: _ => true end
  | JArr _ => true
  | JObj _ => true
  end.

Definition truthyAccess (a : access) : bool :=
  match a with
  | Value v => truthy v
  | _ => false
  end.

Definition str (s : string) : json := JStr (JS.units s).

End JSON.

(** ** [src/types.ts] *)

Inductive Difficulty : Type := Beginner | Intermediate | Conversational.

Record StudentProgress : Type := {
  xp : Z;
  level : Difficulty;
  streakDays : Z;
  learnedSigns : list string
}.

Record Lesson : Type := {
  id : string;
  target : string;
  description : string;
  difficulty : Difficulty;
  prompt : string
}.

Inductive AppState : Type :=
| IDLE
| GENERATING_REF
| WAITING_FOR_USER
| LISTENING
| ANALYZING
| FEEDBACK
| SUCCESS.

#[global] Instance Difficulty_eq_dec : EqDecision Difficulty.
Proof. solve_decision. Defined.

#[global] Instance AppState_eq_dec : EqDecision AppState.
Proof. solve_decision. Defined.

(** What a call can raise. *)
Inductive exn : Type :=
| SyntaxError
| TypeError
| Error (message : string).

(** Result of a call (for an [async] function: how its promise
    settles). *)
Inductive outcome (A : Type) : Type :=
| Returns (a : A)
| Throws (e : exn).
Arguments Returns {A} a.
Arguments Throws {A} e.

(** The object literal [{ success, message, correctionPrompt }] of
    interface [FeedbackResponse]; the last member is optional. *)
Definition feedbackResponse (success : bool) (message : string)
    (correctionPrompt : option string) : JSON.json :=
  JSON.JObj
    ([(JS.units "success", JSON.JBool success);
      (JS.units "message", JSON.str message)]
     ++ match correctionPrompt with
        | Some p => [(JS.units "correctionPrompt", JSON.str p)]
        | None => []
        end).

(** The run-time shape interface [FeedbackResponse] asks for: an object
    whose [success] is a boolean, whose [message] is a string and whose
    [correctionPrompt] is absent or a string. *)
Definition isFeedbackResponse (v : JSON.json) : bool :=
  match v with
  | JSON.JObj _ =>
      match JSON.prop "success" v, JSON.prop "message" v with
      | JSON.Value (JSON.JBool _), JSON.Value (JSON.JStr _) =>
          match JSON.prop "correctionPrompt" v with
          | JSON.Undefined | JSON.Value (JSON.JStr _) => true
          | _ => false
          end
      | _, _ => false
      end
  | _ => false
  end.

(** The value of the [message] member is a string with at least one
    code unit. *)
Definition hasNonEmptyMessage (v : JSON.json) : bool :=
  match JSON.prop "message" v with
  | JSON.Value (JSON.JStr (_ :: _)) => true
  | _ => false
  end.

Definition difficultyName (d : Difficulty) : string :=
  match d with
  | Beginner => "Beginner"
  | Intermediate => "Intermediate"
  | Conversational => "Conversational"
  end.

(** The object a [StudentProgress] record denotes. *)
Definition progressObject (p : StudentProgress) : JSON.json :=
  JSON.JObj
    [(JS.units "xp", JSON.JNum (xp p) 0);
     (JS.units "level", JSON.str (difficultyName (level p)));
     (JS.units "streakDays", JSON.JNum (streakDays p) 0);
     (JS.units "learnedSigns", JSON.JArr (map JSON.str (learnedSigns p)))].

(** ** [src/constants.ts] *)

Definition ALPHABET_LESSONS : list Lesson :=
  [ {| id := "A"; target := "A";
       description := "Make a fist with your thumb resting against the side of your index finger.";
       difficulty := Beginner;
       prompt := "photorealistic close-up of a hand signing ASL letter A, neutral background, 4k" |};
    {| id := "B"; target := "B";
       description := "Open palm, fingers straight up and together, thumb tucked across palm.";
       difficulty := Beginner;
       prompt := "photorealistic close-up of a hand signing ASL letter B, neutral background, 4k" |};
    {| id := "C"; target := "C";
       description := "Curve your fingers and thumb to form a C shape.";
       difficulty := Beginner;
       prompt := "photorealistic close-up of a hand signing ASL letter C, side profile, neutral background, 4k" |} ].

Definition INITIAL_PROGRESS : StudentProgress :=
  {| xp := 0; level := Beginner; streakDays := 1; learnedSigns := [] |}.

(** ** The progress store, [useProgress] *)

(** The initial state of the hook: [saved] is what
    [localStorage.getItem('signsynth-progress')] returned, [None] for
    [null].  The conditional tests the truthiness of [saved], so an empty
    string takes the default branch; [JSON.parse] is called outside any
    [try]. *)
Definition load (saved : option string) : outcome JSON.json :=
  match saved with
  | None => Returns (progressObject INITIAL_PROGRESS)
  | Some EmptyString => Returns (progressObject INITIAL_PROGRESS)
  | Some text =>
      match JSON.parse text with
      | Some v => Returns v
      | None => Throws SyntaxError
      end
  end.

(** [Number.isSafeInteger]: the integers of magnitude at most
    [2 ^ 53 - 1], on which the arithmetic of doubles is that of [Z]. *)
Definition safeInteger (z : Z) : Prop := Z.abs z <= 2 ^ 53 - 1.

(** The double nearest to the integer [z], ties to the even
    significand: [z] itself while it fits the 53 bits of a significand,
    else a multiple of the power of two below which bits are dropped.
    (A magnitude of [2 ^ 1024] and more, which JavaScript turns into
    [Infinity], is outside the embedding; adding 50 to a finite double
    never gets there.) *)
Definition roundToDouble (z : Z) : Z :=
  let a := Z.abs z in
  let dropped := Z.log2 a - 52 in
  if dropped <=? 0 then z
  else
    let unit := 2 ^ dropped in
    let q := a / unit in
    let r := a mod unit in
    let half := unit / 2 in
    let q' :=
      if r <? half then q
      else if half <? r then q + 1
      else if Z.even q then q else q + 1 in
    Z.sgn z * (q' * unit).

(** [x + y] on two integer-valued doubles: the exact sum, rounded. *)
Definition numberAdd (x y : Z) : Z := roundToDouble (x + y).
Arguments numberAdd : simpl never.

(** [setProgress(prev => ({ ...prev, xp: prev.xp + amount }))]. *)
Definition addXP (amount : Z) (prev : StudentProgress) : StudentProgress :=
  {| xp := numberAdd (xp prev) amount;
     level := level prev;
     streakDays := streakDays prev;
     learnedSigns := learnedSigns prev |}.

(** [prev.learnedSigns.includes(sign)]. *)
Definition arrayIncludes (l : list string) (x : string) : bool :=
  existsb (String.eqb x) l.

Definition markLearned (sign : string) (prev : StudentProgress) : StudentProgress :=
  if arrayIncludes (learnedSigns prev) sign then prev
  else {| xp := xp prev;
          level := level prev;
          streakDays := streakDays prev;
          learnedSigns := learnedSigns prev ++ [sign] |}.

(** A mutation of the store, and a run of mutations in call order. *)
Inductive ProgressOp : Type :=
| AddXP (amount : Z)
| MarkLearned (sign : string).

Definition applyOp (p : StudentProgress) (op : ProgressOp) : StudentProgress :=
  match op with
  | AddXP n => addXP n p
  | MarkLearned s => markLearned s p
  end.

Definition applyOps (ops : list ProgressOp) (p : StudentProgress) : StudentProgress :=
  fold_left applyOp ops p.

(** ** [src/services/aiService.ts]: [analyzeHandShape] *)

(** What the remote call of the primary path does: there is no client
    (no API key), [generateContent] rejects, or it resolves with a
    response whose [text] is undefined or a string. *)
Inductive Reply : Type :=
| NoClient
| RequestFailed (e : exn)
| Response (text : option string).

(** The value of [Math.floor(Math.random() * errors.length)] for the
    three-element array [errors]. *)
Inductive Slot : Type := Slot0 | Slot1 | Slot2.

Definition slotIndex (s : Slot) : nat :=
  match s with Slot0 => 0%nat | Slot1 => 1%nat | Slot2 => 2%nat end.

(** The two random draws of the fallback: the test
    [Math.random() > 0.4] and the index into [errors]. *)
Record Draws : Type := {
  isSuccess : bool;
  errorSlot : Slot
}.

(** The [try] block.  The request built from [target], the image and
    the question only reaches the remote model, whose reply is given. *)
Definition primaryPath (reply : Reply) : outcome JSON.json :=
  match reply with
  | NoClient => Throws (Error "No API Key available")
  | RequestFailed e => Throws e
  | Response rtext =>
      let text :=
        match rtext with
        | None | Some EmptyString => "{}"
        | Some t => t
        end in
      match JSON.parse text with
      | Some v => Returns v
      | None => Throws SyntaxError
      end
  end.

Definition errors (target : string) : list string :=
  [ "Your thumb is tucked too tight for '" +:+ target +:+ "'. Relax it slightly.";
    "Your fingers need to be straighter. Look at the reference.";
    "Rotate your wrist slightly outward to match the angle." ].

(** The [catch] block (after its 1500 ms delay). *)
Definition mockFallback (target : string) (spokenQuestion : option string)
    (draws : Draws) : JSON.json :=
  match spokenQuestion with
  | Some (String c q) =>
      feedbackResponse false
        ("I heard you ask: " +:+ JS.dq +:+ String c q +:+ JS.dq +:+
         ". Based on the image, your index finger looks good, but check your thumb placement.")
        (Some ("photorealistic hand signing ASL letter " +:+ target))
  | _ =>
      if isSuccess draws then
        feedbackResponse true
          ("Excellent! Your shape for '" +:+ target +:+
           "' looks perfect based on our simulation.")
          None
      else
        let correction :=
          "photorealistic hand signing ASL letter " +:+ target +:+
          " with emphasis on correct thumb placement, highlighted green outlines" in
        match errors target !! slotIndex (errorSlot draws) with
        | Some m => feedbackResponse false m (Some correction)
        | None =>
            (* [errors[i]] undefined, so no [message]: not reached, a slot
               is below the length of [errors] *)
            JSON.JObj [(JS.units "success", JSON.JBool false);
                       (JS.units "correctionPrompt", JSON.str correction)]
        end
  end.

Definition analyzeHandShape (target imageBase64 : string)
    (spokenQuestion : option string) (reply : Reply) (draws : Draws)
    : outcome JSON.json :=
  match primaryPath reply with
  | Returns v => Returns v
  | Throws _ => Returns (mockFallback target spokenQuestion draws)
  end.

(** ** [src/App.tsx]: the classroom state machine *)

Inductive Tab : Type := classroom | practice.

#[global] Instance Tab_eq_dec : EqDecision Tab.
Proof. solve_decision. Defined.

(** The state of component [App] that the classroom logic reads or
    writes, with the record of [useProgress].  [feedback] is a
    [FeedbackResponse] or [null] ([JSON.JNull]). *)
Record App : Type := {
  activeTab : Tab;
  currentLesson : Lesson;
  lessonQueue : list Lesson;
  appState : AppState;
  refImage : option string;
  feedback : JSON.json;
  isAutoMode : bool;
  isMicOn : bool;
  lastSpokenCommand : option string;
  customSentence : string;
  progress : StudentProgress
}.

Definition setCurrentLesson (l : Lesson) (s : App) : App :=
  {| activeTab := activeTab s; currentLesson := l; lessonQueue := lessonQueue s;
     appState := appState s; refImage := refImage s; feedback := feedback s;
     isAutoMode := isAutoMode s; isMicOn := isMicOn s;
     lastSpokenCommand := lastSpokenCommand s; customSentence := customSentence s;
     progress := progress s |}.

Definition setLessonQueue (q : list Lesson) (s : App) : App :=
  {| activeTab := activeTab s; currentLesson := currentLesson s; lessonQueue := q;
     appState := appState s; refImage := refImage s; feedback := feedback s;
     isAutoMode := isAutoMode s; isMicOn := isMicOn s;
     lastSpokenCommand := lastSpokenCommand s; customSentence := customSentence s;
     progress := progress s |}.

Definition setAppState (a : AppState) (s : App) : App :=
  {| activeTab := activeTab s; currentLesson := currentLesson s;
     lessonQueue := lessonQueue s;
     appState := a; refImage := refImage s; feedback := feedback s;
     isAutoMode := isAutoMode s; isMicOn := isMicOn s;
     lastSpokenCommand := lastSpokenCommand s; customSentence := customSentence s;
     progress := progress s |}.

Definition setRefImage (r : option string) (s : App) : App :=
  {| activeTab := activeTab s; currentLesson := currentLesson s;
     lessonQueue := lessonQueue s;
     appState := appState s; refImage := r; feedback := feedback s;
     isAutoMode := isAutoMode s; isMicOn := isMicOn s;
     lastSpokenCommand := lastSpokenCommand s; customSentence := customSentence s;
     progress := progress s |}.

Definition setFeedback (f : JSON.json) (s : App) : App :=
  {| activeTab := activeTab s; currentLesson := currentLesson s;
     lessonQueue := lessonQueue s;
     appState := appState s; refImage := refImage s; feedback := f;
     isAutoMode := isAutoMode s; isMicOn := isMicOn s;
     lastSpokenCommand := lastSpokenCommand s; customSentence := customSentence s;
     progress := progress s |}.

Definition setLastSpokenCommand (c : option string) (s : App) : App :=
  {| activeTab := activeTab s; currentLesson := currentLesson s;
     lessonQueue := lessonQueue s;
     appState := appState s; refImage := refImage s; feedback := feedback s;
     isAutoMode := isAutoMode s; isMicOn := isMicOn s;
     lastSpokenCommand := c; customSentence := customSentence s;
     progress := progress s |}.

Definition setCustomSentence (c : string) (s : App) : App :=
  {| activeTab := activeTab s; currentLesson := currentLesson s;
     lessonQueue := lessonQueue s;
     appState := appState s; refImage := refImage s; feedback := feedback s;
     isAutoMode := isAutoMode s; isMicOn := isMicOn s;
     lastSpokenCommand := lastSpokenCommand s; customSentence := c;
     progress := progress s |}.

(** [setProgress(updater)] of [useProgress]. *)
Definition setProgress (f : StudentProgress -> StudentProgress) (s : App) : App :=
  {| activeTab := activeTab s; currentLesson := currentLesson s;
     lessonQueue := lessonQueue s;
     appState := appState s; refImage := refImage s; feedback := feedback s;
     isAutoMode := isAutoMode s; isMicOn := isMicOn s;
     lastSpokenCommand := lastSpokenCommand s; customSentence := customSentence s;
     progress := f (progress s) |}.

(** The state on mount. *)
Definition initialApp (saved : StudentProgress) : App :=
  {| activeTab := classroom;
     currentLesson :=
       {| id := "A"; target := "A";
          description := "Make a fist with your thumb resting against the side of your index finger.";
          difficulty := Beginner;
          prompt := "photorealistic close-up of a hand signing ASL letter A, neutral background, 4k" |};
     lessonQueue := ALPHABET_LESSONS;
     appState := IDLE;
     refImage := None;
     feedback := JSON.JNull;
     isAutoMode := false;
     isMicOn := false;
     lastSpokenCommand := None;
     customSentence := EmptyString;
     progress := saved |}.

(** An asynchronous operation a handler starts. *)
Inductive Effect : Type :=
| GenerateReferenceImage (prompt aspectRatio : string)
| AnalyzeHandShape (target imageSrc : string) (spokenText : option string)
| CreateLessonFromIntent (transcript : string)
| ClearLastSpokenCommand (delayMs : Z).

(** A handler yields the next state and the operations it started;
    [None] stands for [loadLesson(undefined)], after which the next
    render dereferences an undefined lesson and the component tree is
    unmounted. *)
Abbreviation Step := (option (App * list Effect)).

(** A screenshot is [null], [undefined] or a data URL; the source tests
    its truthiness. *)
Definition truthyString (s : option string) : option string :=
  match s with
  | Some (String c r) => Some (String c r)
  | _ => None
  end.

(** [loadLesson] up to its [await]. *)
Definition loadLesson (lesson : Lesson) (s : App) : App * list Effect :=
  (setFeedback JSON.JNull (setAppState GENERATING_REF (setCurrentLesson lesson s)),
   [GenerateReferenceImage (prompt lesson) "1:1"]).

(** [loadLesson] after [generateReferenceImage] settled. *)
Definition loadLessonSettled (o : outcome string) (s : App) : App :=
  match o with
  | Returns url => setAppState WAITING_FOR_USER (setRefImage (Some url) s)
  | Throws _ => setAppState IDLE s
  end.

(** [performAnalysis] up to its [await]. *)
Definition performAnalysis (imageSrc : string) (spokenText : option string)
    (s : App) : App * list Effect :=
  match appState s with
  | ANALYZING | GENERATING_REF => (s, [])
  | _ =>
      (setFeedback JSON.JNull (setAppState ANALYZING s),
       [AnalyzeHandShape (target (currentLesson s)) imageSrc spokenText])
  end.

(** [performAnalysis] after [analyzeHandShape] settled; [lessonTarget]
    is [currentLesson.target] of the closure that made the call.
    Reading [result.success] of [null] throws inside the [try]. *)
Definition performAnalysisSettled (lessonTarget : string)
    (o : outcome JSON.json) (s : App) : App :=
  match o with
  | Returns result =>
      let s1 := setFeedback result s in
      match JSON.prop "success" result with
      | JSON.TypeErrorOnNull => setAppState WAITING_FOR_USER s1
      | a =>
          if JSON.truthyAccess a then
            setProgress (markLearned lessonTarget)
              (setProgress (addXP 50) (setAppState SUCCESS s1))
          else setAppState FEEDBACK s1
      end
  | Throws _ => setAppState WAITING_FOR_USER s
  end.

(** Runs, with nothing else scheduled in between, the continuation of
    every analysis a handler started, on what [analyze] settles to. *)
Definition settleAnalyses
    (analyze : string -> string -> option string -> outcome JSON.json)
    (r : App * list Effect) : App :=
  fold_left
    (fun st e =>
       match e with
       | AnalyzeHandShape t i q => performAnalysisSettled t (analyze t i q) st
       | _ => st
       end)
    (snd r) (fst r).

(** One whole run of [performAnalysis]. *)
Definition performAnalysisRun (imageSrc : string) (spokenText : option string)
    (analyze : string -> string -> option string -> outcome JSON.json)
    (s : App) : App :=
  settleAnalyses analyze (performAnalysis imageSrc spokenText s).

Definition acceptsCapture (a : AppState) : bool :=
  match a with
  | WAITING_FOR_USER | FEEDBACK | SUCCESS => true
  | _ => false
  end.

Definition handleCapture (screenshot : option string) (s : App) : App * list Effect :=
  if negb (acceptsCapture (appState s)) then (s, [])
  else
    match truthyString screenshot with
    | Some imageSrc => performAnalysis imageSrc None s
    | None => (s, [])
    end.

(** The auto-check effect arms its 3500 ms interval under this
    condition and clears it when a dependency changes. *)
Definition autoCaptureArmed (s : App) : bool :=
  isAutoMode s && bool_decide (activeTab s = classroom) && acceptsCapture (appState s).

(** The callback of the interval. *)
Definition autoCaptureTick (screenshot : option string) (s : App) : App * list Effect :=
  match truthyString screenshot with
  | Some imageSrc => performAnalysis imageSrc None s
  | None => (s, [])
  end.

(** [array.findIndex(p)]. *)
Definition findIndex {A} (p : A -> bool) (l : list A) : Z :=
  match list_find (fun x => p x = true) l with
  | Some (i, _) => Z.of_nat i
  | None => -1
  end.

(** [array[k]] for a number [k]; [None] is [NaN]. *)
Definition index {A} (l : list A) (k : option Z) : option A :=
  match k with
  | Some z => if 0 <=? z then l !! Z.to_nat z else None
  | None => None
  end.

(** [a % b] on integers: the remainder takes the sign of [a], and a zero
    divisor gives [NaN]. *)
Definition remainder (a b : Z) : option Z :=
  if b =? 0 then None else Some (Z.rem a b).

Definition currentIndex (s : App) : Z :=
  findIndex (fun l => String.eqb (id l) (id (currentLesson s))) (lessonQueue s).

Definition handleNext (s : App) : Step :=
  let idx := currentIndex s in
  let nextIndex := remainder (idx + 1) (Z.of_nat (length (lessonQueue s))) in
  match index (lessonQueue s) nextIndex with
  | Some l => Some (loadLesson l s)
  | None => None
  end.

Definition handlePrevious (s : App) : Step :=
  let idx := currentIndex s in
  let prevIndex := idx - 1 in
  if 0 <=? prevIndex then
    match index (lessonQueue s) (Some prevIndex) with
    | Some l => Some (loadLesson l s)
    | None => None
    end
  else Some (s, []).

(** [processVoiceCommand] up to its first [await]. *)
Definition processVoiceCommand (transcript : string) (screenshot : option string)
    (s : App) : Step :=
  let lower := JS.toLowerCase transcript in
  let s := setLastSpokenCommand (Some transcript) s in
  let started (r : App * list Effect) : App * list Effect :=
    (fst r, ClearLastSpokenCommand 3000 :: snd r) in
  if JS.includes lower "next lesson" || JS.includes lower "move to next"
     || JS.includes lower "skip" then
    started <$> handleNext s
  else if JS.includes lower "previous lesson" || JS.includes lower "go back" then
    started <$> handlePrevious s
  else if JS.includes lower "again" || JS.includes lower "repeat"
          || JS.includes lower "restart" then
    Some (started (loadLesson (currentLesson s) s))
  else if JS.includes lower "how to" || JS.includes lower "show me"
          || JS.includes lower "teach me" then
    Some (started
      (setFeedback
         (feedbackResponse false
            ("Generative Teacher: Creating lesson for " +:+ JS.dq +:+ transcript
             +:+ JS.dq +:+ "...") None)
         (setAppState GENERATING_REF s),
       [CreateLessonFromIntent transcript]))
  else
    match truthyString screenshot with
    | Some imageSrc => Some (started (performAnalysis imageSrc (Some transcript) s))
    | None => Some (started (s, []))
    end.

(** The teach branch after [createLessonFromIntent] settled. *)
Definition createLessonSettled (o : outcome Lesson) (s : App) : App * list Effect :=
  match o with
  | Returns newLesson =>
      loadLesson newLesson (setLessonQueue (lessonQueue s ++ [newLesson]) s)
  | Throws _ =>
      (setFeedback
         (feedbackResponse false "Sorry, I couldn't generate that lesson." None)
         (setAppState WAITING_FOR_USER s),
       [])
  end.

(** The two prompt templates of [handleSentenceSubmit]. *)
Definition wordPrompt (word : string) : string :=
  "educational infographic illustration of hands signing the word "
  +:+ JS.dq +:+ word +:+ JS.dq +:+
  " in ASL, showing motion lines, arrows indicating movement, and facial expression if necessary, photorealistic style, white background".

Definition letterPrompt (word : string) : string :=
  "photorealistic close-up of a hand signing ASL letter " +:+ word
  +:+ ", neutral background, 4k".

(** The callback of [rawWords.map]: [total] is [rawWords.length] and
    [now i] the value [Date.now()] returns while element [i] is mapped.
    [None] is the [null] that [filter(Boolean)] removes. *)
Definition wordLesson (now : nat -> Z) (total : nat) (i : nat) (rawWord : string)
    : option Lesson :=
  let word := JS.toUpperCase (JS.stripNonAlpha rawWord) in
  match word with
  | EmptyString => None
  | _ =>
      let isWord := (1 <? String.length word)%nat in
      Some
        {| id := "seq-" +:+ JS.showZ (now i) +:+ "-" +:+ JS.showNat i;
           target := word;
           description :=
             "Step " +:+ JS.showNat (i + 1) +:+ " of " +:+ JS.showNat total
             +:+ ": Sign '" +:+ word +:+ "'";
           difficulty := if isWord then Intermediate else Beginner;
           prompt := if isWord then wordPrompt word else letterPrompt word |}
  end.

(** [newLessons] of [handleSentenceSubmit] for a sentence. *)
Definition sentenceLessons (now : nat -> Z) (sentence : string) : list Lesson :=
  let rawWords := JS.splitWs (JS.trim sentence) in
  omap (fun x => x) (imap (wordLesson now (length rawWords)) rawWords).

Definition handleSentenceSubmit (now : nat -> Z) (s : App) : App * list Effect :=
  match JS.trim (customSentence s) with
  | EmptyString => (s, [])
  | _ =>
      match sentenceLessons now (customSentence s) with
      | [] => (s, [])
      | first :: rest =>
          let '(s1, started) := loadLesson first (setLessonQueue (first :: rest) s) in
          (setFeedback
             (feedbackResponse false
                ("Queue updated! We will go word by word. First up: " +:+ JS.dq
                 +:+ target first +:+ JS.dq) None)
             (setCustomSentence EmptyString s1),
           started)
      end
  end.

Definition handleRetry (s : App) : App :=
  setFeedback JSON.JNull (setAppState WAITING_FOR_USER s).

(** ** Specification-side vocabulary *)

(** The ways the primary path of [analyzeHandShape] throws: missing
    credentials, a failed request, or a response whose text (read as
    [{}] when absent or empty) is not JSON. *)
Definition responseText (rtext : option string) : string :=
  match rtext with
  | None | Some EmptyString => "{}"
  | Some t => t
  end.

Inductive PrimaryThrows : Reply -> Prop :=
| missing_credentials : PrimaryThrows NoClient
| request_failure e : PrimaryThrows (RequestFailed e)
| unparseable_response rtext :
    JSON.parse (responseText rtext) = None -> PrimaryThrows (Response rtext).

(** The voice command interpreter in the words of its specification:
    an ordered list of rules, each a set of keywords and an action; the
    first rule with a keyword that occurs in the lower-cased transcript
    decides, and a transcript no rule matches is a spoken question. *)
Inductive VoiceAction : Type :=
| Advance
| Retreat
| RepeatLesson
| TeachNew
| SpokenQuestion.

Definition voiceRules : list (list string * VoiceAction) :=
  [ (["next lesson"; "move to next"; "skip"], Advance);
    (["previous lesson"; "go back"], Retreat);
    (["again"; "repeat"; "restart"], RepeatLesson);
    (["how to"; "show me"; "teach me"], TeachNew) ].

Definition mentions (lower : string) (keywords : list string) : bool :=
  existsb (JS.includes lower) keywords.

Fixpoint firstMatch (lower : string) (rules : list (list string * VoiceAction))
    : VoiceAction :=
  match rules with
  | [] => SpokenQuestion
  | (keywords, action) :: rest =>
      if mentions lower keywords then action else firstMatch lower rest
  end.

Definition interpret (transcript : string) : VoiceAction :=
  firstMatch (JS.toLowerCase transcript) voiceRules.

(** What each action does to the classroom. *)
Definition perform (a : VoiceAction) (transcript : string)
    (screenshot : option string) (s : App) : Step :=
  match a with
  | Advance => handleNext s
  | Retreat => handlePrevious s
  | RepeatLesson => Some (loadLesson (currentLesson s) s)
  | TeachNew =>
      Some (setFeedback
              (feedbackResponse false
                 ("Generative Teacher: Creating lesson for " +:+ JS.dq
                  +:+ transcript +:+ JS.dq +:+ "...") None)
              (setAppState GENERATING_REF s),
            [CreateLessonFromIntent transcript])
  | SpokenQuestion =>
      Some (match truthyString screenshot with
            | Some imageSrc => performAnalysis imageSrc (Some transcript) s
            | None => (s, [])
            end)
  end.

(** The bookkeeping every voice command does first: remember the
    transcript and schedule its removal. *)
Definition heard (r : App * list Effect) : App * list Effect :=
  (fst r, ClearLastSpokenCommand 3000 :: snd r).

(** Every character of a string satisfies a test. *)
Fixpoint allChars (p : ascii -> bool) (s : string) : bool :=
  match s with
  | EmptyString => true
  | String c r => p c && allChars p r
  end.

(** The characters of a string that are not white space, in order. *)
Fixpoint removeWhitespace (s : string) : string :=
  match s with
  | EmptyString => EmptyString
  | String c r =>
      if JS.isWhitespace c then removeWhitespace r else String c (removeWhitespace r)
  end.

Definition joinAll (tokens : list string) : string :=
  fold_right String.append EmptyString tokens.

(** The cleaned form of a raw token of a sentence. *)
Definition cleanWord (rawWord : string) : string :=
  JS.toUpperCase (JS.stripNonAlpha rawWord).


Definition total (amounts : list Z) : Z := fold_right Z.add 0 amounts.

(** ** [src/services/aiService.ts]: [generateReferenceImage] *)

(** A part of the first candidate of an image response: [inlineData] is
    absent ([None]) or an object whose [data] is undefined or a
    string. *)
Record Part : Type := {
  inlineData : option (option string)
}.

(** What the remote call does: no client, a failed request, or a
    response; [parts] is [None] when
    [response.candidates?.[0]?.content?.parts] is undefined. *)
Inductive ImageReply : Type :=
| ImageNoClient
| ImageRequestFailed (e : exn)
| ImageResponse (parts : option (list Part)).

(** The [for] loop over the parts: the first part with [inlineData]
    decides. *)
Fixpoint firstInlineData (parts : list Part) : option (option string) :=
  match parts with
  | [] => None
  | p :: rest =>
      match inlineData p with
      | Some d => Some d
      | None => firstInlineData rest
      end
  end.

(** [`${x}`] for a member that is undefined or a string. *)
Definition renderOptional (x : option string) : string :=
  match x with
  | Some d => d
  | None => "undefined"
  end.

Definition imagePrimary (reply : ImageReply) : outcome string :=
  match reply with
  | ImageNoClient => Throws (Error "No API Key available")
  | ImageRequestFailed e => Throws e
  | ImageResponse parts =>
      match firstInlineData (default [] parts) with
      | Some d => Returns ("data:image/png;base64," +:+ renderOptional d)
      | None => Throws (Error "No image data found in response")
      end
  end.

(** [stripPrefixCI lit s] reads the lower-case literal [lit] at the head
    of [s] without regard to case, as a regular expression with flag [i]
    does on the units 0..255. *)
Fixpoint stripPrefixCI (lit s : string) : option string :=
  match lit with
  | EmptyString => Some s
  | String l lit' =>
      match s with
      | EmptyString => None
      | String c s' =>
          if Ascii.eqb (JS.lowerChar c) l then stripPrefixCI lit' s' else None
      end
  end.

(** [prompt.match(/ASL letter ([A-Z])/i)]: the group of the leftmost
    match. *)
Fixpoint letterMatch (prompt : string) : option ascii :=
  match prompt with
  | EmptyString => None
  | String _ rest =>
      match stripPrefixCI "asl letter " prompt with
      | Some (String l _) => if JS.isAlpha l then Some l else letterMatch rest
      | _ => letterMatch rest
      end
  end.

(** The [catch] block (after its 1000 ms delay). *)
Definition placeholderImage (prompt : string) : string :=
  let letter :=
    match letterMatch prompt with
    | Some l => String (JS.upperChar l) EmptyString
    | None => "Sign"
    end in
  "https://placehold.co/800x800/1e293b/FFF?text=ASL+Sign:+" +:+ letter.

Definition generateReferenceImage (prompt aspectRatio : string)
    (reply : ImageReply) : outcome string :=
  match imagePrimary reply with
  | Returns url => Returns url
  | Throws _ => Returns (placeholderImage prompt)
  end.

(** One whole run of [loadLesson], with nothing else scheduled in
    between. *)
Definition loadLessonRun (lesson : Lesson) (reply : ImageReply) (s : App) : App :=
  loadLessonSettled (generateReferenceImage (prompt lesson) "1:1" reply)
    (fst (loadLesson lesson s)).

(** [generateReferenceImage] called with a [prompt] that is no string
    at run time (a number, [true], an array or an object: the parameter
    is declared a string, and nothing checks it).  The [try] block hands
    the value to the remote call; the [catch] block calls
    [prompt.match], which is not a function on such a value, so a
    [TypeError] is thrown inside the [catch] block and the promise
    rejects. *)
Definition generateReferenceImageNoString (reply : ImageReply) : outcome string :=
  match imagePrimary reply with
  | Returns url => Returns url
  | Throws _ => Throws TypeError
  end.

(** ** [src/services/aiService.ts]: [createLessonFromIntent] *)

(** The value of the [prompt] member of the lesson the primary path
    builds: the model's [prompt] when truthy, else the template
    [`photorealistic hand signing ${data.target}`], its hole kept as the
    value read. *)
Inductive PromptValue : Type :=
| PromptOf (v : JSON.json)
| HandSigning (target : JSON.access).

(** The lesson object as built at run time: the members taken from the
    model are whatever JSON the model wrote. *)
Record LessonObject : Type := {
  objectId : string;
  objectTarget : JSON.json;
  objectDescription : JSON.json;
  objectDifficulty : JSON.json;
  objectPrompt : PromptValue
}.

(** [a || fallback] for a member read [a]. *)
Definition orElse (a : JSON.access) (fallback : JSON.json) : JSON.json :=
  match a with
  | JSON.Value v => if JSON.truthy v then v else fallback
  | _ => fallback
  end.

(** The lesson of the [catch] block. *)
Definition genericLesson (now : Z) : LessonObject :=
  {| objectId := "dyn-" +:+ JS.showZ now;
     objectTarget := JSON.str "Custom Sign";
     objectDescription :=
       JSON.str "I couldn't quite catch the specific sign, but here is a generic practice helper.";
     objectDifficulty := JSON.str "Beginner";
     objectPrompt := PromptOf (JSON.str "photorealistic hands signing ASL alphabet") |}.

(** [clock k] is what the call number [k] of [Date.now()] returns.  The
    object literal of the [try] block reads the clock before it reads
    [data.target], so when [data] is [null] the [catch] block makes the
    second call. *)
Definition createLessonFromIntent (userVoicePrompt : string) (clock : nat -> Z)
    (reply : Reply) : outcome LessonObject :=
  match primaryPath reply with
  | Returns data =>
      match JSON.prop "target" data with
      | JSON.TypeErrorOnNull => Returns (genericLesson (clock 1%nat))
      | target =>
          Returns
            {| objectId := "dyn-" +:+ JS.showZ (clock 0%nat);
               objectTarget := orElse target (JSON.str "Unknown");
               objectDescription :=
                 orElse (JSON.prop "description" data)
                   (JSON.str "Follow the hand sign shown.");
               objectDifficulty :=
                 orElse (JSON.prop "difficulty" data) (JSON.str "Beginner");
               objectPrompt :=
                 match JSON.prop "prompt" data with
                 | JSON.Value v =>
                     if JSON.truthy v then PromptOf v else HandSigning target
                 | _ => HandSigning target
                 end |}
      end
  | Throws _ => Returns (genericLesson (clock 0%nat))
  end.

(** *** The lesson object read at type [Lesson] *)

(** A string value whose units are all below 256, as a [string]. *)
Definition latin1 (us : list N) : option string :=
  if forallb (fun u => (u <? 256)%N) us
  then Some (string_of_list_ascii (map ascii_of_N us))
  else None.

Definition asString (v : JSON.json) : option string :=
  match v with
  | JSON.JStr us => latin1 us
  | _ => None
  end.

Definition asDifficulty (v : JSON.json) : option Difficulty :=
  match asString v with
  | Some name =>
      if String.eqb name "Beginner" then Some Beginner
      else if String.eqb name "Intermediate" then Some Intermediate
      else if String.eqb name "Conversational" then Some Conversational
      else None
  | None => None
  end.

(** The text of a prompt value whose hole is undefined or a string. *)
Definition promptText (p : PromptValue) : option string :=
  match p with
  | PromptOf v => asString v
  | HandSigning JSON.Undefined => Some "photorealistic hand signing undefined"
  | HandSigning (JSON.Value (JSON.JStr us)) =>
      match latin1 us with
      | Some t => Some ("photorealistic hand signing " +:+ t)
      | None => None
      end
  | HandSigning _ => None
  end.

(** The lesson object as a [Lesson], when its members have the types the
    interface declares. *)
Definition asLesson (o : LessonObject) : option Lesson :=
  match asString (objectTarget o), asString (objectDescription o),
        asDifficulty (objectDifficulty o), promptText (objectPrompt o) with
  | Some t, Some d, Some k, Some p =>
      Some {| id := objectId o; target := t; description := d;
              difficulty := k; prompt := p |}
  | _, _, _, _ => None
  end.

(** ** [src/App.tsx]: tabs, practice, mount *)

Definition setActiveTab (t : Tab) (s : App) : App :=
  {| activeTab := t; currentLesson := currentLesson s;
     lessonQueue := lessonQueue s;
     appState := appState s; refImage := refImage s; feedback := feedback s;
     isAutoMode := isAutoMode s; isMicOn := isMicOn s;
     lastSpokenCommand := lastSpokenCommand s; customSentence := customSentence s;
     progress := progress s |}.

Definition setIsAutoMode (b : bool) (s : App) : App :=
  {| activeTab := activeTab s; currentLesson := currentLesson s;
     lessonQueue := lessonQueue s;
     appState := appState s; refImage := refImage s; feedback := feedback s;
     isAutoMode := b; isMicOn := isMicOn s;
     lastSpokenCommand := lastSpokenCommand s; customSentence := customSentence s;
     progress := progress s |}.

Definition setIsMicOn (b : bool) (s : App) : App :=
  {| activeTab := activeTab s; currentLesson := currentLesson s;
     lessonQueue := lessonQueue s;
     appState := appState s; refImage := refImage s; feedback := feedback s;
     isAutoMode := isAutoMode s; isMicOn := b;
     lastSpokenCommand := lastSpokenCommand s; customSentence := customSentence s;
     progress := progress s |}.

Definition handleTabChange (tab : Tab) (s : App) : App :=
  let s1 := setActiveTab tab s in
  match tab with
  | practice => setIsAutoMode false (setIsMicOn false s1)
  | classroom => s1
  end.

(** The effect that starts the first lesson: it runs when the tab or the
    reference image changed, and loads the first alphabet lesson while
    the classroom has no reference image. *)
Definition startInitialLesson (s : App) : App * list Effect :=
  match activeTab s, truthyString (refImage s), ALPHABET_LESSONS with
  | classroom, None, first :: _ => loadLesson first s
  | _, _, _ => (s, [])
  end.

Definition handleRefreshImage (s : App) : App * list Effect :=
  loadLesson (currentLesson s) s.

(** The practice tab's state. *)
Record Practice : Type := {
  practiceInput : string;
  practiceImage : option string;
  isPracticeGenerating : bool
}.

Definition practicePrompt (input : string) : string :=
  "A clear, high-quality educational infographic showing the American Sign Language (ASL) hand signs for the sentence: "
  +:+ JS.dq +:+ input +:+ JS.dq +:+
  ". The hands should be arranged sequentially to spell out or sign the words. Neutral background, photorealistic style, high contrast.".

(** [handlePracticeGenerate] up to its [await]. *)
Definition handlePracticeGenerate (p : Practice) : Practice * list Effect :=
  match JS.trim (practiceInput p) with
  | EmptyString => (p, [])
  | _ =>
      ({| practiceInput := practiceInput p; practiceImage := None;
          isPracticeGenerating := true |},
       [GenerateReferenceImage (practicePrompt (practiceInput p)) "16:9"])
  end.

(** [handlePracticeGenerate] after the image settled: the [try] stores
    the image and the [finally] clears the flag. *)
Definition handlePracticeGenerateSettled (o : outcome string) (p : Practice) : Practice :=
  {| practiceInput := practiceInput p;
     practiceImage :=
       match o with
       | Returns url => Some url
       | Throws _ => practiceImage p
       end;
     isPracticeGenerating := false |}.

Definition practiceLesson (now : Z) (input : string) : Lesson :=
  {| id := "practice-" +:+ JS.showZ now;
     target := input;
     description :=
       "Custom practice session for: " +:+ JS.dq +:+ input +:+ JS.dq +:+
       ". Mimic the signs shown in the generated guide.";
     difficulty := Conversational;
     prompt :=
       "A clear, high-quality educational infographic showing the American Sign Language (ASL) hand signs for the sentence: "
       +:+ JS.dq +:+ input +:+ JS.dq +:+ "." |}.

Definition handlePracticeInClassroom (now : Z) (p : Practice) (s : App) : App :=
  match truthyString (practiceImage p), practiceInput p with
  | Some image, String c r =>
      let customLesson := practiceLesson now (String c r) in
      handleTabChange classroom
        (setFeedback
           (feedbackResponse false
              ("Great! Let's master " +:+ JS.dq +:+ String c r +:+ JS.dq +:+
               ". I'll watch your signing and give you feedback.") None)
           (setAppState WAITING_FOR_USER
              (setLessonQueue (customLesson :: lessonQueue s)
                 (setRefImage (Some image)
                    (setCurrentLesson customLesson s)))))
  | _, _ => s
  end.

(** *** What the classroom shows *)

(** The capture button is rendered. *)
Definition captureButtonShown (s : App) : bool :=
  bool_decide (activeTab s = classroom) && negb (isAutoMode s) &&
  match appState s with
  | WAITING_FOR_USER | FEEDBACK => true
  | _ => false
  end.

(** The previous button is disabled. *)
Definition previousDisabled (s : App) : bool := currentIndex s =? 0.

(** The send button of the sentence field is disabled. *)
Definition sentenceSubmitDisabled (s : App) : bool :=
  match JS.trim (customSentence s) with
  | EmptyString => true
  | _ => false
  end.

(** The position shown as [Queue: n / m]. *)
Definition queuePosition (s : App) : Z * nat :=
  (currentIndex s + 1, length (lessonQueue s)).

(** ** [src/components/TeacherFeedback.tsx] *)

(** [feedback?.message]. *)
Definition feedbackMessage (feedback : JSON.json) : JSON.access :=
  match feedback with
  | JSON.JNull => JSON.Undefined
  | _ => JSON.prop "message" feedback
  end.

(** A truthy [feedback.message] as the component passes it on, to the
    paragraph as its child and to [SpeechSynthesisUtterance] as its
    text.  A string is shown and spoken as it is.  A value that is no
    string is kept as [OtherMessage]: React prints a number, shows
    nothing for [true], shows the items of an array and refuses an
    object with an error, while the utterance speaks the conversion of
    the value to a string; neither is embedded, and nothing is stated
    about them. *)
Inductive Message : Type :=
| TextMessage (units : list N)
| OtherMessage (v : JSON.json).

Definition messageOf (m : JSON.json) : Message :=
  match m with
  | JSON.JStr units => TextMessage units
  | _ => OtherMessage m
  end.

(** The feedback has no truthy message that is not a string. *)
Definition textMessage (feedback : JSON.json) : Prop :=
  forall m, feedbackMessage feedback = JSON.Value m -> JSON.truthy m = true ->
            exists units, m = JSON.JStr units.

(** The text-to-speech effect: the message handed to
    [SpeechSynthesisUtterance], when one is spoken. *)
Definition spokenMessage (a : AppState) (feedback : JSON.json) : option Message :=
  match feedbackMessage feedback, a with
  | JSON.Value m, (FEEDBACK | SUCCESS) =>
      if JSON.truthy m then Some (messageOf m) else None
  | _, _ => None
  end.

(** [voices.find(v => v.name.includes('Google') && v.lang.includes('en-US')) || voices[0]]
    over the voices as (name, lang) pairs. *)
Definition preferredVoice (voices : list (string * string)) : option (string * string) :=
  match List.find (fun v => JS.includes (fst v) "Google" && JS.includes (snd v) "en-US") voices with
  | Some v => Some v
  | None => head voices
  end.

(** The text of the panel. *)
Inductive PanelText : Type :=
| AnalyzingText
| MessageText (m : Message)
| ReadyText.

(** What the component renders: [None] when it returns [null]. *)
Record Panel : Type := {
  slidIn : bool;
  isSuccessStyle : bool;
  panelText : PanelText;
  retryShown : bool;
  nextShown : bool
}.

Definition TeacherFeedback (a : AppState) (feedback : JSON.json) : option Panel :=
  match a with
  | IDLE | GENERATING_REF => None
  | _ =>
      let isSuccess := bool_decide (a = SUCCESS) in
      let isAnalyzing := bool_decide (a = ANALYZING) in
      let hasFeedback := JSON.truthy feedback in
      Some
        {| slidIn := isAnalyzing || hasFeedback;
           isSuccessStyle := isSuccess;
           panelText :=
             if isAnalyzing then AnalyzingText
             else match feedbackMessage feedback with
                  | JSON.Value m =>
                      if JSON.truthy m then MessageText (messageOf m) else ReadyText
                  | _ => ReadyText
                  end;
           retryShown := negb isAnalyzing && hasFeedback && negb isSuccess;
           nextShown := negb isAnalyzing && hasFeedback && isSuccess |}
  end.

(** ** The classroom as a transition system *)

(** What can happen to the classroom: a user action, a timer, a
    recognized transcript, or the settling of an operation a handler
    started (with the values its closure captured).

    The state holds lessons at their declared type.  The lesson that
    [createLessonFromIntent] builds is not checked against it: when the
    model's answer makes [prompt] a truthy value that is no string,
    [LessonCreated] carries a lesson of the declared type in its place
    and the request for its image settles by [ImageSettledNoString],
    which can reject. *)
Inductive Event : Type :=
| InitialLessonEffect
| ClickCapture (screenshot : option string)
| AutoCaptureTick (screenshot : option string)
| Speech (transcript : string) (screenshot : option string)
| TypeSentence (text : string)
| SubmitSentence (now : nat -> Z)
| ClickNext
| ClickPrevious
| ClickRefresh
| ClickRetry
| ClickTab (tab : Tab)
| ToggleAuto
| ToggleMic
| PracticeInClassroom (now : Z) (p : Practice)
| SpokenCommandExpired
| ImageSettled (prompt : string) (reply : ImageReply)
| AnalysisSettled (lessonTarget imageSrc : string) (spokenText : option string)
    (reply : Reply) (draws : Draws)
| LessonCreated (newLesson : Lesson)
| ImageSettledNoString (reply : ImageReply).

(** The state after an event; [None] when a handler loads an undefined
    lesson. *)
Definition step (s : App) (e : Event) : option App :=
  match e with
  | InitialLessonEffect => Some (fst (startInitialLesson s))
  | ClickCapture shot => Some (fst (handleCapture shot s))
  | AutoCaptureTick shot => Some (fst (autoCaptureTick shot s))
  | Speech transcript shot => fst <$> processVoiceCommand transcript shot s
  | TypeSentence text => Some (setCustomSentence text s)
  | SubmitSentence now => Some (fst (handleSentenceSubmit now s))
  | ClickNext => fst <$> handleNext s
  | ClickPrevious => fst <$> handlePrevious s
  | ClickRefresh => Some (fst (handleRefreshImage s))
  | ClickRetry => Some (handleRetry s)
  | ClickTab tab => Some (handleTabChange tab s)
  | ToggleAuto => Some (setIsAutoMode (negb (isAutoMode s)) s)
  | ToggleMic => Some (setIsMicOn (negb (isMicOn s)) s)
  | PracticeInClassroom now p => Some (handlePracticeInClassroom now p s)
  | SpokenCommandExpired => Some (setLastSpokenCommand None s)
  | ImageSettled prompt reply =>
      Some (loadLessonSettled (generateReferenceImage prompt "1:1" reply) s)
  | AnalysisSettled t i q reply draws =>
      Some (performAnalysisSettled t (analyzeHandShape t i q reply draws) s)
  | LessonCreated newLesson => Some (fst (createLessonSettled (Returns newLesson) s))
  | ImageSettledNoString reply =>
      Some (loadLessonSettled (generateReferenceImageNoString reply) s)
  end.

(** The states the classroom can be in, started with a progress record
    [saved]. *)
Inductive reachable (saved : StudentProgress) : App -> Prop :=
| reachable_initial : reachable saved (initialApp saved)
| reachable_step s e s' :
    reachable saved s -> step s e = Some s' -> reachable saved s'.

(** ** [useProgress]: saving the progress

    The hook's effect runs after every change of [progress] and stores
    [JSON.stringify(progress)] under the key the initializer reads.
    The record holds two numbers, a [Difficulty] and an array of
    strings, so [SerializeJSONProperty] is embedded for those. *)

(** A hexadecimal digit of [UnicodeEscape], in lower case. *)
Definition hexDigit (n : N) : ascii :=
  ascii_of_N (if (n <? 10)%N then 48 + n else 87 + n).

Definition escaped (c : ascii) : list ascii := ["\"%char; c].

(** [QuoteJSONString] on one code unit in 0..255. *)
Definition quoteUnit (c : ascii) : list ascii :=
  let n := JS.code c in
  if (n =? 8)%N then escaped "b"
  else if (n =? 9)%N then escaped "t"
  else if (n =? 10)%N then escaped "n"
  else if (n =? 12)%N then escaped "f"
  else if (n =? 13)%N then escaped "r"
  else if (n =? 34)%N then escaped JSON.quote
  else if (n =? 92)%N then escaped "\"
  else if (n <? 32)%N then
    escaped "u" ++ list_ascii_of_string "00" ++ [hexDigit (n / 16); hexDigit (n mod 16)]
  else [c].

Definition quoteJSONString (s : string) : list ascii :=
  JSON.quote :: flat_map quoteUnit (list_ascii_of_string s) ++ [JSON.quote].

(** [Number::toString] on a safe integer: its decimal digits, no
    exponent. *)
Definition stringifyNumber (z : Z) : list ascii := list_ascii_of_string (JS.showZ z).

Fixpoint commaSeparated (items : list (list ascii)) : list ascii :=
  match items with
  | [] => []
  | [x] => x
  | x :: rest => x ++ ","%char :: commaSeparated rest
  end.

Definition stringifyArray (items : list (list ascii)) : list ascii :=
  "["%char :: commaSeparated items ++ ["]"%char].

Definition stringifyMember (member : string * list ascii) : list ascii :=
  quoteJSONString (fst member) ++ ":"%char :: snd member.

Definition stringifyObject (members : list (string * list ascii)) : list ascii :=
  "{"%char :: commaSeparated (map stringifyMember members) ++ ["}"%char].

(** [JSON.stringify(progress)] for a progress record. *)
Definition stringifyProgress (p : StudentProgress) : string :=
  string_of_list_ascii
    (stringifyObject
       [("xp", stringifyNumber (xp p));
        ("level", quoteJSONString (difficultyName (level p)));
        ("streakDays", stringifyNumber (streakDays p));
        ("learnedSigns", stringifyArray (map quoteJSONString (learnedSigns p)))]).

(** What [localStorage.getItem('signsynth-progress')] returns once the
    effect has run for [p]. *)
Definition save (p : StudentProgress) : option string := Some (stringifyProgress p).

(** * Verification *)

(** ** The parser stays within its budget *)

Section ParserBudget.

Import JSON.

Implicit Types (s r : list ascii) (f n : nat).

Lemma skipWs_length s : (length (skipWs s) <= length s)%nat.
Proof.
  induction s as [| c s IH]; simpl; [lia |].
  destruct (isWs c); simpl; lia.
Qed.

Lemma headIs_length c s r : headIs c s = Some r -> (length r < length s)%nat.
Proof.
  destruct s as [| c' s]; simpl; [discriminate |].
  destruct (Ascii.eqb c' c); [| discriminate]. intros [= ->]. lia.
Qed.

Lemma headIs_skipWs_length c s r :
  headIs c (skipWs s) = Some r -> (length r < length s)%nat.
Proof.
  intros H. apply headIs_length in H. pose proof (skipWs_length s). lia.
Qed.

Lemma expect_length lit s r : expect lit s = Some r -> (length r <= length s)%nat.
Proof.
  revert s. induction lit as [| l lit IH]; intros s; simpl.
  - intros [= ->]. lia.
  - destruct (headIs l s) as [s' |] eqn:E; [| discriminate].
    intros H. apply IH in H. apply headIs_length in E. lia.
Qed.

Lemma keyword_length lit v s v' r :
  lit <> EmptyString -> keyword lit v s = POk v' r -> (length r < length s)%nat.
Proof.
  unfold keyword. destruct lit as [| l lit]; [congruence | intros _].
  cbn [list_ascii_of_string expect].
  destruct (headIs l s) as [s' |] eqn:E; [| discriminate].
  destruct (expect _ s') as [r' |] eqn:E'; [| discriminate].
  intros [= _ <-]. apply headIs_length in E. apply expect_length in E'. lia.
Qed.

Lemma keyword_no_fuel lit v s : keyword lit v s <> PFuel.
Proof. unfold keyword. now destruct (expect _ s). Qed.

Lemma digits_length acc k s v k' r :
  digits acc k s = (v, k', r) -> (length r <= length s)%nat.
Proof.
  revert acc k. induction s as [| c s IH]; intros acc k; simpl.
  - intros [= <- <- <-]. simpl. lia.
  - destruct (JS.isDigit c).
    + intros H. apply IH in H. lia.
    + intros [= <- <- <-]. simpl. lia.
Qed.

Lemma intPart_length s v r : intPart s = Some (v, r) -> (length r < length s)%nat.
Proof.
  destruct s as [| c s]; simpl; [discriminate |].
  destruct (Ascii.eqb c "0"); [intros [= <- <-]; lia |].
  destruct (JS.isDigit c); [| discriminate].
  destruct (digits (digitVal c) 1 s) as [[v' k] r'] eqn:E.
  intros [= <- <-]. apply digits_length in E. lia.
Qed.

Lemma fracPart_length m s v k r :
  fracPart m s = Some (v, k, r) -> (length r <= length s)%nat.
Proof.
  unfold fracPart. destruct (headIs "." s) as [s' |] eqn:E.
  - destruct (digits m 0 s') as [[v' k'] r'] eqn:Ed.
    destruct (k' =? 0)%Z; [discriminate |]. intros [= <- <- <-].
    apply headIs_length in E. apply digits_length in Ed. lia.
  - intros [= <- <- <-]. lia.
Qed.

Lemma expDigits_length sign s v r :
  expDigits sign s = Some (v, r) -> (length r <= length s)%nat.
Proof.
  unfold expDigits. destruct (digits 0 0 s) as [[v' k'] r'] eqn:Ed.
  destruct (k' =? 0)%Z; [discriminate |]. intros [= <- <-].
  now apply digits_length in Ed.
Qed.

Lemma expPart_length s v r : expPart s = Some (v, r) -> (length r <= length s)%nat.
Proof.
  destruct s as [| c s]; simpl; [intros [= <- <-]; simpl; lia |].
  destruct (Ascii.eqb c "e" || Ascii.eqb c "E"); [| intros [= <- <-]; simpl; lia].
  destruct (headIs "+" s) as [s1 |] eqn:E1; [| destruct (headIs "-" s) as [s2 |] eqn:E2].
  all: intros H; apply expDigits_length in H.
  - apply headIs_length in E1. lia.
  - apply headIs_length in E2. lia.
  - lia.
Qed.

Lemma parseNumber_no_fuel s : parseNumber s <> PFuel.
Proof.
  unfold parseNumber. destruct (headIs "-" s) as [r |].
  all: destruct (intPart _) as [[i s2] |]; [| discriminate].
  all: destruct (fracPart i s2) as [[[m k] s3] |]; [| discriminate].
  all: now destruct (expPart s3) as [[e s4] |].
Qed.

Lemma parseNumber_length s v r : parseNumber s = POk v r -> (length r < length s)%nat.
Proof.
  unfold parseNumber.
  assert (Hgen : forall sign s1, (length s1 <= length s)%nat ->
            match intPart s1 with
            | Some (i, s2) =>
                match fracPart i s2 with
                | Some (m, fracLen, s3) =>
                    match expPart s3 with
                    | Some (e, s4) => POk (JNum (sign * m) (e - fracLen)) s4
                    | None => PErr
                    end
                | None => PErr
                end
            | None => PErr
            end = POk v r -> (length r < length s)%nat).
  { intros sign s1 Hle.
    destruct (intPart s1) as [[i s2] |] eqn:Ei; [| discriminate].
    destruct (fracPart i s2) as [[[m k] s3] |] eqn:Ef; [| discriminate].
    destruct (expPart s3) as [[e s4] |] eqn:Ee; [| discriminate].
    intros [= _ <-]. apply intPart_length in Ei. apply fracPart_length in Ef.
    apply expPart_length in Ee. lia. }
  destruct (headIs "-" s) as [s1 |] eqn:E.
  - apply Hgen. apply headIs_length in E. lia.
  - now apply Hgen.
Qed.

Lemma escape_length s u r : escape s = Some (u, r) -> (length r < length s)%nat.
Proof.
  destruct s as [| e s]; simpl; [discriminate |].
  destruct (Ascii.eqb e "u").
  - destruct s as [| h1 [| h2 [| h3 [| h4 r']]]]; try discriminate.
    destruct (hex4 h1 h2 h3 h4); [| discriminate]. intros [= _ <-]. simpl. lia.
  - destruct (escapeUnit e); [| discriminate]. intros [= _ <-]. lia.
Qed.

Lemma stringBodyIn_length n s us r :
  stringBodyIn n s = Some (us, r) -> (length r < length s)%nat.
Proof.
  revert s us r. induction n as [| n IH]; intros s us r; [now destruct s |].
  destruct s as [| c s]; [discriminate |]. simpl.
  destruct (Ascii.eqb c quote); [intros [= _ <-]; lia |].
  destruct (Ascii.eqb c "\").
  - destruct (escape s) as [[u r'] |] eqn:Ee; [| discriminate].
    destruct (stringBodyIn n r') as [[us0 rest] |] eqn:E; [| discriminate].
    intros [= _ <-]. apply IH in E. apply escape_length in Ee. lia.
  - destruct (JS.code c <? 32)%N; [discriminate |].
    destruct (stringBodyIn n s) as [[us0 rest] |] eqn:E; [| discriminate].
    intros [= _ <-]. apply IH in E. lia.
Qed.

(** The length of the input is budget enough for a string literal:
    any budget at least as large reads the same. *)
Lemma stringBodyIn_stable n m s :
  (length s <= n)%nat -> (length s <= m)%nat -> stringBodyIn n s = stringBodyIn m s.
Proof.
  revert m s. induction n as [| n IH]; intros m s Hn Hm.
  - destruct s; [now destruct m | simpl in Hn; lia].
  - destruct s as [| c s]; [now destruct m |].
    destruct m as [| m]; [simpl in Hm; lia |]. simpl in *.
    destruct (Ascii.eqb c quote); [reflexivity |].
    destruct (Ascii.eqb c "\").
    + destruct (escape s) as [[u r'] |] eqn:Ee; [| reflexivity].
      apply escape_length in Ee. now rewrite (IH m r') by lia.
    + destruct (JS.code c <? 32)%N; [reflexivity |]. now rewrite (IH m s) by lia.
Qed.

Lemma stringBody_length s us r : stringBody s = Some (us, r) -> (length r < length s)%nat.
Proof. apply stringBodyIn_length. Qed.

Ltac budget_lengths :=
  repeat match goal with
         | H : headIs _ (skipWs _) = Some _ |- _ => apply headIs_skipWs_length in H
         | H : headIs _ _ = Some _ |- _ => apply headIs_length in H
         | H : stringBody _ = Some _ |- _ => apply stringBody_length in H
         | H : keyword _ _ _ = POk _ _ |- _ => apply keyword_length in H; [| discriminate]
         | H : parseNumber _ = POk _ _ |- _ => apply parseNumber_length in H
         end.

Definition within (p : pres json) (s : list ascii) : Prop :=
  p <> PFuel /\ forall v r, p = POk v r -> (length r < length s)%nat.

Lemma within_weaken p s s' :
  (length s <= length s')%nat -> within p s -> within p s'.
Proof.
  intros Hle [Hf Hl]. split; [assumption |].
  intros v r H. apply Hl in H. lia.
Qed.

Lemma within_err s : within PErr s.
Proof. split; discriminate. Qed.

Lemma within_ok v r s : (length r < length s)%nat -> within (POk v r) s.
Proof. intros H. split; [discriminate |]. now intros ? ? [= _ <-]. Qed.

Lemma parsers_within_budget f :
  (forall s, (2 * length s < f)%nat -> within (parseValue f s) s) /\
  (forall s acc, (2 * length s + 1 < f)%nat -> within (parseElems f s acc) s) /\
  (forall s acc, (2 * length s + 1 < f)%nat -> within (parseMembers f s acc) s).
Proof.
  induction f as [| f (IHv & IHe & IHm)]; [repeat split; intros; lia |].
  repeat apply conj.
  - intros s Hf. cbn [parseValue].
    pose proof (skipWs_length s) as Hws.
    destruct (skipWs s) as [| c r] eqn:Es; [apply within_err |].
    simpl in Hws. apply (within_weaken _ (c :: r)); [simpl; lia |].
    repeat match goal with
           | |- within (if ?b then _ else _) _ => destruct b
           end.
    + split; [apply keyword_no_fuel | intros v r' H; budget_lengths; assumption].
    + split; [apply keyword_no_fuel | intros v r' H; budget_lengths; assumption].
    + split; [apply keyword_no_fuel | intros v r' H; budget_lengths; assumption].
    + destruct (stringBody r) as [[us rest] |] eqn:E; [| apply within_err].
      budget_lengths. apply within_ok. simpl. lia.
    + destruct (headIs "]" (skipWs r)) as [rest |] eqn:E.
      * budget_lengths. apply within_ok. simpl. lia.
      * apply (within_weaken _ r); [simpl; lia |]. apply IHe. lia.
    + destruct (headIs "}" (skipWs r)) as [rest |] eqn:E.
      * budget_lengths. apply within_ok. simpl. lia.
      * apply (within_weaken _ r); [simpl; lia |]. apply IHm. lia.
    + split; [apply parseNumber_no_fuel | intros v r' H; budget_lengths; assumption].
    + apply within_err.
  - intros s acc Hf. cbn [parseElems].
    destruct (IHv s ltac:(lia)) as [Hfuel Hlen].
    destruct (parseValue f s) as [v r | |] eqn:E; [| apply within_err | congruence].
    specialize (Hlen v r eq_refl).
    destruct (headIs "," (skipWs r)) as [r' |] eqn:Ec.
    + budget_lengths. apply (within_weaken _ r'); [lia |]. apply IHe. lia.
    + destruct (headIs "]" (skipWs r)) as [r' |] eqn:Eb; [| apply within_err].
      budget_lengths. apply within_ok. lia.
  - intros s acc Hf. cbn [parseMembers].
    destruct (headIs quote (skipWs s)) as [r |] eqn:Eq; [| apply within_err].
    destruct (stringBody r) as [[k r1] |] eqn:Ek; [| apply within_err].
    destruct (headIs ":" (skipWs r1)) as [r2 |] eqn:Ecol; [| apply within_err].
    budget_lengths.
    destruct (IHv r2 ltac:(lia)) as [Hfuel Hlen].
    destruct (parseValue f r2) as [v r3 | |] eqn:E; [| apply within_err | congruence].
    specialize (Hlen v r3 eq_refl).
    destruct (headIs "," (skipWs r3)) as [r4 |] eqn:Ec.
    + budget_lengths. apply (within_weaken _ r4); [lia |]. apply IHm. lia.
    + destruct (headIs "}" (skipWs r3)) as [r4 |] eqn:Eb; [| apply within_err].
      budget_lengths. apply within_ok. lia.
Qed.

(** [parse] never gives up for want of budget: its [None] is a syntax
    error. *)
Lemma parse_within_budget (text : string) :
  parseValue (budget (list_ascii_of_string text)) (list_ascii_of_string text) <> PFuel.
Proof.
  apply (proj1 (parsers_within_budget _)). unfold budget. lia.
Qed.

End ParserBudget.

(** ** The progress store *)

Section ProgressStore.

Implicit Types (p : StudentProgress) (s : string) (m n : Z).

Lemma arrayIncludes_In (l : list string) s :
  arrayIncludes l s = true <-> In s l.
Proof.
  unfold arrayIncludes. rewrite existsb_exists. split.
  - intros (y & Hy & He). apply String.eqb_eq in He. now subst.
  - intros H. exists s. split; [assumption | apply String.eqb_refl].
Qed.

Lemma arrayIncludes_app (l : list string) s :
  arrayIncludes (l ++ [s]) s = true.
Proof. apply arrayIncludes_In, in_or_app. right. now left. Qed.

Lemma markLearned_present p s :
  arrayIncludes (learnedSigns p) s = true -> markLearned s p = p.
Proof. unfold markLearned. now intros ->. Qed.

Lemma markLearned_absent p s :
  arrayIncludes (learnedSigns p) s = false ->
  learnedSigns (markLearned s p) = learnedSigns p ++ [s].
Proof. unfold markLearned. now intros ->. Qed.

Lemma markLearned_includes p s :
  arrayIncludes (learnedSigns (markLearned s p)) s = true.
Proof.
  destruct (arrayIncludes (learnedSigns p) s) eqn:E.
  - now rewrite markLearned_present.
  - rewrite markLearned_absent by assumption. apply arrayIncludes_app.
Qed.

Lemma markLearned_NoDup p s :
  NoDup (learnedSigns p) -> NoDup (learnedSigns (markLearned s p)).
Proof.
  intros Hnd. destruct (arrayIncludes (learnedSigns p) s) eqn:E.
  - now rewrite markLearned_present.
  - rewrite markLearned_absent by assumption.
    apply NoDup_app. repeat split.
    + assumption.
    + intros x Hx Hs. apply list_elem_of_singleton in Hs. subst x.
      apply list_elem_of_In, arrayIncludes_In in Hx. congruence.
    + apply NoDup_singleton.
Qed.

Lemma markLearned_xp p s : xp (markLearned s p) = xp p.
Proof. unfold markLearned. now destruct (arrayIncludes _ _). Qed.

Lemma addXP_learnedSigns p n : learnedSigns (addXP n p) = learnedSigns p.
Proof. reflexivity. Qed.

Lemma applyOps_snoc ops op p :
  applyOps (ops ++ [op]) p = applyOp (applyOps ops p) op.
Proof. unfold applyOps. now rewrite fold_left_app. Qed.

(** From the default record no run of store mutations produces a
    repeated sign. *)
Lemma applyOps_NoDup ops :
  NoDup (learnedSigns (applyOps ops INITIAL_PROGRESS)).
Proof.
  induction ops as [| op ops IH] using rev_ind.
  - constructor.
  - rewrite applyOps_snoc. destruct op as [n | s]; simpl.
    + assumption.
    + now apply markLearned_NoDup.
Qed.

Lemma safeInteger_bounds (z : Z) :
  safeInteger z <-> -9007199254740991 <= z <= 9007199254740991.
Proof. unfold safeInteger. change (2 ^ 53 - 1) with 9007199254740991. lia. Qed.

(** On safe integers the sum of doubles is the sum of integers. *)
Lemma numberAdd_exact (x y : Z) : safeInteger (x + y) -> numberAdd x y = x + y.
Proof.
  intros H. apply safeInteger_bounds in H. unfold numberAdd, roundToDouble. cbv zeta.
  assert (Hlog : Z.log2 (Z.abs (x + y)) - 52 <= 0).
  { destruct (Z.eq_dec (Z.abs (x + y)) 0) as [-> | Hne]; [cbn; lia |].
    assert (Z.log2 (Z.abs (x + y)) < 53); [| lia].
    apply Z.log2_lt_pow2; [lia |].
    change (2 ^ 53) with 9007199254740992. lia. }
  apply Z.leb_le in Hlog. now rewrite Hlog.
Qed.

Lemma addXP_xp_exact (p : StudentProgress) (n : Z) :
  safeInteger (xp p + n) -> xp (addXP n p) = xp p + n.
Proof. intros H. cbn [addXP xp]. now apply numberAdd_exact. Qed.



End ProgressStore.




(** C9. [markLearned] is idempotent: a second call with the same sign
    returns the record of the first call, so the learned list is no
    longer; a call with a sign already present returns the record it was
    given; the call never introduces a repetition, and no run of store
    mutations from the default record yields a list with a repeated
    sign. *)
Theorem markLearned_idempotent (p : StudentProgress) (s : string) :
  markLearned s (markLearned s p) = markLearned s p /\
  (length (learnedSigns (markLearned s (markLearned s p)))
     <= length (learnedSigns (markLearned s p)))%nat /\
  (In s (learnedSigns p) -> markLearned s p = p) /\
  In s (learnedSigns (markLearned s p)) /\
  (NoDup (learnedSigns p) -> NoDup (learnedSigns (markLearned s p))) /\
  (forall ops, NoDup (learnedSigns (applyOps ops INITIAL_PROGRESS))).
Proof.
  assert (Hidem : markLearned s (markLearned s p) = markLearned s p)
    by (apply markLearned_present, markLearned_includes).
  repeat split.
  - exact Hidem.
  - rewrite Hidem. lia.
  - intros Hin. now apply markLearned_present, arrayIncludes_In.
  - apply arrayIncludes_In, markLearned_includes.
  - apply markLearned_NoDup.
  - apply applyOps_NoDup.
Qed.

Lemma markLearned_idempotent_witness :
  markLearned "A" (markLearned "A" INITIAL_PROGRESS) = markLearned "A" INITIAL_PROGRESS /\
  learnedSigns (markLearned "A" (markLearned "A" INITIAL_PROGRESS)) = ["A"].
Proof.
  split.
  - exact (proj1 (markLearned_idempotent INITIAL_PROGRESS "A")).
  - reflexivity.
Defined.

(** ** Loading the progress record *)

Lemma load_default_when_absent_or_empty (saved : option string) :
  saved = None \/ saved = Some EmptyString ->
  load saved = Returns (progressObject INITIAL_PROGRESS).
Proof. now intros [-> | ->]. Qed.

Lemma load_parsed (text : string) (v : JSON.json) :
  text <> EmptyString -> JSON.parse text = Some v -> load (Some text) = Returns v.
Proof.
  intros Hne Hparse. unfold load.
  destruct text as [| c r]; [congruence |]. now rewrite Hparse.
Qed.

Lemma load_unparseable (text : string) :
  text <> EmptyString -> JSON.parse text = None -> load (Some text) = Throws SyntaxError.
Proof.
  intros Hne Hparse. unfold load.
  destruct text as [| c r]; [congruence |]. now rewrite Hparse.
Qed.

(** C2, as the code has it.  [load] returns the default record (zero
    XP, Beginner, a streak of one day, no learned sign) when no record
    is stored or the stored text is empty, and returns the parsed value
    when the stored text is not empty and parses. *)
Theorem load_default_or_stored (saved : option string) :
  INITIAL_PROGRESS =
    {| xp := 0; level := Beginner; streakDays := 1; learnedSigns := [] |} /\
  (saved = None \/ saved = Some EmptyString ->
   load saved = Returns (progressObject INITIAL_PROGRESS)) /\
  (forall text v,
     saved = Some text -> text <> EmptyString -> JSON.parse text = Some v ->
     load saved = Returns v).
Proof.
  split; [reflexivity |]. split.
  - apply load_default_when_absent_or_empty.
  - intros text v -> Hne Hparse. now apply load_parsed.
Qed.

Lemma load_default_or_stored_witness :
  load None = Returns (progressObject INITIAL_PROGRESS) /\
  load (Some "[1, 2]") = Returns (JSON.JArr [JSON.JNum 1 0; JSON.JNum 2 0]).
Proof.
  split.
  - apply (proj1 (proj2 (load_default_or_stored None))). now left.
  - refine (proj2 (proj2 (load_default_or_stored (Some "[1, 2]")))
              "[1, 2]" (JSON.JArr [JSON.JNum 1 0; JSON.JNum 2 0]) eq_refl _ eq_refl).
    discriminate.
Defined.

(** C2 as stated fails: a stored text that is not JSON makes [load]
    raise the [SyntaxError] of [JSON.parse] instead of returning the
    default record. *)
Lemma load_unparseable_record_throws :
  JSON.parse "{xp: 120" = None /\
  load (Some "{xp: 120") = Throws SyntaxError /\
  load (Some "{xp: 120") <> Returns (progressObject INITIAL_PROGRESS).
Proof. split; [reflexivity | split; [reflexivity | discriminate]]. Qed.

(** ** [analyzeHandShape] *)

Lemma responseText_primaryPath (rtext : option string) :
  primaryPath (Response rtext) =
  match JSON.parse (responseText rtext) with
  | Some v => Returns v
  | None => Throws SyntaxError
  end.
Proof. now destruct rtext as [[| c r] |]. Qed.

Lemma PrimaryThrows_iff (reply : Reply) :
  PrimaryThrows reply <-> exists e, primaryPath reply = Throws e.
Proof.
  split.
  - intros [| e | rtext Hparse].
    + eexists; reflexivity.
    + exists e; reflexivity.
    + exists SyntaxError. now rewrite responseText_primaryPath, Hparse.
  - intros [e He]. destruct reply as [| e' | rtext]; try constructor.
    rewrite responseText_primaryPath in He.
    now destruct (JSON.parse (responseText rtext)).
Qed.

Lemma analyzeHandShape_fallback (target image : string) (spoken : option string)
    (reply : Reply) (draws : Draws) :
  PrimaryThrows reply ->
  analyzeHandShape target image spoken reply draws =
  Returns (mockFallback target spoken draws).
Proof.
  intros H. apply PrimaryThrows_iff in H as [e He].
  unfold analyzeHandShape. now rewrite He.
Qed.

Lemma analyzeHandShape_returns (target image : string) (spoken : option string)
    (reply : Reply) (draws : Draws) :
  exists v, analyzeHandShape target image spoken reply draws = Returns v.
Proof. unfold analyzeHandShape. destruct (primaryPath reply); eauto. Qed.

Lemma mockFallback_wellformed (target : string) (spoken : option string)
    (draws : Draws) :
  isFeedbackResponse (mockFallback target spoken draws) = true /\
  hasNonEmptyMessage (mockFallback target spoken draws) = true.
Proof.
  destruct draws as [[] []], spoken as [[| c q] |]; split; vm_compute; reflexivity.
Qed.

(** The fallback for a spoken question (a non-empty string). *)
Lemma mockFallback_question (target : string) (c : ascii) (q : string)
    (draws : Draws) :
  mockFallback target (Some (String c q)) draws =
  feedbackResponse false
    ("I heard you ask: " +:+ JS.dq +:+ String c q +:+ JS.dq +:+
     ". Based on the image, your index finger looks good, but check your thumb placement.")
    (Some ("photorealistic hand signing ASL letter " +:+ target)).
Proof. reflexivity. Qed.

Lemma analyzeHandShape_passes_parsed (target image : string)
    (spoken : option string) (rtext : option string) (draws : Draws)
    (v : JSON.json) :
  JSON.parse (responseText rtext) = Some v ->
  analyzeHandShape target image spoken (Response rtext) draws = Returns v.
Proof.
  intros H. unfold analyzeHandShape. now rewrite responseText_primaryPath, H.
Qed.

(** A response of the requested shape is returned as the model wrote
    it. *)
Example analyzeHandShape_wellformed_response :
  let text :=
    "{" +:+ JS.dq +:+ "success" +:+ JS.dq +:+ ": true, "
        +:+ JS.dq +:+ "message" +:+ JS.dq +:+ ": "
        +:+ JS.dq +:+ "Nice thumb!" +:+ JS.dq +:+ "}" in
  analyzeHandShape "A" "data:image/jpeg;base64,AAAA" None (Response (Some text))
    {| isSuccess := false; errorSlot := Slot0 |}
  = Returns (feedbackResponse true "Nice thumb!" None).
Proof. reflexivity. Qed.

(** C1, as the code has it.  [analyzeHandShape] never rejects; and
    whenever its primary path throws (no client for want of an API key,
    a failed request, or a response text that is not JSON) it resolves
    with the locally built fallback, an object of the [FeedbackResponse]
    shape with a boolean [success] and a non-empty [message]. *)
Theorem analyzeHandShape_falls_back_when_primary_throws
    (target image : string) (spoken : option string) (reply : Reply)
    (draws : Draws) :
  (exists v, analyzeHandShape target image spoken reply draws = Returns v) /\
  (PrimaryThrows reply ->
   analyzeHandShape target image spoken reply draws
     = Returns (mockFallback target spoken draws) /\
   isFeedbackResponse (mockFallback target spoken draws) = true /\
   hasNonEmptyMessage (mockFallback target spoken draws) = true).
Proof.
  split.
  - apply analyzeHandShape_returns.
  - intros H. split.
    + now apply analyzeHandShape_fallback.
    + apply mockFallback_wellformed.
Qed.

Lemma analyzeHandShape_falls_back_when_primary_throws_witness :
  analyzeHandShape "A" "data:image/jpeg;base64,AAAA" None NoClient
    {| isSuccess := true; errorSlot := Slot0 |}
  = Returns
      (feedbackResponse true
         "Excellent! Your shape for 'A' looks perfect based on our simulation."
         None) /\
  PrimaryThrows (Response (Some "{success: true}")).
Proof.
  split.
  - exact (proj1 (proj2 (analyzeHandShape_falls_back_when_primary_throws
                           "A" "data:image/jpeg;base64,AAAA" None NoClient
                           {| isSuccess := true; errorSlot := Slot0 |})
                    missing_credentials)).
  - constructor. reflexivity.
Defined.

(** C1 as stated fails on responses that are JSON of another shape: an
    absent response text is read as [{}] and an array parses too; both
    are returned as parsed, without a [success] or a [message]. *)
Lemma analyzeHandShape_returns_shapeless_json :
  analyzeHandShape "A" "data:image/jpeg;base64,AAAA" None (Response None)
    {| isSuccess := true; errorSlot := Slot0 |}
  = Returns (JSON.JObj []) /\
  isFeedbackResponse (JSON.JObj []) = false /\
  hasNonEmptyMessage (JSON.JObj []) = false /\
  analyzeHandShape "A" "data:image/jpeg;base64,AAAA" None (Response (Some "[true]"))
    {| isSuccess := false; errorSlot := Slot1 |}
  = Returns (JSON.JArr [JSON.JBool true]) /\
  isFeedbackResponse (JSON.JArr [JSON.JBool true]) = false.
Proof. repeat split; reflexivity. Qed.

(** ** Frame submission *)

Section Submission.

Implicit Types (s : App) (r : App * list Effect).

Definition busy (a : AppState) : Prop := a = ANALYZING \/ a = GENERATING_REF.

Lemma performAnalysis_busy s imageSrc spoken :
  busy (appState s) -> performAnalysis imageSrc spoken s = (s, []).
Proof. unfold performAnalysis. now intros [-> | ->]. Qed.

Lemma performAnalysis_accepted s imageSrc spoken :
  ~ busy (appState s) ->
  performAnalysis imageSrc spoken s =
  (setFeedback JSON.JNull (setAppState ANALYZING s),
   [AnalyzeHandShape (target (currentLesson s)) imageSrc spoken]).
Proof.
  unfold performAnalysis, busy. intros Hfree.
  destruct (appState s); try reflexivity; exfalso; apply Hfree; auto.
Qed.

Lemma busy_rejects_capture s : busy (appState s) -> acceptsCapture (appState s) = false.
Proof. now intros [-> | ->]. Qed.

(** The if-chain of [processVoiceCommand] is the rule list of the
    interpreter, read in order. *)
Lemma processVoiceCommand_perform (transcript : string) (shot : option string) s :
  processVoiceCommand transcript shot s =
  heard <$> perform (interpret transcript) transcript shot
              (setLastSpokenCommand (Some transcript) s).
Proof.
  unfold processVoiceCommand, interpret, voiceRules.
  cbn [firstMatch mentions existsb].
  rewrite !orb_false_r, !orb_assoc.
  repeat match goal with
         | |- context [if ?b then _ else _] => destruct b; [reflexivity |]
         end.
  cbn [perform]. now destruct (truthyString shot).
Qed.

Lemma firstMatch_priority (lower : string) rules (k : nat) kws a :
  rules !! k = Some (kws, a) ->
  mentions lower kws = true ->
  (forall j kws' a', (j < k)%nat -> rules !! j = Some (kws', a') ->
                     mentions lower kws' = false) ->
  firstMatch lower rules = a.
Proof.
  revert k. induction rules as [| [kws0 a0] rules IH]; intros k Hk Hm Hbefore.
  - discriminate.
  - destruct k as [| k]; simpl in *.
    + injection Hk as -> ->. now rewrite Hm.
    + rewrite (Hbefore 0%nat kws0 a0) by (lia || reflexivity).
      apply (IH k); [assumption | assumption |].
      intros j kws' a' Hj Hlook. apply (Hbefore (S j) kws' a'); [lia | exact Hlook].
Qed.

Lemma firstMatch_default (lower : string) rules :
  (forall kws a, In (kws, a) rules -> mentions lower kws = false) ->
  firstMatch lower rules = SpokenQuestion.
Proof.
  induction rules as [| [kws0 a0] rules IH]; intros Hnone; simpl.
  - reflexivity.
  - rewrite (Hnone kws0 a0) by now left.
    apply IH. intros kws a Hin. apply (Hnone kws a). now right.
Qed.

Lemma lowerChar_idempotent (c : ascii) : JS.lowerChar (JS.lowerChar c) = JS.lowerChar c.
Proof. destruct c as [[] [] [] [] [] [] [] []]; reflexivity. Qed.

Lemma toLowerCase_idempotent (t : string) :
  JS.toLowerCase (JS.toLowerCase t) = JS.toLowerCase t.
Proof.
  induction t as [| c t IH]; simpl; [reflexivity |].
  now rewrite lowerChar_idempotent, IH.
Qed.

(** A spoken question, once routed, changes only the remembered
    transcript before it reaches [performAnalysis]. *)
Lemma processVoiceCommand_question (transcript : string) (shot : option string) s :
  interpret transcript = SpokenQuestion ->
  processVoiceCommand transcript shot s =
  Some (heard
          (match truthyString shot with
           | Some imageSrc =>
               performAnalysis imageSrc (Some transcript)
                 (setLastSpokenCommand (Some transcript) s)
           | None => (setLastSpokenCommand (Some transcript) s, [])
           end)).
Proof. intros H. rewrite processVoiceCommand_perform, H. reflexivity. Qed.

End Submission.

(** C3. While the state is [ANALYZING] or [GENERATING_REF] a frame
    submission does nothing: manual capture and the auto-capture
    callback return the state unchanged and start no operation (the
    auto-capture timer is not even armed), [performAnalysis] itself
    returns at its guard, and a transcript routed as a spoken question
    only records the transcript: state, feedback and progress stay as
    they were and no analysis is started.  The guard is on the state:
    it holds a second submission back for as long as the state stays
    [ANALYZING] or [GENERATING_REF], which is not as long as an
    analysis is pending. *)
Theorem submission_is_noop_while_busy (s : App) :
  appState s = ANALYZING \/ appState s = GENERATING_REF ->
  (forall shot, handleCapture shot s = (s, [])) /\
  autoCaptureArmed s = false /\
  (forall shot, autoCaptureTick shot s = (s, [])) /\
  (forall imageSrc spoken, performAnalysis imageSrc spoken s = (s, [])) /\
  (forall transcript shot,
     interpret transcript = SpokenQuestion ->
     exists s',
       processVoiceCommand transcript shot s = Some (s', [ClearLastSpokenCommand 3000]) /\
       s' = setLastSpokenCommand (Some transcript) s /\
       appState s' = appState s /\ feedback s' = feedback s /\
       progress s' = progress s /\ currentLesson s' = currentLesson s /\
       lessonQueue s' = lessonQueue s).
Proof.
  intros Hbusy. fold (busy (appState s)) in Hbusy.
  assert (Hrej := busy_rejects_capture s Hbusy).
  repeat apply conj.
  - intros shot. unfold handleCapture. now rewrite Hrej.
  - unfold autoCaptureArmed. rewrite Hrej. now rewrite andb_false_r.
  - intros shot. unfold autoCaptureTick.
    destruct (truthyString shot); [now apply performAnalysis_busy | reflexivity].
  - intros imageSrc spoken. now apply performAnalysis_busy.
  - intros transcript shot Hq.
    exists (setLastSpokenCommand (Some transcript) s).
    rewrite (processVoiceCommand_question _ _ _ Hq).
    repeat apply conj; try reflexivity.
    destruct (truthyString shot); [| reflexivity].
    now rewrite performAnalysis_busy.
Qed.

Lemma submission_is_noop_while_busy_witness :
  handleCapture (Some "data:image/jpeg;base64,AAAA")
    (setAppState ANALYZING (initialApp INITIAL_PROGRESS))
  = (setAppState ANALYZING (initialApp INITIAL_PROGRESS), []).
Proof.
  apply (proj1 (submission_is_noop_while_busy
                  (setAppState ANALYZING (initialApp INITIAL_PROGRESS))
                  (or_introl eq_refl))).
Defined.

(** The guard reads the state, not whether an analysis is pending.
    Capture a frame of the first lesson, press next, let the image of
    the second lesson arrive and capture again: the second analysis is
    started although the first has not settled, so a second submission
    does start while one is in flight. *)
Lemma second_submission_starts_while_first_is_in_flight :
  let first := nth 0 ALPHABET_LESSONS (currentLesson (initialApp INITIAL_PROGRESS)) in
  let second := nth 1 ALPHABET_LESSONS first in
  let s0 := loadLessonRun first ImageNoClient (initialApp INITIAL_PROGRESS) in
  let s1 := fst (handleCapture (Some "data:image/jpeg;base64,AAAA") s0) in
  let s2 := loadLessonRun second ImageNoClient s1 in
  handleCapture (Some "data:image/jpeg;base64,AAAA") s0
  = (s1, [AnalyzeHandShape "A" "data:image/jpeg;base64,AAAA" None]) /\
  appState s1 = ANALYZING /\
  handleNext s1 = Some (loadLesson second s1) /\
  appState s2 = WAITING_FOR_USER /\
  handleCapture (Some "data:image/jpeg;base64,BBBB") s2
  = (setFeedback JSON.JNull (setAppState ANALYZING s2),
     [AnalyzeHandShape "B" "data:image/jpeg;base64,BBBB" None]).
Proof. repeat apply conj; reflexivity. Qed.

(** A result of [null] makes the read of [success] throw inside the
    [try]: the machine returns to [WAITING_FOR_USER], the feedback being
    the [null] just recorded. *)
Lemma performAnalysisSettled_null (t : string) (s : App) :
  performAnalysisSettled t (Returns JSON.JNull) s
  = setAppState WAITING_FOR_USER (setFeedback JSON.JNull s).
Proof. reflexivity. Qed.



(** ** Voice commands *)

(** C7. [processVoiceCommand] records the transcript and then does what
    the interpreter's first matching rule says, the rules being tried on
    the lower-cased transcript in the order advance, retreat, repeat,
    teach, with the spoken question as default: a rule decides as soon
    as one of its keywords occurs and no earlier rule matches, whatever
    later rules match (a transcript with both [skip] and [go back]
    advances), and the letter case of the transcript does not matter. *)
Theorem voice_command_first_match_wins (transcript : string)
    (shot : option string) (s : App) :
  let lower := JS.toLowerCase transcript in
  processVoiceCommand transcript shot s
    = heard <$> perform (interpret transcript) transcript shot
                  (setLastSpokenCommand (Some transcript) s) /\
  map snd voiceRules = [Advance; Retreat; RepeatLesson; TeachNew] /\
  (forall k kws a,
     voiceRules !! k = Some (kws, a) ->
     mentions lower kws = true ->
     (forall j kws' a', (j < k)%nat -> voiceRules !! j = Some (kws', a') ->
                        mentions lower kws' = false) ->
     interpret transcript = a) /\
  ((forall kws a, In (kws, a) voiceRules -> mentions lower kws = false) ->
   interpret transcript = SpokenQuestion) /\
  (JS.includes lower "skip" = true -> JS.includes lower "go back" = true ->
   interpret transcript = Advance) /\
  interpret (JS.toLowerCase transcript) = interpret transcript /\
  (forall other, JS.toLowerCase other = lower -> interpret other = interpret transcript).
Proof.
  intros lower. repeat apply conj.
  - apply processVoiceCommand_perform.
  - reflexivity.
  - intros k kws a. apply firstMatch_priority.
  - apply firstMatch_default.
  - intros Hskip _. unfold interpret. fold lower.
    cbn [voiceRules firstMatch mentions existsb]. rewrite Hskip.
    now rewrite !orb_true_r.
  - unfold interpret. now rewrite toLowerCase_idempotent.
  - intros other Hother. unfold interpret. now rewrite Hother.
Qed.

Lemma voice_command_first_match_wins_witness :
  interpret "Please SKIP this one, then go back" = Advance.
Proof.
  apply (proj1 (proj2 (proj2 (proj2 (proj2
           (voice_command_first_match_wins
              "Please SKIP this one, then go back" None
              (initialApp INITIAL_PROGRESS))))))); reflexivity.
Defined.

(** ** The fallback for a spoken question *)



(** ** Navigation *)

Section Navigation.

Implicit Types (s : App) (i j : nat).

Lemma currentIndex_found s i :
  currentIndex s = Z.of_nat i ->
  exists l, lessonQueue s !! i = Some l /\ id l = id (currentLesson s).
Proof.
  unfold currentIndex, findIndex.
  destruct (list_find _ _) as [[k l] |] eqn:E; [| lia].
  intros Hk. apply Nat2Z.inj in Hk. subst k.
  apply list_find_Some in E as (Hl & Hp & _).
  exists l. split; [assumption | now apply String.eqb_eq].
Qed.

(** With identifiers unique in the queue, the index the handlers
    compute is the position of the current lesson. *)
Lemma currentIndex_of_position s i :
  NoDup (map id (lessonQueue s)) ->
  lessonQueue s !! i = Some (currentLesson s) ->
  currentIndex s = Z.of_nat i.
Proof.
  intros Hnd Hi. unfold currentIndex, findIndex.
  destruct (list_find _ _) as [[k l] |] eqn:E.
  - apply list_find_Some in E as (Hl & Hp & _).
    apply String.eqb_eq in Hp. f_equal.
    apply (proj1 (NoDup_alt _) Hnd k i (id l)).
    + change (map id (lessonQueue s)) with (id <$> lessonQueue s).
      now rewrite list_lookup_fmap, Hl.
    + change (map id (lessonQueue s)) with (id <$> lessonQueue s).
      now rewrite list_lookup_fmap, Hi, Hp.
  - exfalso. apply list_find_None in E.
    rewrite Forall_lookup in E. apply (E i _ Hi). apply String.eqb_refl.
Qed.

Lemma remainder_next i n :
  (i < n)%nat ->
  remainder (Z.of_nat i + 1) (Z.of_nat n) = Some (Z.of_nat ((i + 1) mod n)).
Proof.
  intros Hlt. unfold remainder.
  destruct (Z.eqb_spec (Z.of_nat n) 0) as [H0 | _]; [lia |].
  f_equal. rewrite Z.rem_mod_nonneg by lia.
  rewrite Nat2Z.inj_mod. f_equal. lia.
Qed.

Lemma index_nat {A} (l : list A) (k : nat) : index l (Some (Z.of_nat k)) = l !! k.
Proof.
  unfold index. destruct (Z.leb_spec 0 (Z.of_nat k)); [| lia].
  now rewrite Nat2Z.id.
Qed.

Lemma handleNext_at s i :
  currentIndex s = Z.of_nat i ->
  exists l, lessonQueue s !! ((i + 1) mod length (lessonQueue s))%nat = Some l /\
            handleNext s = Some (loadLesson l s).
Proof.
  intros Hi. destruct (currentIndex_found s i Hi) as (l0 & Hl0 & _).
  apply lookup_lt_Some in Hl0.
  assert (Hmod : ((i + 1) mod length (lessonQueue s) < length (lessonQueue s))%nat)
    by (apply Nat.mod_upper_bound; lia).
  destruct (lookup_lt_is_Some_2 _ _ Hmod) as [l Hl].
  exists l. split; [assumption |].
  unfold handleNext. rewrite Hi, remainder_next by assumption.
  now rewrite index_nat, Hl.
Qed.

Lemma handlePrevious_first s :
  currentIndex s = 0 -> handlePrevious s = Some (s, []).
Proof. unfold handlePrevious. now intros ->. Qed.

Lemma handlePrevious_at s j :
  currentIndex s = Z.of_nat (S j) ->
  exists l, lessonQueue s !! j = Some l /\ handlePrevious s = Some (loadLesson l s).
Proof.
  intros Hi. destruct (currentIndex_found s (S j) Hi) as (l0 & Hl0 & _).
  apply lookup_lt_Some in Hl0.
  destruct (lookup_lt_is_Some_2 (lessonQueue s) j) as [l Hl]; [lia |].
  exists l. split; [assumption |].
  unfold handlePrevious. rewrite Hi.
  replace (Z.of_nat (S j) - 1) with (Z.of_nat j) by lia.
  destruct (Z.leb_spec 0 (Z.of_nat j)); [| lia].
  now rewrite index_nat, Hl.
Qed.

Lemma currentIndex_cases s :
  currentIndex s = -1 \/ exists i, currentIndex s = Z.of_nat i.
Proof.
  unfold currentIndex, findIndex.
  destruct (list_find _ _) as [[k l] |]; [right; now exists k | now left].
Qed.

(** The handlers load an undefined lesson only from an empty queue;
    the queue of the initial state has three lessons and the handlers
    that replace or extend it never leave it empty. *)
Lemma handleNext_defined s :
  lessonQueue s <> [] -> exists l, handleNext s = Some (loadLesson l s).
Proof.
  intros Hne. destruct (currentIndex_cases s) as [Hnone | [i Hi]].
  - destruct (lessonQueue s) as [| l q] eqn:Eq; [congruence |].
    exists l. unfold handleNext. rewrite Hnone, Eq. reflexivity.
  - destruct (handleNext_at s i Hi) as (l & _ & Hl). now exists l.
Qed.

Lemma handlePrevious_defined s : exists r, handlePrevious s = Some r.
Proof.
  destruct (currentIndex_cases s) as [Hnone | [[| j] Hi]].
  - exists (s, []). unfold handlePrevious. now rewrite Hnone.
  - exists (s, []). now apply handlePrevious_first.
  - destruct (handlePrevious_at s j Hi) as (l & _ & Hl). eauto.
Qed.

End Navigation.

(** C5. With the current lesson found at index [i] of the queue (which
    is then not empty), next loads the lesson at index
    [(i + 1) mod length], so from the last index it loads the first
    lesson; previous loads the lesson at index [i - 1] when [i] is
    positive and does nothing at index 0.  Loading is [loadLesson]: the
    lesson becomes current, the state [GENERATING_REF], feedback is
    cleared and a reference image is requested for the lesson's
    prompt. *)
Theorem navigation_next_wraps_previous_clamps (s : App) (i : nat) :
  currentIndex s = Z.of_nat i ->
  let q := lessonQueue s in
  (i < length q)%nat /\
  (exists l, q !! ((i + 1) mod length q)%nat = Some l /\
             handleNext s = Some (loadLesson l s)) /\
  (S i = length q ->
   exists l, q !! 0%nat = Some l /\ handleNext s = Some (loadLesson l s)) /\
  (i = 0%nat -> handlePrevious s = Some (s, [])) /\
  (forall j, i = S j ->
     exists l, q !! j = Some l /\ handlePrevious s = Some (loadLesson l s)) /\
  (forall l,
     let '(s', started) := loadLesson l s in
     currentLesson s' = l /\ appState s' = GENERATING_REF /\
     feedback s' = JSON.JNull /\ lessonQueue s' = q /\
     started = [GenerateReferenceImage (prompt l) "1:1"]).
Proof.
  intros Hi q.
  assert (Hlt : (i < length q)%nat).
  { destruct (currentIndex_found s i Hi) as (l0 & Hl0 & _).
    now apply lookup_lt_Some in Hl0. }
  repeat apply conj.
  - exact Hlt.
  - now apply handleNext_at.
  - intros Hlast. destruct (handleNext_at s i Hi) as (l & Hl & Hn).
    exists l. split; [| assumption].
    fold q in Hl. replace (i + 1)%nat with (length q) in Hl by lia.
    now rewrite Nat.Div0.mod_same in Hl.
  - intros ->. now apply handlePrevious_first.
  - intros j ->. now apply handlePrevious_at.
  - intros l. cbn. repeat apply conj; reflexivity.
Qed.

Lemma navigation_next_wraps_previous_clamps_witness :
  let lessonC :=
    {| id := "C"; target := "C";
       description := "Curve your fingers and thumb to form a C shape.";
       difficulty := Beginner;
       prompt := "photorealistic close-up of a hand signing ASL letter C, side profile, neutral background, 4k" |} in
  handleNext (setCurrentLesson lessonC (initialApp INITIAL_PROGRESS))
  = Some (loadLesson (currentLesson (initialApp INITIAL_PROGRESS))
            (setCurrentLesson lessonC (initialApp INITIAL_PROGRESS))) /\
  handlePrevious (initialApp INITIAL_PROGRESS) = Some (initialApp INITIAL_PROGRESS, []).
Proof.
  intros lessonC. split.
  - destruct (proj1 (proj2 (proj2 (navigation_next_wraps_previous_clamps
                (setCurrentLesson lessonC (initialApp INITIAL_PROGRESS))
                2%nat eq_refl))) eq_refl)
      as (l & Hl & ->).
    injection Hl as <-. reflexivity.
  - exact (proj1 (proj2 (proj2 (proj2 (navigation_next_wraps_previous_clamps
                (initialApp INITIAL_PROGRESS) 0%nat eq_refl)))) eq_refl).
Defined.

(** ** Sentence decomposition *)

Section Sentence.

Variable now : nat -> Z.

Definition notWhitespace (c : ascii) : bool := negb (JS.isWhitespace c).

Lemma splitWsFrom_tokens (b : bool) (s : string) :
  Forall (fun t => allChars notWhitespace t = true) (JS.splitWsFrom b s) /\
  joinAll (JS.splitWsFrom b s) = removeWhitespace s.
Proof.
  revert b. induction s as [| c r IH]; intros b; simpl.
  - split; [repeat constructor | reflexivity].
  - destruct (JS.isWhitespace c) eqn:Ec.
    + destruct b.
      * apply IH.
      * destruct (IH true) as [Hall Hjoin]. split; [now constructor |].
        simpl. exact Hjoin.
    + destruct (IH false) as [Hall Hjoin].
      destruct (JS.splitWsFrom false r) as [| t ts].
      * simpl in Hjoin. rewrite <- Hjoin. split; [| reflexivity].
        repeat constructor. simpl. unfold notWhitespace. now rewrite Ec.
      * inversion Hall as [| ? ? Ht Hts]; subst.
        split.
        -- constructor; [| assumption]. simpl. unfold notWhitespace at 1.
           now rewrite Ec.
        -- change (String c (t +:+ joinAll ts) = String c (removeWhitespace r)).
           f_equal. exact Hjoin.
Qed.

Lemma removeWhitespace_trimStart (s : string) :
  removeWhitespace (JS.trimStart s) = removeWhitespace s.
Proof.
  induction s as [| c r IH]; simpl; [reflexivity |].
  destruct (JS.isWhitespace c) eqn:Ec; simpl; [assumption | now rewrite Ec].
Qed.

Lemma removeWhitespace_trimEnd (s : string) :
  removeWhitespace (JS.trimEnd s) = removeWhitespace s.
Proof.
  induction s as [| c r IH]; simpl; [reflexivity |].
  destruct (JS.trimEnd r) as [| c' r'].
  - simpl in IH. destruct (JS.isWhitespace c) eqn:Ec; simpl.
    + exact IH.
    + now rewrite Ec, <- IH.
  - cbn [removeWhitespace]. now rewrite <- IH.
Qed.

Lemma removeWhitespace_trim (s : string) :
  removeWhitespace (JS.trim s) = removeWhitespace s.
Proof.
  unfold JS.trim. now rewrite removeWhitespace_trimEnd, removeWhitespace_trimStart.
Qed.

Lemma stripNonAlpha_alpha (w : string) :
  allChars JS.isAlpha (JS.stripNonAlpha w) = true.
Proof.
  induction w as [| c r IH]; simpl; [reflexivity |].
  destruct (JS.isAlpha c) eqn:Ec; simpl; [now rewrite Ec | assumption].
Qed.

Lemma upperChar_upper (c : ascii) :
  JS.isAlpha c = true -> JS.isUpper (JS.upperChar c) = true.
Proof. destruct c as [[] [] [] [] [] [] [] []]; vm_compute; congruence. Qed.

Lemma toUpperCase_upper (w : string) :
  allChars JS.isAlpha w = true -> allChars JS.isUpper (JS.toUpperCase w) = true.
Proof.
  induction w as [| c r IH]; simpl; [reflexivity |].
  intros H. apply andb_prop in H as [Hc Hr].
  now rewrite upperChar_upper, IH.
Qed.

Lemma cleanWord_upper (w : string) : allChars JS.isUpper (cleanWord w) = true.
Proof. apply toUpperCase_upper, stripNonAlpha_alpha. Qed.

Definition classified (l : Lesson) : Prop :=
  (String.length (target l) = 1%nat /\ difficulty l = Beginner /\
   prompt l = letterPrompt (target l)) \/
  ((1 < String.length (target l))%nat /\ difficulty l = Intermediate /\
   prompt l = wordPrompt (target l)).

Lemma wordLesson_None (total i : nat) (w : string) :
  wordLesson now total i w = None <-> cleanWord w = EmptyString.
Proof.
  unfold wordLesson. fold (cleanWord w).
  destruct (cleanWord w); split; congruence.
Qed.

Lemma wordLesson_Some (total i : nat) (w : string) (l : Lesson) :
  wordLesson now total i w = Some l ->
  target l = cleanWord w /\ cleanWord w <> EmptyString /\ classified l /\
  id l = "seq-" +:+ JS.showZ (now i) +:+ "-" +:+ JS.showNat i.
Proof.
  unfold wordLesson. fold (cleanWord w).
  destruct (cleanWord w) as [| c r] eqn:E; [discriminate |].
  intros [= <-]. cbn [target difficulty prompt id].
  repeat apply conj; try congruence; try reflexivity.
  unfold classified. cbn [target difficulty prompt String.length].
  destruct r as [| c' r']; [left | right]; cbn; repeat apply conj;
    try reflexivity; lia.
Qed.

(** The targets of the lessons are the cleaned tokens that are not
    empty, in order, whatever the position-dependent callback adds. *)
Lemma targets_of_tokens (total : nat) (tokens : list string) (k : nat) :
  map target (omap (fun x => x) (imap (fun i => wordLesson now total (k + i)) tokens))
  = filter (fun w => w <> EmptyString) (map cleanWord tokens).
Proof.
  revert k. induction tokens as [| w tokens IH]; intros k; [reflexivity |].
  cbn [imap omap map]. rewrite filter_cons.
  assert (Htail :
    imap ((fun i => wordLesson now total (k + i)) ∘ S) tokens
    = imap (fun i => wordLesson now total (S k + i)) tokens).
  { apply imap_ext. intros i x _. simpl. f_equal. lia. }
  rewrite Htail.
  destruct (wordLesson now total (k + 0) w) as [l |] eqn:E.
  - apply wordLesson_Some in E as (Ht & Hne & _).
    rewrite decide_True by assumption. cbn [omap list_omap map].
    change (list_omap _ _) with (@omap list _ (option Lesson) Lesson).
    now rewrite IH, Ht.
  - apply wordLesson_None in E. rewrite decide_False by tauto.
    cbn [omap list_omap].
    change (list_omap _ _) with (@omap list _ (option Lesson) Lesson).
    apply IH.
Qed.

Lemma lessons_of_tokens (total : nat) (tokens : list string) (l : Lesson) :
  In l (omap (fun x => x) (imap (wordLesson now total) tokens)) ->
  exists i w, tokens !! i = Some w /\ wordLesson now total i w = Some l.
Proof.
  intros Hin. apply list_elem_of_In, list_elem_of_omap in Hin as (o & Ho & Hl).
  apply list_elem_of_lookup in Ho as [i Hi].
  rewrite list_lookup_imap in Hi.
  destruct (tokens !! i) as [w |] eqn:Ew in Hi |- *; [| discriminate].
  exists i, w. split; [exact Ew |]. injection Hi as <-. exact Hl.
Qed.

Lemma handleSentenceSubmit_none (s : App) :
  sentenceLessons now (customSentence s) = [] -> handleSentenceSubmit now s = (s, []).
Proof.
  intros H. unfold handleSentenceSubmit.
  destruct (JS.trim (customSentence s)); [reflexivity |]. now rewrite H.
Qed.

(** A sentence that is blank after trimming has no lesson, so the
    guard at the head of the handler is subsumed by the test on
    [newLessons]. *)
Lemma sentenceLessons_blank (sentence : string) :
  JS.trim sentence = EmptyString -> sentenceLessons now sentence = [].
Proof. unfold sentenceLessons. now intros ->. Qed.

Lemma handleSentenceSubmit_some (s : App) (first : Lesson) (rest : list Lesson) :
  sentenceLessons now (customSentence s) = first :: rest ->
  handleSentenceSubmit now s =
  (setFeedback
     (feedbackResponse false
        ("Queue updated! We will go word by word. First up: " +:+ JS.dq
         +:+ target first +:+ JS.dq) None)
     (setCustomSentence EmptyString
        (fst (loadLesson first (setLessonQueue (first :: rest) s)))),
   [GenerateReferenceImage (prompt first) "1:1"]).
Proof.
  intros H. unfold handleSentenceSubmit.
  destruct (JS.trim (customSentence s)) eqn:Et.
  - now rewrite sentenceLessons_blank in H.
  - now rewrite H.
Qed.

End Sentence.

(** C6. The lessons made from a sentence.  The trimmed sentence is
    split at its runs of white space: no token holds a white-space
    character and the tokens, joined, are the other characters of the
    sentence in order.  Each token is stripped to its letters and
    upper-cased; the lessons' targets are the cleaned tokens that are not
    empty, in order.  Every lesson has a non-empty target of letters A-Z
    and is either a one-letter [Beginner] lesson with the letter prompt
    or a longer [Intermediate] lesson with the word prompt.
    [Hello World!] gives the word lessons HELLO and WORLD and [A] gives
    one letter lesson.  When no lesson is made the handler returns the
    state as it was; otherwise the lessons replace the queue and the
    first one is loaded. *)
Theorem sentence_decomposition (now : nat -> Z) (sentence : string) :
  let tokens := JS.splitWs (JS.trim sentence) in
  let lessons := sentenceLessons now sentence in
  Forall (fun t => allChars notWhitespace t = true) tokens /\
  joinAll tokens = removeWhitespace sentence /\
  map target lessons = filter (fun w => w <> EmptyString) (map cleanWord tokens) /\
  Forall (fun l => target l <> EmptyString /\
                   allChars JS.isUpper (target l) = true /\
                   classified l) lessons /\
  map (fun l => (target l, difficulty l, prompt l)) (sentenceLessons now "Hello World!")
    = [("HELLO", Intermediate, wordPrompt "HELLO");
       ("WORLD", Intermediate, wordPrompt "WORLD")] /\
  map (fun l => (target l, difficulty l, prompt l)) (sentenceLessons now "A")
    = [("A", Beginner, letterPrompt "A")] /\
  (forall s : App,
     customSentence s = sentence -> lessons = [] ->
     handleSentenceSubmit now s = (s, [])) /\
  (forall (s : App) first rest,
     customSentence s = sentence -> lessons = first :: rest ->
     exists s',
       handleSentenceSubmit now s = (s', [GenerateReferenceImage (prompt first) "1:1"]) /\
       lessonQueue s' = lessons /\ currentLesson s' = first /\
       appState s' = GENERATING_REF /\ progress s' = progress s).
Proof.
  intros tokens lessons.
  destruct (splitWsFrom_tokens false (JS.trim sentence)) as [Hnows Hjoin].
  repeat apply conj.
  - exact Hnows.
  - unfold tokens, JS.splitWs. rewrite Hjoin. apply removeWhitespace_trim.
  - unfold lessons, sentenceLessons. fold tokens.
    apply (targets_of_tokens now (length tokens) tokens 0).
  - apply Forall_forall. intros l Hin. apply list_elem_of_In in Hin.
    unfold lessons, sentenceLessons in Hin. fold tokens in Hin.
    apply lessons_of_tokens in Hin as (i & w & _ & Hl).
    apply wordLesson_Some in Hl as (Ht & Hne & Hc & _).
    rewrite Ht. repeat apply conj; [assumption | apply cleanWord_upper | assumption].
  - reflexivity.
  - reflexivity.
  - intros s <- Hnone. now apply handleSentenceSubmit_none.
  - intros s first rest <- Hsome. fold lessons. rewrite Hsome.
    eexists. split; [apply handleSentenceSubmit_some; exact Hsome |].
    repeat apply conj; reflexivity.
Qed.

Lemma sentence_decomposition_witness :
  handleSentenceSubmit (fun _ => 1700000000000)
    (setCustomSentence "12 ?!" (initialApp INITIAL_PROGRESS))
  = (setCustomSentence "12 ?!" (initialApp INITIAL_PROGRESS), []) /\
  map target (sentenceLessons (fun _ => 1700000000000) "Hello World!") = ["HELLO"; "WORLD"].
Proof.
  split.
  - refine (proj1 (proj2 (proj2 (proj2 (proj2 (proj2 (proj2
              (sentence_decomposition (fun _ => 1700000000000) "12 ?!")))))))
              (setCustomSentence "12 ?!" (initialApp INITIAL_PROGRESS)) eq_refl eq_refl).
  - reflexivity.
Defined.

(** * Further properties of the sources *)

(** ** Reference images *)

Section ReferenceImage.

Implicit Types (prompt aspectRatio : string) (reply : ImageReply).

Definition placeholderBase : string :=
  "https://placehold.co/800x800/1e293b/FFF?text=ASL+Sign:+".

Lemma upperChar_of_alpha (c : ascii) :
  JS.isAlpha c = true -> JS.isUpper (JS.upperChar c) = true.
Proof. destruct c as [[] [] [] [] [] [] [] []]; vm_compute; congruence. Qed.

Lemma letterMatch_alpha prompt l : letterMatch prompt = Some l -> JS.isAlpha l = true.
Proof.
  induction prompt as [| c r IH]; [discriminate |].
  cbn [letterMatch].
  destruct (stripPrefixCI "asl letter " (String c r)) as [[| l' rest] |]; try exact IH.
  destruct (JS.isAlpha l') eqn:E; [| exact IH]. now intros [= <-].
Qed.

Lemma placeholderImage_shape prompt :
  exists tail,
    placeholderImage prompt = placeholderBase +:+ tail /\
    (tail = "Sign" \/
     exists c, JS.isUpper c = true /\ tail = String c EmptyString).
Proof.
  unfold placeholderImage.
  destruct (letterMatch prompt) as [l |] eqn:E.
  - eexists. split; [reflexivity |]. right. eexists. split; [| reflexivity].
    apply upperChar_of_alpha. now apply letterMatch_alpha in E.
  - exists "Sign". split; [reflexivity | now left].
Qed.

Lemma firstInlineData_skip (pre : list Part) (p : Part) (post : list Part) :
  Forall (fun q => inlineData q = None) pre ->
  firstInlineData (pre ++ p :: post) =
  match inlineData p with
  | Some d => Some d
  | None => firstInlineData post
  end.
Proof.
  induction 1 as [| q pre Hq _ IH]; [reflexivity |].
  simpl. now rewrite Hq.
Qed.

Lemma firstInlineData_none (parts : list Part) :
  Forall (fun q => inlineData q = None) parts -> firstInlineData parts = None.
Proof. induction 1 as [| q pre Hq _ IH]; [reflexivity |]. simpl. now rewrite Hq. Qed.

End ReferenceImage.

Lemma generateReferenceImage_returns (prompt aspectRatio : string) (reply : ImageReply) :
  exists url,
    generateReferenceImage prompt aspectRatio reply = Returns url /\
    url <> EmptyString /\
    ((exists e, imagePrimary reply = Throws e) -> url = placeholderImage prompt).
Proof.
  unfold generateReferenceImage.
  destruct (imagePrimary reply) as [url | e] eqn:E.
  - exists url. repeat apply conj; [reflexivity | | intros [e He]; discriminate].
    destruct reply as [| e | parts]; try discriminate. simpl in E.
    destruct (firstInlineData _); [| discriminate]. now injection E as <-.
  - exists (placeholderImage prompt).
    repeat apply conj; [reflexivity | discriminate | reflexivity].
Qed.

(** [generateReferenceImage] never rejects: it resolves with the data
    URL of the response or, when the primary path throws, with the
    placeholder URL, which ends in [Sign] or in one letter A-Z. *)
Theorem generateReferenceImage_always_resolves
    (prompt aspectRatio : string) (reply : ImageReply) :
  exists url,
    generateReferenceImage prompt aspectRatio reply = Returns url /\
    url <> EmptyString /\
    ((exists e, imagePrimary reply = Throws e) ->
     url = placeholderImage prompt /\
     exists tail,
       url = placeholderBase +:+ tail /\
       (tail = "Sign" \/
        exists c, JS.isUpper c = true /\ tail = String c EmptyString)).
Proof.
  destruct (generateReferenceImage_returns prompt aspectRatio reply)
    as (url & Hurl & Hne & Hthrow).
  exists url. repeat apply conj; [exact Hurl | exact Hne |].
  intros He. rewrite (Hthrow He). split; [reflexivity | apply placeholderImage_shape].
Qed.

Lemma generateReferenceImage_always_resolves_witness :
  generateReferenceImage (letterPrompt "B") "1:1" ImageNoClient
  = Returns "https://placehold.co/800x800/1e293b/FFF?text=ASL+Sign:+B".
Proof.
  destruct (generateReferenceImage_always_resolves (letterPrompt "B") "1:1" ImageNoClient)
    as (url & Hurl & _ & Hthrow).
  destruct Hthrow as [-> _]; [eexists; reflexivity |].
  exact Hurl.
Defined.

(** The image of a response is the payload of the first part that
    carries inline data, whatever parts precede or follow it; a response
    without such a part is answered with the placeholder. *)
Theorem generateReferenceImage_first_inline_part
    (prompt aspectRatio : string) (pre post : list Part) (data : string) :
  Forall (fun q => inlineData q = None) pre ->
  generateReferenceImage prompt aspectRatio
    (ImageResponse (Some (pre ++ {| inlineData := Some (Some data) |} :: post)))
  = Returns ("data:image/png;base64," +:+ data) /\
  generateReferenceImage prompt aspectRatio (ImageResponse (Some pre))
  = Returns (placeholderImage prompt) /\
  generateReferenceImage prompt aspectRatio (ImageResponse None)
  = Returns (placeholderImage prompt).
Proof.
  intros Hpre. unfold generateReferenceImage, imagePrimary.
  repeat apply conj.
  - cbn [from_option Datatypes.id]. now rewrite firstInlineData_skip.
  - cbn [from_option Datatypes.id]. now rewrite firstInlineData_none.
  - reflexivity.
Qed.

Lemma generateReferenceImage_first_inline_part_witness :
  generateReferenceImage "a hand" "16:9"
    (ImageResponse
       (Some [ {| inlineData := None |};
               {| inlineData := Some (Some "QUJD") |};
               {| inlineData := Some (Some "REVG") |} ]))
  = Returns "data:image/png;base64,QUJD".
Proof.
  apply (proj1 (generateReferenceImage_first_inline_part "a hand" "16:9"
                  [ {| inlineData := None |} ] [ {| inlineData := Some (Some "REVG") |} ]
                  "QUJD" ltac:(repeat constructor))).
Defined.

(** Loading a lesson always ends in [WAITING_FOR_USER] with a reference
    image, the lesson current and feedback cleared: since
    [generateReferenceImage] never rejects, the branch of [loadLesson]
    that returns to [IDLE] is not taken. *)
Theorem loadLesson_always_reaches_waiting (lesson : Lesson) (reply : ImageReply)
    (s : App) :
  let s' := loadLessonRun lesson reply s in
  appState s' = WAITING_FOR_USER /\
  (exists url, refImage s' = Some url /\ truthyString (Some url) = Some url) /\
  currentLesson s' = lesson /\
  feedback s' = JSON.JNull /\
  lessonQueue s' = lessonQueue s /\ progress s' = progress s /\
  snd (loadLesson lesson s) = [GenerateReferenceImage (prompt lesson) "1:1"].
Proof.
  intros s'. subst s'. unfold loadLessonRun.
  destruct (generateReferenceImage_returns (prompt lesson) "1:1" reply)
    as (url & -> & Hne & _).
  cbn. repeat apply conj; try reflexivity.
  exists url. split; [reflexivity |]. destruct url; [congruence | reflexivity].
Qed.

(** ** Placeholders of sentence lessons *)

Section PlaceholderOfLesson.

Lemma append_cons (c : ascii) (s t : string) : String c s +:+ t = String c (s +:+ t).
Proof. reflexivity. Qed.

Lemma append_nil (t : string) : EmptyString +:+ t = t.
Proof. reflexivity. Qed.

Lemma letterMatch_skip (c : ascii) (rest : string) :
  Ascii.eqb (JS.lowerChar c) "a" = false ->
  letterMatch (String c rest) = letterMatch rest.
Proof. intros H. cbn [letterMatch stripPrefixCI]. now rewrite H. Qed.

Lemma letterMatch_skip2 (c d : ascii) (rest : string) :
  Ascii.eqb (JS.lowerChar d) "s" = false ->
  letterMatch (String c (String d rest)) = letterMatch (String d rest).
Proof.
  intros H. cbn [letterMatch stripPrefixCI]. rewrite H.
  now destruct (Ascii.eqb (JS.lowerChar c) "a").
Qed.

Lemma upper_not_space (c : ascii) :
  JS.isUpper c = true -> Ascii.eqb (JS.lowerChar c) " " = false.
Proof. destruct c as [[] [] [] [] [] [] [] []]; vm_compute; congruence. Qed.

(** What follows the word in [wordPrompt]. *)
Definition wordPromptTail : string :=
  JS.dq +:+
  " in ASL, showing motion lines, arrows indicating movement, and facial expression if necessary, photorealistic style, white background".

Lemma letterMatch_wordPromptTail : letterMatch wordPromptTail = None.
Proof. vm_compute. reflexivity. Qed.

Lemma stripPrefixCI_in_word (c : ascii) (w : string) :
  allChars JS.isUpper (String c w) = true ->
  stripPrefixCI "asl letter " (String c (w +:+ wordPromptTail)) = None.
Proof.
  intros H. cbn [allChars] in H. apply andb_prop in H as [_ H].
  destruct w as [| c2 [| c3 [| c4 w]]].
  - rewrite ?append_cons, ?append_nil; cbn [stripPrefixCI].
    destruct (Ascii.eqb (JS.lowerChar c) "a"); reflexivity.
  - rewrite ?append_cons, ?append_nil; cbn [stripPrefixCI].
    destruct (Ascii.eqb (JS.lowerChar c) "a"); [| reflexivity].
    destruct (Ascii.eqb (JS.lowerChar c2) "s"); reflexivity.
  - rewrite ?append_cons, ?append_nil; cbn [stripPrefixCI].
    destruct (Ascii.eqb (JS.lowerChar c) "a"); [| reflexivity].
    destruct (Ascii.eqb (JS.lowerChar c2) "s"); [| reflexivity].
    destruct (Ascii.eqb (JS.lowerChar c3) "l"); reflexivity.
  - cbn [allChars] in H.
    apply andb_prop in H as [_ H]. apply andb_prop in H as [_ H].
    apply andb_prop in H as [H4 _]. apply upper_not_space in H4.
    rewrite ?append_cons, ?append_nil; cbn [stripPrefixCI]. rewrite H4.
    destruct (Ascii.eqb (JS.lowerChar c) "a"); [| reflexivity].
    destruct (Ascii.eqb (JS.lowerChar c2) "s"); [| reflexivity].
    destruct (Ascii.eqb (JS.lowerChar c3) "l"); reflexivity.
Qed.

Lemma letterMatch_in_word (w : string) :
  allChars JS.isUpper w = true -> letterMatch (w +:+ wordPromptTail) = None.
Proof.
  induction w as [| c w IH]; intros H.
  - apply letterMatch_wordPromptTail.
  - change (String c w +:+ wordPromptTail) with (String c (w +:+ wordPromptTail)).
    cbn [letterMatch]. rewrite stripPrefixCI_in_word by assumption.
    apply IH. cbn [allChars] in H. now apply andb_prop in H as [_ H].
Qed.

Lemma letterMatch_wordPrompt (w : string) :
  allChars JS.isUpper w = true -> letterMatch (wordPrompt w) = None.
Proof.
  intros H. unfold wordPrompt.
  change (JS.dq +:+ w +:+ JS.dq +:+ ?t) with (JS.dq +:+ (w +:+ wordPromptTail)).
  rewrite ?append_cons, ?append_nil.
  repeat first [ rewrite letterMatch_skip by (vm_compute; reflexivity)
               | rewrite letterMatch_skip2 by (vm_compute; reflexivity) ].
  unfold JS.dq. rewrite ?append_cons, ?append_nil.
  rewrite letterMatch_skip by (vm_compute; reflexivity).
  now apply letterMatch_in_word.
Qed.

Lemma letterMatch_letterPrompt (c : ascii) :
  JS.isUpper c = true -> letterMatch (letterPrompt (String c EmptyString)) = Some c.
Proof. destruct c as [[] [] [] [] [] [] [] []]; vm_compute; congruence. Qed.

End PlaceholderOfLesson.

(** When the primary path throws, a lesson made from a sentence gets
    the placeholder of its letter if it is a letter lesson, and the
    generic placeholder if it is a word lesson. *)
Theorem sentence_lesson_placeholder (now : nat -> Z) (sentence : string)
    (l : Lesson) (reply : ImageReply) :
  In l (sentenceLessons now sentence) ->
  (exists e, imagePrimary reply = Throws e) ->
  generateReferenceImage (prompt l) "1:1" reply =
  Returns (placeholderBase +:+
           match difficulty l with
           | Beginner => target l
           | _ => "Sign"
           end).
Proof.
  intros Hin [e He].
  unfold sentenceLessons in Hin.
  apply lessons_of_tokens in Hin as (i & w & _ & Hl).
  apply wordLesson_Some in Hl as (Ht & Hne & Hc & _).
  pose proof (cleanWord_upper w) as Hup. rewrite <- Ht in Hup.
  unfold generateReferenceImage. rewrite He. f_equal.
  unfold placeholderImage, placeholderBase.
  destruct Hc as [(Hlen & -> & ->) | (Hlen & -> & ->)].
  - destruct (target l) as [| c [| c' r]]; try discriminate.
    cbn [allChars] in Hup. rewrite andb_true_r in Hup.
    rewrite letterMatch_letterPrompt by assumption.
    f_equal. f_equal. unfold JS.upperChar.
    destruct (JS.isLower c) eqn:El; [| reflexivity].
    exfalso. clear - Hup El.
    destruct c as [[] [] [] [] [] [] [] []]; vm_compute in Hup, El; congruence.
  - now rewrite letterMatch_wordPrompt.
Qed.

Lemma sentence_lesson_placeholder_witness :
  Forall (fun l =>
            generateReferenceImage (prompt l) "1:1" ImageNoClient =
            Returns (placeholderBase +:+
                     match difficulty l with Beginner => target l | _ => "Sign" end))
         (sentenceLessons (fun _ => 1700000000000) "A cab") /\
  map target (sentenceLessons (fun _ => 1700000000000) "A cab") = ["A"; "CAB"].
Proof.
  split; [| reflexivity].
  apply Forall_forall. intros l Hl. apply list_elem_of_In in Hl.
  apply (sentence_lesson_placeholder (fun _ => 1700000000000) "A cab" l
           ImageNoClient Hl).
  eexists. reflexivity.
Defined.

(** ** Lessons made from a voice intent *)

Section LessonFromIntent.

Lemma orElse_truthy (a : JSON.access) (fallback : JSON.json) :
  JSON.truthy fallback = true -> JSON.truthy (orElse a fallback) = true.
Proof.
  intros H. destruct a as [| | v]; try exact H.
  simpl. destruct (JSON.truthy v) eqn:E; assumption.
Qed.

Lemma orElse_value (v fallback : JSON.json) :
  JSON.truthy v = true -> orElse (JSON.Value v) fallback = v.
Proof. simpl. now intros ->. Qed.

Lemma latin1_units (s : string) : latin1 (JS.units s) = Some s.
Proof.
  unfold latin1, JS.units.
  assert (Hall : forallb (fun u => (u <? 256)%N) (map JS.code (list_ascii_of_string s)) = true).
  { apply forallb_forall. intros u Hu. apply in_map_iff in Hu as (c & <- & _).
    apply N.ltb_lt. unfold JS.code. apply N_ascii_bounded. }
  rewrite Hall. f_equal.
  rewrite map_map.
  rewrite (map_ext _ (fun c => c)) by (intros c; apply ascii_N_embedding).
  rewrite map_id. apply string_of_list_ascii_of_string.
Qed.

Lemma asString_str (s : string) : asString (JSON.str s) = Some s.
Proof. apply latin1_units. Qed.

Lemma truthy_str (c : ascii) (s : string) : JSON.truthy (JSON.str (String c s)) = true.
Proof. reflexivity. Qed.

End LessonFromIntent.

(** [createLessonFromIntent] never rejects, and whatever the model
    answered the lesson's identifier is [dyn-] followed by a reading of
    the clock, never a member of the answer; its target, description
    and difficulty are never missing or empty. *)
Theorem createLessonFromIntent_fresh_identifier (userVoicePrompt : string)
    (clock : nat -> Z) (reply : Reply) :
  exists o,
    createLessonFromIntent userVoicePrompt clock reply = Returns o /\
    (objectId o = "dyn-" +:+ JS.showZ (clock 0%nat) \/
     objectId o = "dyn-" +:+ JS.showZ (clock 1%nat)) /\
    JSON.truthy (objectTarget o) = true /\
    JSON.truthy (objectDescription o) = true /\
    JSON.truthy (objectDifficulty o) = true.
Proof.
  unfold createLessonFromIntent.
  destruct (primaryPath reply) as [data | e];
    [destruct (JSON.prop "target" data) eqn:Et |].
  all: eexists; split; [reflexivity |].
  all: cbn [objectId objectTarget objectDescription objectDifficulty genericLesson].
  all: repeat apply conj;
    first [ now left | now right | apply orElse_truthy; reflexivity | reflexivity ].
Qed.

(** When the primary path throws, or the answer is the JSON [null], the
    lesson is the generic practice helper: target [Custom Sign],
    [Beginner], with the alphabet prompt. *)
Theorem createLessonFromIntent_generic_helper (userVoicePrompt : string)
    (clock : nat -> Z) (reply : Reply) :
  (PrimaryThrows reply ->
   createLessonFromIntent userVoicePrompt clock reply
   = Returns (genericLesson (clock 0%nat))) /\
  (forall rtext,
     reply = Response rtext -> JSON.parse (responseText rtext) = Some JSON.JNull ->
     createLessonFromIntent userVoicePrompt clock reply
     = Returns (genericLesson (clock 1%nat))) /\
  (forall now,
     asLesson (genericLesson now) =
     Some {| id := "dyn-" +:+ JS.showZ now;
             target := "Custom Sign";
             description :=
               "I couldn't quite catch the specific sign, but here is a generic practice helper.";
             difficulty := Beginner;
             prompt := "photorealistic hands signing ASL alphabet" |}).
Proof.
  repeat apply conj.
  - intros H. apply PrimaryThrows_iff in H as [e He].
    unfold createLessonFromIntent. now rewrite He.
  - intros rtext -> Hnull. unfold createLessonFromIntent.
    now rewrite responseText_primaryPath, Hnull.
  - intros now. reflexivity.
Qed.

Lemma createLessonFromIntent_generic_helper_witness :
  createLessonFromIntent "teach me something" (fun k => 1700000000000 + Z.of_nat k)
    (Response (Some "null"))
  = Returns (genericLesson 1700000000001) /\
  createLessonFromIntent "teach me something" (fun k => 1700000000000 + Z.of_nat k)
    NoClient
  = Returns (genericLesson 1700000000000).
Proof.
  split.
  - exact (proj1 (proj2 (createLessonFromIntent_generic_helper "teach me something"
                           (fun k => 1700000000000 + Z.of_nat k) (Response (Some "null"))))
             (Some "null") eq_refl eq_refl).
  - exact (proj1 (createLessonFromIntent_generic_helper "teach me something"
                    (fun k => 1700000000000 + Z.of_nat k) NoClient)
             missing_credentials).
Defined.

(** An answer with string members gives the lesson with those members;
    an answer that names neither target nor prompt gives the target
    [Unknown] with a prompt that reads [photorealistic hand signing
    undefined]: the template is filled from the answer, not from the
    default. *)
Theorem createLessonFromIntent_members (userVoicePrompt : string)
    (clock : nat -> Z) (reply : Reply) (data : JSON.json) :
  primaryPath reply = Returns data ->
  (forall t d p k,
     t <> EmptyString -> d <> EmptyString -> p <> EmptyString ->
     JSON.prop "target" data = JSON.Value (JSON.str t) ->
     JSON.prop "description" data = JSON.Value (JSON.str d) ->
     JSON.prop "difficulty" data = JSON.Value (JSON.str (difficultyName k)) ->
     JSON.prop "prompt" data = JSON.Value (JSON.str p) ->
     exists o,
       createLessonFromIntent userVoicePrompt clock reply = Returns o /\
       asLesson o =
       Some {| id := "dyn-" +:+ JS.showZ (clock 0%nat); target := t;
               description := d; difficulty := k; prompt := p |}) /\
  (JSON.prop "target" data = JSON.Undefined ->
   JSON.prop "description" data = JSON.Undefined ->
   JSON.prop "difficulty" data = JSON.Undefined ->
   JSON.prop "prompt" data = JSON.Undefined ->
   exists o,
     createLessonFromIntent userVoicePrompt clock reply = Returns o /\
     asLesson o =
     Some {| id := "dyn-" +:+ JS.showZ (clock 0%nat); target := "Unknown";
             description := "Follow the hand sign shown.";
             difficulty := Beginner;
             prompt := "photorealistic hand signing undefined" |}).
Proof.
  intros Hdata. split.
  - intros t d p k Ht0 Hd0 Hp0 Ht Hd Hk Hp.
    destruct t as [| c1 r1]; [congruence |].
    destruct d as [| c2 r2]; [congruence |].
    destruct p as [| c3 r3]; [congruence |].
    unfold createLessonFromIntent. rewrite Hdata, Ht, Hd, Hk, Hp.
    eexists. split; [reflexivity |].
    rewrite !orElse_value by (reflexivity || now destruct k).
    rewrite truthy_str.
    unfold asLesson.
    cbn [objectId objectTarget objectDescription objectDifficulty objectPrompt promptText].
    unfold asDifficulty. rewrite !asString_str. now destruct k.
  - intros Ht Hd Hk Hp.
    unfold createLessonFromIntent. rewrite Hdata, Ht, Hd, Hk, Hp.
    eexists. split; reflexivity.
Qed.

Lemma createLessonFromIntent_members_witness :
  exists o,
    createLessonFromIntent "show me" (fun _ => 1700000000000) (Response None) = Returns o /\
    asLesson o =
    Some {| id := "dyn-1700000000000"; target := "Unknown";
            description := "Follow the hand sign shown.";
            difficulty := Beginner;
            prompt := "photorealistic hand signing undefined" |}.
Proof.
  exact (proj2 (createLessonFromIntent_members "show me" (fun _ => 1700000000000)
                  (Response None) (JSON.JObj []) eq_refl)
           eq_refl eq_refl eq_refl eq_refl).
Defined.

(** ** Teaching a new lesson by voice *)

Section Teach.

Implicit Types (s : App) (l : Lesson).

Lemma findIndex_fresh_last {A} (p : A -> bool) (q : list A) (x : A) :
  Forall (fun y => p y = false) q -> p x = true ->
  findIndex p (q ++ [x]) = Z.of_nat (length q).
Proof.
  intros Hq Hx. unfold findIndex.
  assert (H : list_find (fun y => p y = true) (q ++ [x]) = Some (length q, x)).
  { apply list_find_Some. repeat split.
    - now rewrite lookup_app_r, Nat.sub_diag by lia.
    - assumption.
    - intros j y Hj Hlt. rewrite lookup_app_l in Hj by assumption.
      rewrite Forall_lookup in Hq. rewrite (Hq j y Hj). discriminate. }
  now rewrite H.
Qed.

Lemma findIndex_head {A} (p : A -> bool) (q : list A) (x : A) :
  p x = true -> findIndex p (x :: q) = 0.
Proof.
  intros Hx. unfold findIndex.
  assert (H : list_find (fun y => p y = true) (x :: q) = Some (0%nat, x)).
  { apply list_find_Some. repeat split; [assumption |]. intros j y _ Hlt. lia. }
  now rewrite H.
Qed.

End Teach.

(** A transcript with a teach keyword (and no earlier rule) puts the
    classroom in [GENERATING_REF], where frame submissions are refused,
    and asks for a lesson; when the lesson arrives it is appended to the
    queue, becomes current and its image is requested.  If its
    identifier is new to the queue it sits at the last position, from
    which next wraps to the first lesson. *)
Theorem taught_lesson_is_appended (s : App) (transcript : string)
    (shot : option string) (newLesson : Lesson) :
  interpret transcript = TeachNew ->
  exists s1,
    processVoiceCommand transcript shot s
    = Some (s1, [ClearLastSpokenCommand 3000; CreateLessonFromIntent transcript]) /\
    appState s1 = GENERATING_REF /\
    (forall imageSrc spoken, performAnalysis imageSrc spoken s1 = (s1, [])) /\
    let s2 := fst (createLessonSettled (Returns newLesson) s1) in
    snd (createLessonSettled (Returns newLesson) s1)
    = [GenerateReferenceImage (prompt newLesson) "1:1"] /\
    lessonQueue s2 = lessonQueue s ++ [newLesson] /\
    currentLesson s2 = newLesson /\
    appState s2 = GENERATING_REF /\
    (Forall (fun l => id l <> id newLesson) (lessonQueue s) ->
     currentIndex s2 = Z.of_nat (length (lessonQueue s)) /\
     exists first,
       head (lessonQueue s2) = Some first /\
       handleNext s2 = Some (loadLesson first s2)).
Proof.
  intros Hteach. rewrite processVoiceCommand_perform, Hteach.
  eexists. split; [reflexivity |].
  repeat apply conj; try reflexivity.
  intros Hfresh.
  set (s2 := fst (createLessonSettled (Returns newLesson) _)).
  assert (Hidx : currentIndex s2 = Z.of_nat (length (lessonQueue s))).
  { unfold currentIndex. cbn [s2 createLessonSettled loadLesson fst lessonQueue
                              currentLesson setFeedback setAppState setCurrentLesson
                              setLessonQueue setLastSpokenCommand].
    apply findIndex_fresh_last; [| apply String.eqb_refl].
    eapply Forall_impl; [exact Hfresh |]. intros l Hl. now apply String.eqb_neq. }
  split; [exact Hidx |].
  destruct (handleNext_at s2 _ Hidx) as (first & Hfirst & Hnext).
  exists first. split; [| exact Hnext].
  change (lessonQueue s2) with (lessonQueue s ++ [newLesson]) in *.
  rewrite length_app in Hfirst. simpl in Hfirst.
  rewrite Nat.Div0.mod_same in Hfirst.
  now rewrite <- head_lookup in Hfirst.
Qed.

Lemma taught_lesson_is_appended_witness :
  exists s1,
    processVoiceCommand "Show me apple" None (initialApp INITIAL_PROGRESS)
    = Some (s1, [ClearLastSpokenCommand 3000; CreateLessonFromIntent "Show me apple"]) /\
    appState s1 = GENERATING_REF.
Proof.
  destruct (taught_lesson_is_appended (initialApp INITIAL_PROGRESS) "Show me apple" None
              (practiceLesson 0 "apple") eq_refl) as (s1 & H1 & H2 & _).
  exists s1. split; assumption.
Defined.

(** ** The practice tab *)

(** With a non-blank input, generating a practice image always ends
    with an image stored and the generating flag cleared, so that the
    practice can be taken to the classroom; a blank input does
    nothing. *)
Theorem practice_generate_always_yields_image (p : Practice) (reply : ImageReply) :
  (JS.trim (practiceInput p) = EmptyString -> handlePracticeGenerate p = (p, [])) /\
  (JS.trim (practiceInput p) <> EmptyString ->
   let p1 := fst (handlePracticeGenerate p) in
   let request := [GenerateReferenceImage (practicePrompt (practiceInput p)) "16:9"] in
   let p2 := handlePracticeGenerateSettled
               (generateReferenceImage (practicePrompt (practiceInput p)) "16:9" reply) p1 in
   snd (handlePracticeGenerate p) = request /\
   isPracticeGenerating p1 = true /\ practiceImage p1 = None /\
   isPracticeGenerating p2 = false /\ practiceInput p2 = practiceInput p /\
   (exists url, practiceImage p2 = Some url /\ truthyString (Some url) = Some url) /\
   forall now s,
     currentLesson (handlePracticeInClassroom now p2 s)
     = practiceLesson now (practiceInput p)).
Proof.
  split.
  - unfold handlePracticeGenerate. now intros ->.
  - intros Hne p1 request p2. subst p1 request p2.
    unfold handlePracticeGenerate.
    destruct (JS.trim (practiceInput p)) as [| c r] eqn:Et; [congruence |].
    cbn [fst snd].
    destruct (generateReferenceImage_returns
                (practicePrompt (practiceInput p)) "16:9" reply) as (url & -> & Hurl & _).
    cbn [handlePracticeGenerateSettled isPracticeGenerating practiceImage practiceInput].
    repeat apply conj; try reflexivity.
    + exists url. split; [reflexivity |]. destruct url; [congruence | reflexivity].
    + intros now s. unfold handlePracticeInClassroom.
      cbn [practiceImage practiceInput].
      destruct url as [| u us]; [congruence |]. cbn [truthyString].
      destruct (practiceInput p) as [| c' r'] eqn:Ei; [discriminate | reflexivity].
Qed.

Lemma practice_generate_always_yields_image_witness :
  let p := {| practiceInput := "good morning"; practiceImage := None;
              isPracticeGenerating := false |} in
  snd (handlePracticeGenerate p)
  = [GenerateReferenceImage (practicePrompt "good morning") "16:9"].
Proof.
  intros p.
  refine (proj1 (proj2 (practice_generate_always_yields_image p ImageNoClient) _)).
  discriminate.
Defined.

(** Taking a practice to the classroom needs an image and an input.
    The custom lesson is put at the head of the queue and made current
    with the practice image as reference: the classroom waits for the
    user in the classroom tab and no image is requested; the lesson is
    found at index 0, so previous does nothing and next loads the
    former head of the queue. *)
Theorem practice_lesson_is_injected (now : Z) (p : Practice) (s : App) :
  (truthyString (practiceImage p) = None \/ practiceInput p = EmptyString ->
   handlePracticeInClassroom now p s = s) /\
  (forall image,
     truthyString (practiceImage p) = Some image ->
     practiceInput p <> EmptyString ->
     let custom := practiceLesson now (practiceInput p) in
     let s' := handlePracticeInClassroom now p s in
     currentLesson s' = custom /\
     lessonQueue s' = custom :: lessonQueue s /\
     refImage s' = Some image /\
     appState s' = WAITING_FOR_USER /\
     activeTab s' = classroom /\
     isAutoMode s' = isAutoMode s /\ isMicOn s' = isMicOn s /\
     progress s' = progress s /\
     currentIndex s' = 0 /\
     handlePrevious s' = Some (s', []) /\
     handleNext s' = Some (loadLesson (hd custom (lessonQueue s)) s')).
Proof.
  split.
  - unfold handlePracticeInClassroom. intros [-> | ->]; [reflexivity |].
    now destruct (truthyString (practiceImage p)).
  - intros image Himg Hin custom s'. subst custom s'.
    unfold handlePracticeInClassroom. rewrite Himg.
    destruct (practiceInput p) as [| c r] eqn:Ei; [congruence |].
    set (custom := practiceLesson now (String c r)).
    set (s' := handleTabChange classroom _).
    assert (Hidx : currentIndex s' = 0).
    { unfold currentIndex. apply findIndex_head. apply String.eqb_refl. }
    repeat apply conj; try reflexivity.
    + exact Hidx.
    + now apply handlePrevious_first.
    + destruct (handleNext_at s' 0%nat Hidx) as (l & Hl & Hnext).
      rewrite Hnext. do 2 f_equal.
      change (lessonQueue s') with (custom :: lessonQueue s) in Hl.
      destruct (lessonQueue s) as [| first rest]; cbn [length] in Hl.
      * rewrite Nat.mod_1_r in Hl. now injection Hl as <-.
      * replace ((0 + 1) mod S (S (length rest)))%nat with 1%nat in Hl
          by (symmetry; apply Nat.mod_small; lia).
        now injection Hl as <-.
Qed.

Lemma practice_lesson_is_injected_witness :
  let p := {| practiceInput := "good morning";
              practiceImage := Some "data:image/png;base64,QUJD";
              isPracticeGenerating := false |} in
  lessonQueue (handlePracticeInClassroom 1700000000000 p (initialApp INITIAL_PROGRESS))
  = practiceLesson 1700000000000 "good morning" :: ALPHABET_LESSONS.
Proof.
  intros p.
  refine (proj1 (proj2 (proj2 (practice_lesson_is_injected 1700000000000 p
                                 (initialApp INITIAL_PROGRESS))
                          "data:image/png;base64,QUJD" eq_refl _))).
  discriminate.
Defined.

(** ** Tabs and controls *)

(** Leaving for the practice tab switches voice and auto mode off, so
    the auto-capture timer is disarmed and the capture button hidden;
    coming back does not switch them on again and the lesson, queue,
    state, feedback and progress are as they were left. *)
Lemma leaving_classroom_disarms_capture (s : App) :
  let s1 := handleTabChange practice s in
  let s2 := handleTabChange classroom s1 in
  isAutoMode s1 = false /\ isMicOn s1 = false /\
  autoCaptureArmed s1 = false /\ captureButtonShown s1 = false /\
  isAutoMode s2 = false /\ isMicOn s2 = false /\ autoCaptureArmed s2 = false /\
  activeTab s2 = classroom /\
  appState s2 = appState s /\ currentLesson s2 = currentLesson s /\
  lessonQueue s2 = lessonQueue s /\ feedback s2 = feedback s /\
  progress s2 = progress s /\ refImage s2 = refImage s /\
  handleTabChange classroom s = setActiveTab classroom s.
Proof. repeat apply conj; reflexivity. Qed.

Section Controls.

Implicit Types (s : App).

Lemma handlePrevious_loads s :
  1 <= currentIndex s -> exists l, handlePrevious s = Some (loadLesson l s).
Proof.
  intros Hpos. destruct (currentIndex_cases s) as [Hnone | [[| j] Hi]]; try lia.
  destruct (handlePrevious_at s j Hi) as (l & _ & Hl). now exists l.
Qed.

Lemma handlePrevious_noop_iff s :
  handlePrevious s = Some (s, []) <-> currentIndex s <= 0.
Proof.
  split.
  - intros Hnoop. destruct (Z.le_gt_cases (currentIndex s) 0) as [| Hpos]; [assumption |].
    destruct (handlePrevious_loads s ltac:(lia)) as (l & Hl).
    rewrite Hl in Hnoop. discriminate.
  - intros Hle. unfold handlePrevious.
    destruct (Z.leb_spec 0 (currentIndex s - 1)); [lia | reflexivity].
Qed.

End Controls.

(** The controls agree with the guards of their handlers.  Where the
    capture button is shown the auto-capture timer is not armed and a
    click with a frame starts an analysis of the current target; a
    disabled previous button does nothing, and previous does nothing
    exactly when the index of the current lesson is 0 or the lesson is
    not in the queue; a disabled send button does nothing. *)
Theorem controls_agree_with_guards (s : App) :
  (captureButtonShown s = true ->
   autoCaptureArmed s = false /\
   forall c r,
     handleCapture (Some (String c r)) s =
     (setFeedback JSON.JNull (setAppState ANALYZING s),
      [AnalyzeHandShape (target (currentLesson s)) (String c r) None])) /\
  (autoCaptureArmed s = true -> captureButtonShown s = false) /\
  (previousDisabled s = true -> handlePrevious s = Some (s, [])) /\
  (handlePrevious s = Some (s, []) <-> currentIndex s <= 0) /\
  (forall now, sentenceSubmitDisabled s = true -> handleSentenceSubmit now s = (s, [])).
Proof.
  repeat apply conj.
  - unfold captureButtonShown, autoCaptureArmed, handleCapture.
    intros H. apply andb_prop in H as [H Hstate]. apply andb_prop in H as [_ Hauto].
    apply negb_true_iff in Hauto. rewrite Hauto. split; [reflexivity |].
    intros c r. destruct (appState s) eqn:E; try discriminate; cbn;
      unfold performAnalysis; now rewrite E.
  - unfold captureButtonShown, autoCaptureArmed.
    intros H. apply andb_prop in H as [H _]. apply andb_prop in H as [Hauto _].
    rewrite Hauto. now rewrite andb_false_r.
  - unfold previousDisabled. intros H. apply Z.eqb_eq in H.
    now apply handlePrevious_first.
  - apply handlePrevious_noop_iff.
  - apply handlePrevious_noop_iff.
  - intros now. unfold sentenceSubmitDisabled, handleSentenceSubmit.
    now destruct (JS.trim (customSentence s)).
Qed.

Lemma controls_agree_with_guards_witness :
  handlePrevious (initialApp INITIAL_PROGRESS) = Some (initialApp INITIAL_PROGRESS, []).
Proof.
  exact (proj1 (proj2 (proj2 (controls_agree_with_guards (initialApp INITIAL_PROGRESS))))
           eq_refl).
Defined.

(** ** The teacher's panel *)

Section Panel.

Implicit Types (a : AppState) (feedback : JSON.json) (p : Panel).

Lemma TeacherFeedback_absent a feedback :
  TeacherFeedback a feedback = None <-> a = IDLE \/ a = GENERATING_REF.
Proof.
  destruct a; simpl; split; intros H; try discriminate; auto;
    destruct H as [H | H]; discriminate.
Qed.

(** The fields of the panel, in the states where it is rendered. *)
Lemma TeacherFeedback_rendered a feedback p :
  TeacherFeedback a feedback = Some p ->
  a <> IDLE /\ a <> GENERATING_REF /\
  retryShown p = negb (bool_decide (a = ANALYZING)) && JSON.truthy feedback
                 && negb (bool_decide (a = SUCCESS)) /\
  nextShown p = negb (bool_decide (a = ANALYZING)) && JSON.truthy feedback
                && bool_decide (a = SUCCESS) /\
  slidIn p = bool_decide (a = ANALYZING) || JSON.truthy feedback /\
  panelText p =
    if bool_decide (a = ANALYZING) then AnalyzingText
    else match feedbackMessage feedback with
         | JSON.Value m =>
             if JSON.truthy m then MessageText (messageOf m) else ReadyText
         | _ => ReadyText
         end.
Proof.
  destruct a; simpl; try discriminate; intros [= <-];
    repeat apply conj; try discriminate; reflexivity.
Qed.

Lemma spokenMessage_spec a feedback (spoken : Message) :
  spokenMessage a feedback = Some spoken <->
  (a = FEEDBACK \/ a = SUCCESS) /\
  exists m, feedbackMessage feedback = JSON.Value m /\ JSON.truthy m = true /\
            spoken = messageOf m.
Proof.
  unfold spokenMessage.
  destruct (feedbackMessage feedback) as [| | v].
  - split; [discriminate | intros (_ & m & H & _); discriminate].
  - split; [discriminate | intros (_ & m & H & _); discriminate].
  - destruct (JSON.truthy v) eqn:Ev.
    + destruct a;
        (split; [ first [ discriminate
                        | intros [= <-]; split; [auto | now exists v] ]
                | intros ([H | H] & m & [= <-] & _ & ->); try discriminate; reflexivity ]).
    + destruct a; (split; [ discriminate
                          | intros (_ & m & [= <-] & Ht & _); congruence ]).
Qed.

End Panel.

(** For a feedback whose message, when truthy, is a string.  The panel
    is absent in [IDLE] and [GENERATING_REF].  Otherwise it shows at
    most one of the retry and next buttons, next exactly in [SUCCESS]
    with feedback present, retry exactly outside [ANALYZING] and
    [SUCCESS] with feedback present, and while analyzing it shows the
    analyzing text and no button.  Its text is the analyzing text, the
    ready text or the string of the message; the string that is spoken
    is the string that is displayed, and one is spoken exactly when the
    state is [FEEDBACK] or [SUCCESS] and a message is displayed. *)
Theorem teacher_panel (a : AppState) (feedback : JSON.json) :
  textMessage feedback ->
  (TeacherFeedback a feedback = None <-> a = IDLE \/ a = GENERATING_REF) /\
  (forall p, TeacherFeedback a feedback = Some p ->
     (retryShown p && nextShown p = false) /\
     (nextShown p = true <-> a = SUCCESS /\ JSON.truthy feedback = true) /\
     (retryShown p = true <->
        a <> ANALYZING /\ a <> SUCCESS /\ JSON.truthy feedback = true) /\
     (a = ANALYZING ->
        panelText p = AnalyzingText /\ slidIn p = true /\
        retryShown p = false /\ nextShown p = false) /\
     (panelText p = AnalyzingText \/ panelText p = ReadyText \/
      exists units, panelText p = MessageText (TextMessage units)) /\
     (forall units,
        spokenMessage a feedback = Some (TextMessage units) <->
        (a = FEEDBACK \/ a = SUCCESS) /\
        panelText p = MessageText (TextMessage units))) /\
  (forall spoken, spokenMessage a feedback = Some spoken ->
     (a = FEEDBACK \/ a = SUCCESS) /\ exists units, spoken = TextMessage units).
Proof.
  intros Htext.
  split; [apply TeacherFeedback_absent |]. split.
  - intros p Hp.
    apply TeacherFeedback_rendered in Hp as (_ & _ & Hretry & Hnext & Hslid & Hpanel).
    rewrite Hretry, Hnext, Hslid, Hpanel. clear Hretry Hnext Hslid Hpanel.
    split; [| split; [| split; [| split; [| split]]]].
    + destruct (bool_decide (a = ANALYZING)), (JSON.truthy feedback),
        (bool_decide (a = SUCCESS)); reflexivity.
    + destruct (bool_decide (a = ANALYZING)) eqn:Ea, (JSON.truthy feedback) eqn:Ef,
        (bool_decide (a = SUCCESS)) eqn:Es; simpl;
        try apply bool_decide_eq_true in Ea; try apply bool_decide_eq_false in Ea;
        try apply bool_decide_eq_true in Es; try apply bool_decide_eq_false in Es;
        (split; [ intros Hx; first [discriminate Hx | split; [assumption | reflexivity]]
                | intros [Hx Hy]; first [reflexivity | congruence] ]).
    + destruct (bool_decide (a = ANALYZING)) eqn:Ea, (JSON.truthy feedback) eqn:Ef,
        (bool_decide (a = SUCCESS)) eqn:Es; simpl;
        try apply bool_decide_eq_true in Ea; try apply bool_decide_eq_false in Ea;
        try apply bool_decide_eq_true in Es; try apply bool_decide_eq_false in Es;
        (split; [ intros Hx; first [discriminate Hx | repeat split; assumption]
                | intros (Hx & Hy & Hz); first [reflexivity | congruence] ]).
    + intros ->. repeat apply conj; reflexivity.
    + destruct (bool_decide (a = ANALYZING)); [now left |].
      destruct (feedbackMessage feedback) as [| | v] eqn:Em; [now right; left ..|].
      destruct (JSON.truthy v) eqn:Ev; [| now right; left].
      destruct (Htext v Em Ev) as [units ->]. right. right. now exists units.
    + intros units. rewrite spokenMessage_spec.
      destruct (bool_decide (a = ANALYZING)) eqn:Ea.
      * apply bool_decide_eq_true in Ea. subst a.
        split; [intros ([H | H] & _); discriminate | intros (_ & H); discriminate].
      * destruct (feedbackMessage feedback) as [| | v];
          try (split; [intros (_ & m & H & _); discriminate | intros (_ & H); discriminate]).
        destruct (JSON.truthy v) eqn:Ev.
        -- split.
           ++ intros (H & m & [= <-] & _ & ->). auto.
           ++ intros (H & [= E]). split; [exact H |]. now exists v.
        -- split; [intros (_ & m & [= <-] & Ht & _); congruence
                  | intros (_ & H); discriminate].
  - intros spoken H. apply spokenMessage_spec in H as (Ha & m & Hm & Ht & ->).
    split; [exact Ha |]. destruct (Htext m Hm Ht) as [units ->]. now exists units.
Qed.

Lemma teacher_panel_witness :
  exists p,
    TeacherFeedback SUCCESS (feedbackResponse true "Well done" None) = Some p /\
    nextShown p = true /\ retryShown p = false /\
    panelText p = MessageText (TextMessage (JS.units "Well done")) /\
    spokenMessage SUCCESS (feedbackResponse true "Well done" None)
    = Some (TextMessage (JS.units "Well done")).
Proof.
  assert (Htext : textMessage (feedbackResponse true "Well done" None)).
  { intros m H _. vm_compute in H. injection H as <-. eexists. reflexivity. }
  eexists. split; [reflexivity |].
  destruct (proj1 (proj2 (teacher_panel SUCCESS (feedbackResponse true "Well done" None)
                            Htext)) _ eq_refl)
    as (_ & Hnext & _ & _ & _ & Hspoken).
  repeat apply conj.
  - apply Hnext. split; reflexivity.
  - reflexivity.
  - reflexivity.
  - apply Hspoken. split; [now right | reflexivity].
Defined.

(** A result that is not [null], has no truthy [success] and no truthy
    [message] (the empty object a response without text parses to, for
    one) puts the classroom in [FEEDBACK] with progress untouched;
    nothing is spoken and the panel shows the idle text, with the retry
    button when the result is an object or another truthy value. *)
Theorem shapeless_result_is_silent_feedback (t : string) (result : JSON.json)
    (s : App) :
  result <> JSON.JNull ->
  JSON.truthyAccess (JSON.prop "success" result) = false ->
  JSON.truthyAccess (feedbackMessage result) = false ->
  let s' := performAnalysisSettled t (Returns result) s in
  appState s' = FEEDBACK /\ feedback s' = result /\ progress s' = progress s /\
  spokenMessage (appState s') (feedback s') = None /\
  exists p,
    TeacherFeedback (appState s') (feedback s') = Some p /\
    panelText p = ReadyText /\ nextShown p = false /\
    retryShown p = JSON.truthy result.
Proof.
  intros Hnull Hsucc Hmsg s'. subst s'. unfold performAnalysisSettled.
  assert (Hstate : match JSON.prop "success" result with
                   | JSON.TypeErrorOnNull =>
                       setAppState WAITING_FOR_USER (setFeedback result s)
                   | a =>
                       if JSON.truthyAccess a
                       then setProgress (markLearned t)
                              (setProgress (addXP 50)
                                 (setAppState SUCCESS (setFeedback result s)))
                       else setAppState FEEDBACK (setFeedback result s)
                   end = setAppState FEEDBACK (setFeedback result s)).
  { destruct (JSON.prop "success" result) eqn:E.
    - destruct result; simpl in E; try discriminate; try congruence.
      now destruct (JSON.lookupMember _ _).
    - reflexivity.
    - now rewrite Hsucc. }
  rewrite Hstate. cbn [appState feedback progress setAppState setFeedback].
  repeat apply conj; try reflexivity.
  - unfold spokenMessage. destruct (feedbackMessage result) as [| | m]; try reflexivity.
    simpl in Hmsg. now rewrite Hmsg.
  - eexists. split; [reflexivity |].
    cbn [panelText nextShown retryShown bool_decide decide_rel].
    repeat apply conj.
    + destruct (feedbackMessage result) as [| | m]; try reflexivity.
      simpl in Hmsg. now rewrite Hmsg.
    + now rewrite andb_false_r.
    + cbn. now rewrite andb_true_r.
Qed.

Lemma shapeless_result_is_silent_feedback_witness :
  appState (performAnalysisSettled "A" (Returns (JSON.JObj []))
              (initialApp INITIAL_PROGRESS)) = FEEDBACK /\
  TeacherFeedback FEEDBACK (JSON.JObj [])
  = Some {| slidIn := true; isSuccessStyle := false; panelText := ReadyText;
            retryShown := true; nextShown := false |}.
Proof.
  split; [| reflexivity].
  refine (proj1 (shapeless_result_is_silent_feedback "A" (JSON.JObj [])
                   (initialApp INITIAL_PROGRESS) _ eq_refl eq_refl)).
  discriminate.
Defined.

(** ** Whole submissions *)

(** A submission without a question whose primary path throws is
    decided by the first random draw alone: on [true] the classroom
    ends in [SUCCESS] with 50 XP added and the target learned, on
    [false] in [FEEDBACK] with progress untouched, one of the three
    critiques as message and the correction prompt for the target. *)
Theorem fallback_submission_follows_the_draw (s : App) (imageSrc : string)
    (reply : Reply) (draws : Draws) :
  appState s <> ANALYZING -> appState s <> GENERATING_REF ->
  PrimaryThrows reply ->
  let t := target (currentLesson s) in
  let s' := performAnalysisRun imageSrc None
              (fun t i q => analyzeHandShape t i q reply draws) s in
  (isSuccess draws = true ->
   appState s' = SUCCESS /\
   progress s' = markLearned t (addXP 50 (progress s)) /\
   feedback s' =
   feedbackResponse true
     ("Excellent! Your shape for '" +:+ t +:+ "' looks perfect based on our simulation.")
     None) /\
  (isSuccess draws = false ->
   appState s' = FEEDBACK /\ progress s' = progress s /\
   exists m,
     In m (errors t) /\
     feedback s' =
     feedbackResponse false m
       (Some ("photorealistic hand signing ASL letter " +:+ t +:+
              " with emphasis on correct thumb placement, highlighted green outlines"))).
Proof.
  intros Ha Hg Hthrows t s'. subst s'. unfold performAnalysisRun.
  rewrite performAnalysis_accepted by (unfold busy; tauto).
  unfold settleAnalyses. cbn [fst snd fold_left].
  rewrite analyzeHandShape_fallback by assumption.
  fold t. split; intros Hdraw; unfold mockFallback; rewrite Hdraw.
  - repeat apply conj; reflexivity.
  - destruct (errorSlot draws); cbn.
    all: repeat apply conj; try reflexivity.
    all: eexists; split; [| reflexivity]; simpl; auto.
Qed.

Lemma fallback_submission_follows_the_draw_witness :
  appState
    (performAnalysisRun "data:image/jpeg;base64,AAAA" None
       (fun t i q => analyzeHandShape t i q NoClient
                       {| isSuccess := true; errorSlot := Slot0 |})
       (setAppState WAITING_FOR_USER (initialApp INITIAL_PROGRESS)))
  = SUCCESS.
Proof.
  refine (proj1 (proj1 (fallback_submission_follows_the_draw
                          (setAppState WAITING_FOR_USER (initialApp INITIAL_PROGRESS))
                          "data:image/jpeg;base64,AAAA" NoClient
                          {| isSuccess := true; errorSlot := Slot0 |}
                          _ _ missing_credentials) eq_refl)); discriminate.
Defined.

(** Success can be repeated on the same lesson: a second successful
    submission from [SUCCESS] adds 50 XP again and leaves the learned
    signs as the first left them.  The XP is a safe integer before and
    after, so that the two sums are exact. *)
Theorem repeated_success_adds_xp_again (s : App) (image1 image2 : string)
    (analyze : string -> string -> option string -> outcome JSON.json) :
  appState s <> ANALYZING -> appState s <> GENERATING_REF ->
  safeInteger (xp (progress s)) -> safeInteger (xp (progress s) + 100) ->
  (forall i, exists result,
      analyze (target (currentLesson s)) i None = Returns result /\
      JSON.prop "success" result = JSON.Value (JSON.JBool true)) ->
  let s1 := performAnalysisRun image1 None analyze s in
  let s2 := performAnalysisRun image2 None analyze s1 in
  appState s1 = SUCCESS /\ appState s2 = SUCCESS /\
  xp (progress s1) = xp (progress s) + 50 /\
  xp (progress s2) = xp (progress s) + 100 /\
  learnedSigns (progress s2) = learnedSigns (progress s1) /\
  currentLesson s2 = currentLesson s.
Proof.
  intros Ha Hg Hsafe Hsafe' Hok s1 s2.
  apply safeInteger_bounds in Hsafe. apply safeInteger_bounds in Hsafe'.
  assert (H50 : safeInteger (xp (progress s) + 50)) by (apply safeInteger_bounds; lia).
  assert (H100 : safeInteger (xp (progress s) + 50 + 50)) by (apply safeInteger_bounds; lia).
  destruct (Hok image1) as (r1 & Hr1 & Hs1).
  destruct (Hok image2) as (r2 & Hr2 & Hs2).
  assert (E1 : s1 = setProgress (markLearned (target (currentLesson s)))
                      (setProgress (addXP 50)
                         (setAppState SUCCESS
                            (setFeedback r1
                               (setFeedback JSON.JNull (setAppState ANALYZING s)))))).
  { subst s1. unfold performAnalysisRun.
    rewrite performAnalysis_accepted by (unfold busy; tauto).
    unfold settleAnalyses. cbn [fst snd fold_left]. rewrite Hr1.
    unfold performAnalysisSettled. now rewrite Hs1. }
  assert (E2 : s2 = setProgress (markLearned (target (currentLesson s)))
                      (setProgress (addXP 50)
                         (setAppState SUCCESS
                            (setFeedback r2
                               (setFeedback JSON.JNull (setAppState ANALYZING s1)))))).
  { subst s2. unfold performAnalysisRun.
    rewrite performAnalysis_accepted by (rewrite E1; unfold busy; cbn; intros [? | ?]; discriminate).
    unfold settleAnalyses. cbn [fst snd fold_left].
    replace (target (currentLesson s1)) with (target (currentLesson s)) by now rewrite E1.
    rewrite Hr2. unfold performAnalysisSettled. now rewrite Hs2. }
  rewrite E2, E1. cbn [appState progress currentLesson setProgress setAppState setFeedback].
  repeat apply conj; try reflexivity.
  - rewrite markLearned_xp. now apply addXP_xp_exact.
  - rewrite markLearned_xp, addXP_xp_exact; rewrite markLearned_xp, addXP_xp_exact;
      first [assumption | lia].
  - rewrite (markLearned_present (addXP 50 _)); [reflexivity |].
    rewrite addXP_learnedSigns. apply markLearned_includes.
Qed.

Lemma repeated_success_adds_xp_again_witness :
  let analyze := fun (_ _ : string) (_ : option string) =>
                   Returns (feedbackResponse true "Well done" None) in
  let s := setAppState WAITING_FOR_USER (initialApp INITIAL_PROGRESS) in
  xp (progress (performAnalysisRun "data:image/jpeg;base64,BBBB" None analyze
                  (performAnalysisRun "data:image/jpeg;base64,AAAA" None analyze s)))
  = 100.
Proof.
  intros analyze s.
  refine (proj1 (proj2 (proj2 (proj2 (repeated_success_adds_xp_again s
            "data:image/jpeg;base64,AAAA" "data:image/jpeg;base64,BBBB" analyze _ _ _ _ _))))).
  - discriminate.
  - discriminate.
  - apply safeInteger_bounds. cbn. lia.
  - apply safeInteger_bounds. cbn. lia.
  - intros i. eexists. split; reflexivity.
Defined.

(** The guard of [performAnalysis] looks at the state only.  After a
    submission, reloading the lesson makes the next submission
    acceptable although the first analysis has not settled; and when an
    analysis settles with success it is applied in whatever state the
    classroom then is, adding 50 XP and marking the target that was
    submitted. *)
Theorem guard_reopens_after_reload (s : App) (image1 image2 : string)
    (reply : ImageReply) :
  appState s <> ANALYZING -> appState s <> GENERATING_REF ->
  let t := target (currentLesson s) in
  let s1 := fst (performAnalysis image1 None s) in
  let s2 := loadLessonRun (currentLesson s1) reply s1 in
  snd (performAnalysis image1 None s) = [AnalyzeHandShape t image1 None] /\
  (forall image spoken, performAnalysis image spoken s1 = (s1, [])) /\
  snd (performAnalysis image2 None s2) = [AnalyzeHandShape t image2 None] /\
  (forall (late : App) result,
     JSON.prop "success" result = JSON.Value (JSON.JBool true) ->
     let s3 := performAnalysisSettled t (Returns result) late in
     appState s3 = SUCCESS /\ feedback s3 = result /\
     progress s3 = markLearned t (addXP 50 (progress late)) /\
     (safeInteger (xp (progress late) + 50) ->
      xp (progress s3) = xp (progress late) + 50) /\
     In t (learnedSigns (progress s3)) /\
     currentLesson s3 = currentLesson late).
Proof.
  intros Ha Hg t s1 s2.
  assert (E : performAnalysis image1 None s =
              (setFeedback JSON.JNull (setAppState ANALYZING s),
               [AnalyzeHandShape t image1 None]))
    by (apply performAnalysis_accepted; unfold busy; tauto).
  subst s1 s2. rewrite E. cbn [fst snd].
  repeat apply conj; try reflexivity.
  - unfold loadLessonRun.
    destruct (generateReferenceImage_returns
                (prompt (currentLesson (setFeedback JSON.JNull (setAppState ANALYZING s))))
                "1:1" reply) as (url & -> & _).
    reflexivity.
  - intros late result Hsucc. unfold performAnalysisSettled.
    rewrite Hsucc. cbn. repeat apply conj; try reflexivity.
    + intros Hsafe. rewrite markLearned_xp. now apply addXP_xp_exact.
    + apply arrayIncludes_In, markLearned_includes.
Qed.

Lemma guard_reopens_after_reload_witness :
  snd (performAnalysis "data:image/jpeg;base64,BBBB" None
         (loadLessonRun (currentLesson (initialApp INITIAL_PROGRESS)) ImageNoClient
            (fst (performAnalysis "data:image/jpeg;base64,AAAA" None
                    (setAppState WAITING_FOR_USER (initialApp INITIAL_PROGRESS))))))
  = [AnalyzeHandShape "A" "data:image/jpeg;base64,BBBB" None].
Proof.
  refine (proj1 (proj2 (proj2 (guard_reopens_after_reload
            (setAppState WAITING_FOR_USER (initialApp INITIAL_PROGRESS))
            "data:image/jpeg;base64,AAAA" "data:image/jpeg;base64,BBBB"
            ImageNoClient _ _)))); discriminate.
Defined.

(** ** Invariants of the classroom *)

Section Invariants.

Implicit Types (s : App) (e : Event).

Lemma handleNext_shape s r : handleNext s = Some r -> exists l, r = loadLesson l s.
Proof.
  unfold handleNext. destruct (index _ _) as [l |]; [| discriminate].
  intros [= <-]. now exists l.
Qed.

Lemma handlePrevious_shape s r :
  handlePrevious s = Some r -> r = (s, []) \/ exists l, r = loadLesson l s.
Proof.
  unfold handlePrevious. destruct (0 <=? currentIndex s - 1).
  - destruct (index _ _) as [l |]; [| discriminate].
    intros [= <-]. right. now exists l.
  - intros [= <-]. now left.
Qed.

(** What a voice command can do to the state. *)
Lemma processVoiceCommand_shape (transcript : string) (shot : option string) s r :
  processVoiceCommand transcript shot s = Some r ->
  let s0 := setLastSpokenCommand (Some transcript) s in
  fst r = s0 \/
  (exists l, fst r = fst (loadLesson l s0)) \/
  (exists f, fst r = setFeedback f (setAppState GENERATING_REF s0)) \/
  (exists imageSrc, fst r = fst (performAnalysis imageSrc (Some transcript) s0)).
Proof.
  rewrite processVoiceCommand_perform. intros H s0.
  destruct (interpret transcript); cbn [perform] in H.
  - destruct (handleNext _) as [r0 |] eqn:E; [| discriminate].
    injection H as <-. apply handleNext_shape in E as [l ->]. right. left. now exists l.
  - destruct (handlePrevious _) as [r0 |] eqn:E; [| discriminate].
    injection H as <-. apply handlePrevious_shape in E as [-> | [l ->]].
    + now left.
    + right. left. now exists l.
  - injection H as <-. right. left. eexists. reflexivity.
  - injection H as <-. right. right. left. eexists. reflexivity.
  - injection H as <-. destruct (truthyString shot) as [imageSrc |].
    + right. right. right. now exists imageSrc.
    + now left.
Qed.

Ltac open_handlers :=
  unfold handleCapture, autoCaptureTick, performAnalysis, startInitialLesson,
    handleRefreshImage, handleRetry, handleTabChange, handlePracticeInClassroom,
    loadLessonSettled, performAnalysisSettled, createLessonSettled, loadLesson,
    handleSentenceSubmit in *.

(** The outcomes of one step, field by field. *)
Record Frame (s s' : App) : Prop := {
  frame_queue : lessonQueue s <> [] -> lessonQueue s' <> [];
  frame_listening : appState s <> LISTENING -> appState s' <> LISTENING;
  frame_idle : appState s <> IDLE -> appState s' <> IDLE;
  frame_analyzing :
    (appState s = ANALYZING -> feedback s = JSON.JNull) ->
    appState s' = ANALYZING -> feedback s' = JSON.JNull;
  frame_success :
    (appState s = SUCCESS ->
     JSON.truthyAccess (JSON.prop "success" (feedback s)) = true) ->
    appState s' = SUCCESS ->
    JSON.truthyAccess (JSON.prop "success" (feedback s')) = true;
  frame_level : level (progress s') = level (progress s);
  frame_streak : streakDays (progress s') = streakDays (progress s);
  frame_progress :
    progress s' = progress s \/
    exists t, progress s' = markLearned t (addXP 50 (progress s))
}.

Lemma markLearned_level (t : string) (p : StudentProgress) :
  level (markLearned t p) = level p /\ streakDays (markLearned t p) = streakDays p.
Proof. unfold markLearned. now destruct (arrayIncludes _ _). Qed.

Lemma frame_refl s : Frame s s.
Proof. constructor; auto. Qed.

Ltac frame_by_computation :=
  constructor; cbn; try tauto; try congruence; try discriminate; auto.

Lemma frame_performAnalysis s imageSrc spoken : Frame s (fst (performAnalysis imageSrc spoken s)).
Proof. unfold performAnalysis. destruct (appState s) eqn:E; frame_by_computation. Qed.

Lemma frame_loadLesson s0 s l :
  lessonQueue s0 = lessonQueue s -> progress s0 = progress s ->
  Frame s (fst (loadLesson l s0)).
Proof. intros Hq Hp. constructor; cbn; rewrite ?Hq, ?Hp; try tauto; try discriminate; auto. Qed.

Lemma frame_settled s t (o : outcome JSON.json) : Frame s (performAnalysisSettled t o s).
Proof.
  unfold performAnalysisSettled. destruct o as [result | e].
  - destruct (JSON.prop "success" result) as [| | v] eqn:Ep.
    + frame_by_computation.
    + frame_by_computation.
    + cbn [JSON.truthyAccess]. destruct (JSON.truthy v) eqn:Ev.
      * constructor; cbn; try tauto; try discriminate; auto.
        -- intros _ _. now rewrite Ep.
        -- now rewrite (proj1 (markLearned_level t _)).
        -- now rewrite (proj2 (markLearned_level t _)).
        -- right. now exists t.
      * frame_by_computation.
  - frame_by_computation.
Qed.

(** The one step that is outside the frame: the image request of a
    prompt that is no string rejects, and [loadLesson] sets [IDLE]. *)
Definition imageRejected (s : App) (e : Event) (s' : App) : Prop :=
  exists reply err,
    e = ImageSettledNoString reply /\ imagePrimary reply = Throws err /\
    s' = setAppState IDLE s.

Lemma step_frame s e s' : step s e = Some s' -> Frame s s' \/ imageRejected s e s'.
Proof.
  destruct e as [ | screenshot | screenshot | transcript screenshot | text | now | | | | | tab | | | now p | | imagePrompt reply | t i q reply draws | newLesson | reply ];
    cbn [step]; intros H;
    [left | left | left | left | left | left | left | left | left | left | left
    | left | left | left | left | left | left | left | ].
  - injection H as <-. unfold startInitialLesson.
    destruct (activeTab s), (truthyString (refImage s)); cbn [ALPHABET_LESSONS];
      first [apply frame_refl | now apply frame_loadLesson].
  - injection H as <-. unfold handleCapture.
    destruct (negb _); [apply frame_refl |].
    destruct (truthyString screenshot); [apply frame_performAnalysis | apply frame_refl].
  - injection H as <-. unfold autoCaptureTick.
    destruct (truthyString screenshot); [apply frame_performAnalysis | apply frame_refl].
  - destruct (processVoiceCommand transcript screenshot s) as [r |] eqn:E; [| discriminate].
    injection H as <-.
    apply processVoiceCommand_shape in E as [-> | [[l ->] | [[f ->] | [img ->]]]].
    + frame_by_computation.
    + now apply frame_loadLesson.
    + frame_by_computation.
    + unfold performAnalysis. cbn [appState setLastSpokenCommand].
      destruct (appState s) eqn:Ea; frame_by_computation.
  - injection H as <-. frame_by_computation.
  - injection H as <-. unfold handleSentenceSubmit.
    destruct (JS.trim (customSentence s)); [apply frame_refl |].
    destruct (sentenceLessons now (customSentence s)); [apply frame_refl |].
    frame_by_computation.
  - destruct (handleNext s) as [r |] eqn:E; [| discriminate]. injection H as <-.
    apply handleNext_shape in E as [l ->]. now apply frame_loadLesson.
  - destruct (handlePrevious s) as [r |] eqn:E; [| discriminate]. injection H as <-.
    apply handlePrevious_shape in E as [-> | [l ->]];
      [apply frame_refl | now apply frame_loadLesson].
  - injection H as <-. now apply frame_loadLesson.
  - injection H as <-. frame_by_computation.
  - injection H as <-. destruct tab; frame_by_computation.
  - injection H as <-. frame_by_computation.
  - injection H as <-. frame_by_computation.
  - injection H as <-. unfold handlePracticeInClassroom.
    destruct (truthyString (practiceImage p)); [| apply frame_refl].
    destruct (practiceInput p); [apply frame_refl |]. frame_by_computation.
  - injection H as <-. frame_by_computation.
  - injection H as <-.
    destruct (generateReferenceImage_returns imagePrompt "1:1" reply) as (url & -> & _).
    frame_by_computation.
  - injection H as <-. apply frame_settled.
  - injection H as <-. cbn [createLessonSettled].
    constructor; cbn; try tauto; try discriminate; auto.
    intros _. now destruct (lessonQueue s).
  - injection H as <-. unfold generateReferenceImageNoString.
    destruct (imagePrimary reply) as [url | err] eqn:E.
    + left. frame_by_computation.
    + right. now exists reply, err.
Qed.

(** A step is refused only when next loads from an empty queue. *)
Lemma step_defined s e : lessonQueue s <> [] -> exists s', step s e = Some s'.
Proof.
  intros Hq.
  destruct e as [ | screenshot | screenshot | transcript screenshot | text | now | | | | | tab | | | now p | | imagePrompt reply | t i q reply draws | newLesson | reply ];
    cbn [step]; try (eexists; reflexivity).
  - rewrite processVoiceCommand_perform.
    destruct (interpret transcript); cbn [perform]; try (eexists; reflexivity).
    + destruct (handleNext_defined (setLastSpokenCommand (Some transcript) s) Hq) as [l ->].
      eexists. reflexivity.
    + destruct (handlePrevious_defined (setLastSpokenCommand (Some transcript) s)) as [r ->].
      eexists. reflexivity.
  - destruct (handleNext_defined s Hq) as [l ->]. eexists. reflexivity.
  - destruct (handlePrevious_defined s) as [r ->]. eexists. reflexivity.
Qed.

(** What a step can do to the two switches. *)
Lemma step_switches s e s' :
  step s e = Some s' ->
  e <> ToggleAuto -> e <> ToggleMic ->
  (isAutoMode s' = isAutoMode s /\ isMicOn s' = isMicOn s) \/
  (e = ClickTab practice /\ isAutoMode s' = false /\ isMicOn s' = false).
Proof.
  intros H Hauto Hmic.
  destruct e as [ | screenshot | screenshot | transcript screenshot | text | now | | | | | tab | | | now p | | imagePrompt reply | t i q reply draws | newLesson | reply ];
    cbn [step] in H; try congruence.
  - injection H as <-. left. unfold startInitialLesson.
    now destruct (activeTab s), (truthyString (refImage s)).
  - injection H as <-. left. unfold handleCapture, performAnalysis.
    destruct (negb _); [auto |].
    destruct (truthyString screenshot); [| auto]. now destruct (appState s).
  - injection H as <-. left. unfold autoCaptureTick, performAnalysis.
    destruct (truthyString screenshot); [| auto]. now destruct (appState s).
  - destruct (processVoiceCommand transcript screenshot s) as [r |] eqn:E; [| discriminate].
    injection H as <-. left.
    apply processVoiceCommand_shape in E as [-> | [[l ->] | [[f ->] | [img ->]]]]; auto.
    unfold performAnalysis. cbn [appState setLastSpokenCommand]. now destruct (appState s).
  - injection H as <-. now left.
  - injection H as <-. left. unfold handleSentenceSubmit.
    destruct (JS.trim (customSentence s)); [auto |].
    now destruct (sentenceLessons now (customSentence s)).
  - destruct (handleNext s) as [r |] eqn:E; [| discriminate]. injection H as <-.
    apply handleNext_shape in E as [l ->]. now left.
  - destruct (handlePrevious s) as [r |] eqn:E; [| discriminate]. injection H as <-.
    apply handlePrevious_shape in E as [-> | [l ->]]; now left.
  - injection H as <-. now left.
  - injection H as <-. now left.
  - injection H as <-. destruct tab; [now left | right; auto].
  - injection H as <-. left. unfold handlePracticeInClassroom.
    destruct (truthyString (practiceImage p)); [| auto]. now destruct (practiceInput p).
  - injection H as <-. now left.
  - injection H as <-. left.
    now destruct (generateReferenceImage imagePrompt "1:1" reply).
  - injection H as <-. left. unfold performAnalysisSettled.
    destruct (analyzeHandShape _ _ _ _ _) as [result | ex]; [| auto].
    destruct (JSON.prop "success" result) as [| | v]; auto.
    cbn [JSON.truthyAccess]. now destruct (JSON.truthy v).
  - injection H as <-. now left.
  - injection H as <-. left.
    now destruct (generateReferenceImageNoString reply).
Qed.

Lemma reachable_frame (saved : StudentProgress) s :
  reachable saved s ->
  lessonQueue s <> [] /\
  appState s <> LISTENING /\
  (appState s = ANALYZING -> feedback s = JSON.JNull) /\
  (appState s = SUCCESS -> JSON.truthyAccess (JSON.prop "success" (feedback s)) = true) /\
  level (progress s) = level saved /\
  streakDays (progress s) = streakDays saved.
Proof.
  induction 1 as [| s e s' _ IH Hstep].
  - repeat apply conj; try discriminate; auto.
  - destruct IH as (Hq & Hl & Ha & Hs & Hlev & Hstr).
    apply step_frame in Hstep as [[] | (reply & err & _ & _ & ->)].
    + repeat apply conj; auto; congruence.
    + repeat apply conj; cbn; auto; discriminate.
Qed.

End Invariants.

(** Whatever happens in the classroom, the lesson queue never becomes
    empty, so no handler ever loads an undefined lesson: every event has
    a next state. *)
Theorem classroom_never_loads_an_undefined_lesson (saved : StudentProgress)
    (s : App) :
  reachable saved s ->
  lessonQueue s <> [] /\
  (exists l, handleNext s = Some (loadLesson l s)) /\
  (forall e, exists s', step s e = Some s' /\ reachable saved s').
Proof.
  intros Hr. destruct (reachable_frame saved s Hr) as (Hq & _).
  repeat apply conj.
  - exact Hq.
  - now apply handleNext_defined.
  - intros e. destruct (step_defined s e Hq) as [s' Hs'].
    exists s'. split; [exact Hs' |]. now apply (reachable_step saved s e).
Qed.

Lemma classroom_never_loads_an_undefined_lesson_witness :
  exists l,
    handleNext (fst (handleSentenceSubmit (fun _ => 1700000000000)
                       (setCustomSentence "hi" (initialApp INITIAL_PROGRESS))))
    = Some (loadLesson l
              (fst (handleSentenceSubmit (fun _ => 1700000000000)
                      (setCustomSentence "hi" (initialApp INITIAL_PROGRESS))))).
Proof.
  apply (classroom_never_loads_an_undefined_lesson INITIAL_PROGRESS).
  apply (reachable_step INITIAL_PROGRESS
           (setCustomSentence "hi" (initialApp INITIAL_PROGRESS))
           (SubmitSentence (fun _ => 1700000000000))); [| reflexivity].
  apply (reachable_step INITIAL_PROGRESS (initialApp INITIAL_PROGRESS)
           (TypeSentence "hi")); [| reflexivity].
  apply reachable_initial.
Defined.

(** The state [LISTENING] is never entered.  [IDLE] is the state the
    classroom starts in; once it has left [IDLE], the only event that
    brings it back is the rejection of an image request whose prompt is
    no string (which the lesson built from a model's answer can have):
    the state then becomes [IDLE] and nothing else changes, so the
    reference image and the feedback of before are still held.  The
    request for a prompt that is a string never rejects and always ends
    in [WAITING_FOR_USER]. *)
Theorem listening_never_idle_only_by_rejected_image
    (saved : StudentProgress) (s : App) :
  reachable saved s ->
  appState s <> LISTENING /\
  (forall e s',
     step s e = Some s' -> appState s <> IDLE -> appState s' = IDLE ->
     exists reply err,
       e = ImageSettledNoString reply /\ imagePrimary reply = Throws err /\
       refImage s' = refImage s /\ feedback s' = feedback s /\
       currentLesson s' = currentLesson s /\ lessonQueue s' = lessonQueue s) /\
  (forall reply err,
     imagePrimary reply = Throws err ->
     exists s', step s (ImageSettledNoString reply) = Some s' /\ appState s' = IDLE) /\
  (forall text reply,
     exists s', step s (ImageSettled text reply) = Some s' /\
                appState s' = WAITING_FOR_USER).
Proof.
  intros Hr. destruct (reachable_frame saved s Hr) as (_ & Hl & _).
  repeat apply conj; [exact Hl | | |].
  - intros e s' Hstep Hs Hs'.
    apply step_frame in Hstep as [[] | (reply & err & -> & Herr & ->)];
      [now destruct (frame_idle0 Hs) |].
    exists reply, err. repeat apply conj; reflexivity || assumption.
  - intros reply err Herr. eexists. split; [reflexivity |].
    unfold generateReferenceImageNoString. now rewrite Herr.
  - intros text reply. eexists. split; [reflexivity |].
    now destruct (generateReferenceImage_returns text "1:1" reply) as (url & -> & _).
Qed.

Lemma listening_never_idle_only_by_rejected_image_witness :
  let s := loadLessonRun (currentLesson (initialApp INITIAL_PROGRESS)) ImageNoClient
             (initialApp INITIAL_PROGRESS) in
  exists s',
    step s (ImageSettledNoString ImageNoClient) = Some s' /\
    appState s = WAITING_FOR_USER /\ appState s' = IDLE /\
    refImage s' = Some "https://placehold.co/800x800/1e293b/FFF?text=ASL+Sign:+A".
Proof.
  intros s.
  assert (Hr : reachable INITIAL_PROGRESS s).
  { apply (reachable_step INITIAL_PROGRESS
             (fst (handleRefreshImage (initialApp INITIAL_PROGRESS)))
             (ImageSettled (prompt (currentLesson (initialApp INITIAL_PROGRESS)))
                ImageNoClient)); [| reflexivity].
    apply (reachable_step INITIAL_PROGRESS (initialApp INITIAL_PROGRESS) ClickRefresh);
      [apply reachable_initial | reflexivity]. }
  destruct (listening_never_idle_only_by_rejected_image INITIAL_PROGRESS s Hr)
    as (_ & _ & Hrej & _).
  destruct (Hrej ImageNoClient _ eq_refl) as (s' & Hstep & Hidle).
  exists s'. repeat apply conj; [exact Hstep | reflexivity | exact Hidle |].
  injection Hstep as <-. reflexivity.
Defined.

(** While the classroom is [ANALYZING] no feedback is held, so the
    panel shows the analyzing text over nothing stale; and in [SUCCESS]
    the feedback held has a truthy [success], so the panel offers the
    next button and not the retry button. *)
Theorem analyzing_holds_no_feedback_success_offers_next
    (saved : StudentProgress) (s : App) :
  reachable saved s ->
  (appState s = ANALYZING -> feedback s = JSON.JNull) /\
  (appState s = SUCCESS ->
   JSON.truthyAccess (JSON.prop "success" (feedback s)) = true /\
   exists p,
     TeacherFeedback (appState s) (feedback s) = Some p /\
     nextShown p = true /\ retryShown p = false).
Proof.
  intros Hr. destruct (reachable_frame saved s Hr) as (_ & _ & Ha & Hs & _).
  split; [exact Ha |].
  intros Hsucc. specialize (Hs Hsucc). split; [exact Hs |].
  rewrite Hsucc. eexists. split; [reflexivity |].
  cbn [nextShown retryShown bool_decide decide_rel].
  assert (Ht : JSON.truthy (feedback s) = true).
  { destruct (feedback s); simpl in Hs; try discriminate; reflexivity. }
  rewrite Ht. split; reflexivity.
Qed.

Lemma analyzing_holds_no_feedback_success_offers_next_witness :
  feedback (fst (autoCaptureTick (Some "data:image/jpeg;base64,AAAA")
                   (initialApp INITIAL_PROGRESS))) = JSON.JNull.
Proof.
  refine (proj1 (analyzing_holds_no_feedback_success_offers_next INITIAL_PROGRESS
                   (fst (autoCaptureTick (Some "data:image/jpeg;base64,AAAA")
                           (initialApp INITIAL_PROGRESS))) _) eq_refl).
  apply (reachable_step INITIAL_PROGRESS (initialApp INITIAL_PROGRESS)
           (AutoCaptureTick (Some "data:image/jpeg;base64,AAAA")));
    [apply reachable_initial | reflexivity].
Defined.

Lemma additions_exact (x : Z) (k : nat) :
  safeInteger x -> safeInteger (x + 50 * Z.of_nat k) ->
  Nat.iter k (fun y => numberAdd y 50) x = x + 50 * Z.of_nat k.
Proof.
  intros Hx. induction k as [| k IH]; intros Hk; [simpl; lia |].
  apply safeInteger_bounds in Hx. pose proof (proj1 (safeInteger_bounds _) Hk) as Bk.
  rewrite Nat.iter_succ, IH by (apply safeInteger_bounds; lia).
  rewrite numberAdd_exact; [lia |].
  apply safeInteger_bounds. lia.
Qed.

(** Only a successful analysis touches the progress record, and it only
    adds 50 XP and at most one learned sign: in every state the level
    and the streak are those of the record loaded at start, the XP is
    the loaded XP after some number [k] of additions of 50 (which is the
    loaded XP plus [50 * k] as long as that is a safe integer), the
    loaded signs head the learned list, and a list without repetition
    stays so. *)
Theorem progress_only_grows_by_successes (saved : StudentProgress) (s : App) :
  reachable saved s ->
  level (progress s) = level saved /\
  streakDays (progress s) = streakDays saved /\
  (exists k : nat,
     xp (progress s) = Nat.iter k (fun y => numberAdd y 50) (xp saved) /\
     (safeInteger (xp saved) -> safeInteger (xp saved + 50 * Z.of_nat k) ->
      xp (progress s) = xp saved + 50 * Z.of_nat k)) /\
  (exists more, learnedSigns (progress s) = learnedSigns saved ++ more) /\
  (NoDup (learnedSigns saved) -> NoDup (learnedSigns (progress s))).
Proof.
  intros Hr.
  destruct (reachable_frame saved s Hr) as (_ & _ & _ & _ & Hlev & Hstr).
  split; [exact Hlev |]. split; [exact Hstr |].
  clear Hlev Hstr.
  assert (H : (exists k : nat,
                 xp (progress s) = Nat.iter k (fun y => numberAdd y 50) (xp saved)) /\
              (exists more, learnedSigns (progress s) = learnedSigns saved ++ more) /\
              (NoDup (learnedSigns saved) -> NoDup (learnedSigns (progress s)))).
  { induction Hr as [| s e s' _ IH Hstep].
    - repeat apply conj.
      + now exists 0%nat.
      + exists []. simpl. now rewrite app_nil_r.
      + auto.
    - destruct IH as ((k & Hk) & (more & Hmore) & Hnd).
      apply step_frame in Hstep as [[] | (reply & err & _ & _ & ->)];
        [| repeat apply conj; eauto].
      destruct frame_progress0 as [-> | [t ->]].
      + repeat apply conj; eauto.
      + repeat apply conj.
        * exists (S k). rewrite markLearned_xp, Nat.iter_succ. cbn [xp addXP]. now rewrite Hk.
        * destruct (arrayIncludes (learnedSigns (addXP 50 (progress s))) t) eqn:E.
          -- rewrite markLearned_present by assumption. now exists more.
          -- rewrite markLearned_absent by assumption. cbn [learnedSigns addXP].
             exists (more ++ [t]). now rewrite Hmore, app_assoc.
        * intros H. apply markLearned_NoDup. cbn [learnedSigns addXP]. auto. }
  destruct H as ((k & Hk) & Hmore & Hnd).
  repeat apply conj; [| exact Hmore | exact Hnd].
  exists k. split; [exact Hk |].
  intros Hsafe Hsafe'. rewrite Hk. now apply additions_exact.
Qed.

Lemma progress_only_grows_by_successes_witness :
  let s := performAnalysisSettled "A"
             (analyzeHandShape "A" "data:image/jpeg;base64,AAAA" None NoClient
                {| isSuccess := true; errorSlot := Slot0 |})
             (initialApp INITIAL_PROGRESS) in
  xp (progress s) = 50 /\ level (progress s) = Beginner /\ streakDays (progress s) = 1.
Proof.
  intros s.
  assert (Hr : reachable INITIAL_PROGRESS s).
  { apply (reachable_step INITIAL_PROGRESS (initialApp INITIAL_PROGRESS)
             (AnalysisSettled "A" "data:image/jpeg;base64,AAAA" None NoClient
                {| isSuccess := true; errorSlot := Slot0 |}));
      [apply reachable_initial | reflexivity]. }
  destruct (progress_only_grows_by_successes INITIAL_PROGRESS s Hr) as (Hl & Hs & _).
  split; [reflexivity | split; [exact Hl | exact Hs]].
Defined.

(** No handler but the two toggles switches auto mode or the microphone
    on: every other event leaves both switches as they are, except the
    change to the practice tab, which switches both off. *)
Theorem only_the_toggles_switch_on (s : App) (e : Event) (s' : App) :
  step s e = Some s' ->
  (e = ToggleAuto /\ isAutoMode s' = negb (isAutoMode s) /\ isMicOn s' = isMicOn s) \/
  (e = ToggleMic /\ isMicOn s' = negb (isMicOn s) /\ isAutoMode s' = isAutoMode s) \/
  (e = ClickTab practice /\ isAutoMode s' = false /\ isMicOn s' = false /\
   autoCaptureArmed s' = false) \/
  (isAutoMode s' = isAutoMode s /\ isMicOn s' = isMicOn s).
Proof.
  intros Hstep.
  assert (Hother : e <> ToggleAuto -> e <> ToggleMic ->
            (e = ClickTab practice /\ isAutoMode s' = false /\ isMicOn s' = false /\
             autoCaptureArmed s' = false) \/
            (isAutoMode s' = isAutoMode s /\ isMicOn s' = isMicOn s)).
  { intros Hauto Hmic.
    destruct (step_switches s e s' Hstep Hauto Hmic) as [H | (He & Ha & Hm)].
    - now right.
    - left. repeat apply conj; auto. unfold autoCaptureArmed. now rewrite Ha. }
  destruct e; try (right; right; apply Hother; discriminate).
  - left. injection Hstep as <-. auto.
  - right. left. injection Hstep as <-. auto.
Qed.

Lemma only_the_toggles_switch_on_witness :
  isAutoMode (handleTabChange practice
                (setIsAutoMode true (initialApp INITIAL_PROGRESS))) = false.
Proof.
  destruct (only_the_toggles_switch_on
              (setIsAutoMode true (initialApp INITIAL_PROGRESS))
              (ClickTab practice) _ eq_refl)
    as [(He & _) | [(He & _) | [(_ & Ha & _) | (Ha & _)]]];
    [discriminate He | discriminate He | exact Ha | discriminate Ha].
Defined.

(** ** Identifiers of the lessons of a sentence

    [handleSentenceSubmit] names lesson [index] [seq-<Date.now()>-<index>].
    Navigation finds the current lesson by identifier, so the queue is
    walked in order only if the identifiers differ; they do, whatever
    the clock returns, because the index is the part after the last
    dash. *)


Fixpoint dashFree (s : string) : bool :=
  match s with
  | EmptyString => true
  | String c r => negb (Ascii.eqb c "-") && dashFree r
  end.

Lemma dashFree_app a b : dashFree (a +:+ b) = dashFree a && dashFree b.
Proof.
  induction a as [| c a IH]; [reflexivity |].
  rewrite append_cons. cbn [dashFree]. rewrite IH. now rewrite andb_assoc.
Qed.

Lemma last_dash_splits (a a' d d' : string) :
  dashFree d = true -> dashFree d' = true ->
  a +:+ String "-" d = a' +:+ String "-" d' -> d = d'.
Proof.
  intros Hd Hd'. revert a'.
  induction a as [| c a IH]; intros [| c' a']; rewrite ?append_nil, ?append_cons.
  - congruence.
  - intros [= <- ->]. rewrite dashFree_app in Hd. cbn in Hd.
    rewrite andb_false_r in Hd. discriminate.
  - intros [= -> <-]. rewrite dashFree_app in Hd'. cbn in Hd'.
    rewrite andb_false_r in Hd'. discriminate.
  - intros [= _ H]. now apply IH in H.
Qed.

Lemma string_of_uint_dashFree (d : Decimal.uint) : dashFree (NilEmpty.string_of_uint d) = true.
Proof. induction d; cbn; auto. Qed.

Lemma showNat_dashFree (n : nat) : dashFree (JS.showNat n) = true.
Proof.
  unfold JS.showNat, JS.showZ.
  destruct (Z.of_nat n) eqn:E; try lia.
  - reflexivity.
  - cbn [Z.to_int NilZero.string_of_int NilZero.string_of_uint].
    destruct (Pos.to_uint p); try reflexivity; apply string_of_uint_dashFree.
Qed.

Lemma showZ_inj (x y : Z) : JS.showZ x = JS.showZ y -> x = y.
Proof.
  unfold JS.showZ. intros H. apply DecimalZ.to_int_inj.
  assert (Hi : forall z, NilZero.int_of_string (NilZero.string_of_int (Z.to_int z))
                         = Some (Z.to_int z)).
  { intros z. apply NilZero.isi; destruct z; cbn; try discriminate;
      intros [= E]; now apply DecimalPos.Unsigned.to_uint_nonnil in E. }
  apply (f_equal NilZero.int_of_string) in H. rewrite !Hi in H. congruence.
Qed.

Lemma showNat_inj (i j : nat) : JS.showNat i = JS.showNat j -> i = j.
Proof. unfold JS.showNat. intros H. apply showZ_inj in H. lia. Qed.

Definition sequenceId (now : nat -> Z) (i : nat) : string :=
  "seq-" +:+ JS.showZ (now i) +:+ "-" +:+ JS.showNat i.

Lemma sequenceId_inj (now now' : nat -> Z) (i j : nat) :
  sequenceId now i = sequenceId now' j -> i = j.
Proof.
  unfold sequenceId. intros H. apply showNat_inj.
  rewrite !append_cons, !append_nil in H.
  apply (last_dash_splits ("seq-" +:+ JS.showZ (now i)) ("seq-" +:+ JS.showZ (now' j)));
    [apply showNat_dashFree | apply showNat_dashFree |].
  rewrite !append_cons, !append_nil. exact H.
Qed.

Section SentenceIds.
Variable now : nat -> Z.

Lemma ids_from (total k : nat) (tokens : list string) (l : Lesson) :
  l ∈ omap (fun x => x) (imap (fun i => wordLesson now total (k + i)) tokens) ->
  exists i, (k <= i)%nat /\ id l = sequenceId now i.
Proof.
  intros Hin. apply list_elem_of_omap in Hin as (o & Ho & Hl).
  apply list_elem_of_lookup in Ho as [i Hi].
  rewrite list_lookup_imap in Hi.
  destruct (tokens !! i) as [w |]; [| discriminate].
  injection Hi as <-. apply wordLesson_Some in Hl as (_ & _ & _ & Hid).
  exists (k + i)%nat. split; [lia | exact Hid].
Qed.

Lemma ids_NoDup_from (total k : nat) (tokens : list string) :
  NoDup (map id (omap (fun x => x) (imap (fun i => wordLesson now total (k + i)) tokens))).
Proof.
  revert k. induction tokens as [| w tokens IH]; intros k; [constructor |].
  cbn [imap omap].
  assert (Htail :
    imap ((fun i => wordLesson now total (k + i)) ∘ S) tokens
    = imap (fun i => wordLesson now total (S k + i)) tokens).
  { apply imap_ext. intros i x _. simpl. f_equal. lia. }
  rewrite Htail.
  destruct (wordLesson now total (k + 0) w) as [l |] eqn:E.
  - cbn [omap list_omap map].
    change (list_omap _ _) with (@omap list _ (option Lesson) Lesson).
    apply NoDup_cons. split; [| apply IH].
    intros Hin. apply list_elem_of_fmap in Hin as (l' & Hid & Hl').
    apply ids_from in Hl' as (i & Hi & Hid').
    apply wordLesson_Some in E as (_ & _ & _ & Hl).
    fold (sequenceId now (k + 0)) in Hl.
    rewrite Hl, Hid' in Hid. apply sequenceId_inj in Hid. lia.
  - cbn [omap list_omap].
    change (list_omap _ _) with (@omap list _ (option Lesson) Lesson).
    apply IH.
Qed.

Lemma sentenceLessons_ids_NoDup (sentence : string) :
  NoDup (map id (sentenceLessons now sentence)).
Proof.
  unfold sentenceLessons. cbv zeta.
  rewrite (imap_ext _ (fun i => wordLesson now (length (JS.splitWs (JS.trim sentence))) (0 + i)));
    [apply ids_NoDup_from | reflexivity].
Qed.

End SentenceIds.

Lemma findIndex_NoDup (q : list Lesson) (k : nat) (l : Lesson) (x : string) :
  NoDup (map id q) -> q !! k = Some l -> x = id l ->
  findIndex (fun y => String.eqb (id y) x) q = Z.of_nat k.
Proof.
  intros Hnd Hk ->. unfold findIndex.
  assert (H : list_find (fun y => String.eqb (id y) (id l) = true) q = Some (k, l)).
  { apply list_find_Some. repeat split; [assumption | apply String.eqb_refl |].
    intros j y Hj Hlt Heq. apply String.eqb_eq in Heq.
    assert (j = k); [| lia].
    eapply NoDup_lookup; [exact Hnd | |]; rewrite list_lookup_fmap.
    - rewrite Hj. reflexivity.
    - rewrite Hk. cbn. now rewrite Heq. }
  now rewrite H.
Qed.

(** The lessons [handleSentenceSubmit] makes from one sentence have
    pairwise distinct identifiers, even when the clock does not advance
    between two words.  Hence, while the queue is the one of a sentence
    and the current lesson is its entry [k], [findIndex] returns [k]:
    [handleNext] loads entry [(k + 1) mod length], [handlePrevious]
    loads entry [k - 1], and does nothing at the first entry. *)
Theorem sentence_queue_is_walked_in_order
    (now : nat -> Z) (sentence : string) (s : App) (k : nat) (l : Lesson) :
  lessonQueue s = sentenceLessons now sentence ->
  lessonQueue s !! k = Some l ->
  id (currentLesson s) = id l ->
  NoDup (map id (lessonQueue s)) /\
  currentIndex s = Z.of_nat k /\
  (exists l', lessonQueue s !! ((k + 1) mod length (lessonQueue s))%nat = Some l' /\
              handleNext s = Some (loadLesson l' s)) /\
  (forall j, k = S j ->
     exists l', lessonQueue s !! j = Some l' /\
                handlePrevious s = Some (loadLesson l' s)) /\
  (k = 0%nat -> handlePrevious s = Some (s, [])).
Proof.
  intros Hq Hk Hid.
  assert (Hnd : NoDup (map id (lessonQueue s)))
    by (rewrite Hq; apply sentenceLessons_ids_NoDup).
  assert (Hi : currentIndex s = Z.of_nat k)
    by (unfold currentIndex; now apply (findIndex_NoDup _ k l)).
  split; [exact Hnd |]. split; [exact Hi |]. split; [| split].
  - now apply handleNext_at.
  - intros j ->. now apply handlePrevious_at.
  - intros ->. now apply handlePrevious_first.
Qed.

Lemma sentence_queue_is_walked_in_order_witness :
  let s := fst (handleSentenceSubmit (fun _ => 1700000000000)
                  (setCustomSentence "go to bed" (initialApp INITIAL_PROGRESS))) in
  map id (lessonQueue s)
  = ["seq-1700000000000-0"; "seq-1700000000000-1"; "seq-1700000000000-2"] /\
  currentIndex s = 0 /\
  handlePrevious s = Some (s, []).
Proof.
  intros s.
  destruct (sentence_queue_is_walked_in_order (fun _ => 1700000000000) "go to bed" s 0
              (currentLesson s) eq_refl eq_refl eq_refl) as (_ & Hi & _ & _ & Hp).
  split; [reflexivity |]. split; [exact Hi | exact (Hp eq_refl)].
Defined.

(** ** Saving and reloading the progress *)

Section RoundTrip.
Import JSON.

Lemma stringBodyIn_quoteUnit (c : ascii) (n : nat) (tail : list ascii) :
  stringBodyIn (S n) (quoteUnit c ++ tail) =
  match stringBodyIn n tail with
  | Some (us, rest) => Some (JS.code c :: us, rest)
  | None => None
  end.
Proof. destruct c as [[] [] [] [] [] [] [] []]; reflexivity. Qed.

Lemma length_quoteUnit (c : ascii) : (1 <= length (quoteUnit c))%nat.
Proof. destruct c as [[] [] [] [] [] [] [] []]; vm_compute; lia. Qed.

Lemma stringBodyIn_quoted (cs rest : list ascii) (n : nat) :
  (length cs < n)%nat ->
  stringBodyIn n (flat_map quoteUnit cs ++ quote :: rest) = Some (map JS.code cs, rest).
Proof.
  revert n. induction cs as [| c cs IH]; intros n Hn.
  - destruct n; [lia | reflexivity].
  - destruct n as [| n]; [lia |]. cbn [flat_map map].
    rewrite <- app_assoc, stringBodyIn_quoteUnit, IH by (simpl in Hn; lia).
    reflexivity.
Qed.

Lemma length_quoted (cs : list ascii) : (length cs <= length (flat_map quoteUnit cs))%nat.
Proof.
  induction cs as [| c cs IH]; [reflexivity |].
  cbn [flat_map]. rewrite length_app. pose proof (length_quoteUnit c). simpl. lia.
Qed.

Lemma stringBody_quoted (cs rest : list ascii) :
  stringBody (flat_map quoteUnit cs ++ quote :: rest) = Some (map JS.code cs, rest).
Proof.
  unfold stringBody. apply stringBodyIn_quoted.
  rewrite length_app. pose proof (length_quoted cs). simpl. lia.
Qed.

Lemma parseValue_string (f : nat) (s : string) (rest : list ascii) :
  parseValue (S f) (quoteJSONString s ++ rest) = POk (str s) rest.
Proof.
  unfold quoteJSONString. cbn [app]. rewrite <- app_assoc. cbn [app].
  change (parseValue (S f) (quote :: ?x)) with
    (match stringBody x with Some (us, r) => POk (JStr us) r | None => PErr end).
  now rewrite stringBody_quoted.
Qed.


(** What may follow a number literal in the output of [stringify]. *)
Definition closes (rest : list ascii) : Prop :=
  exists r, rest = ","%char :: r \/ rest = "}"%char :: r.

Lemma digits_step (d : ascii) (a count : Z) (s : list ascii) :
  JS.isDigit d = true ->
  digits a count (d :: s) = digits (10 * a + digitVal d) (count + 1) s.
Proof. intros H. cbn [digits]. now rewrite H. Qed.

Lemma digits_of_uint (l : Decimal.uint) (acc : positive) (count : Z) (rest : list ascii) :
  closes rest ->
  exists k,
    digits (Z.pos acc) count (list_ascii_of_string (NilEmpty.string_of_uint l) ++ rest)
    = (Z.pos (Pos.of_uint_acc l acc), k, rest).
Proof.
  intros Hrest. revert acc count.
  induction l as [| l IH | l IH | l IH | l IH | l IH | l IH | l IH | l IH | l IH | l IH];
    intros acc count;
    cbn [NilEmpty.string_of_uint list_ascii_of_string app Pos.of_uint_acc].
  1: destruct Hrest as [r [-> | ->]]; exists count; reflexivity.
  all: rewrite digits_step by reflexivity.
  all: match goal with
       | |- context [Pos.of_uint_acc _ ?p] =>
           destruct (IH p (count + 1)) as [k Hk]; exists k; rewrite <- Hk
       end.
  all: f_equal; unfold digitVal; cbn; lia.
Qed.

Lemma number_tail (v : Z) (rest : list ascii) :
  closes rest -> fracPart v rest = Some (v, 0, rest) /\ expPart rest = Some (0, rest).
Proof. intros [r [-> | ->]]; split; reflexivity. Qed.

Lemma parseNumber_from (v : Z) (s rest : list ascii) :
  closes rest -> intPart s = Some (v, rest) ->
  (headIs "-" s = None -> parseNumber s = POk (JNum (1 * v) 0) rest) /\
  parseNumber ("-"%char :: s) = POk (JNum (-1 * v) 0) rest.
Proof.
  intros Hrest Hint. destruct (number_tail v rest Hrest) as [Hf He].
  split; [intros Hminus |]; unfold parseNumber.
  - now rewrite Hminus, Hint, Hf, He.
  - cbn [headIs]. change (Ascii.eqb "-" "-") with true. cbv iota.
    now rewrite Hint, Hf, He.
Qed.

Lemma intPart_uint (d : Decimal.uint) (p : positive) (rest : list ascii) :
  closes rest -> Pos.of_uint d = Npos p -> (forall l, d <> D0 l) ->
  intPart (list_ascii_of_string (NilEmpty.string_of_uint d) ++ rest) = Some (Z.pos p, rest) /\
  exists c r, list_ascii_of_string (NilEmpty.string_of_uint d) = c :: r /\
              JS.isDigit c = true.
Proof.
  intros Hrest Hof Hlead.
  destruct d as [| l | l | l | l | l | l | l | l | l | l];
    [discriminate Hof | now destruct (Hlead l) | ..];
    cbn [NilEmpty.string_of_uint list_ascii_of_string app];
    (split; [| eexists _, _; split; reflexivity]);
    unfold intPart;
    match goal with
    | |- context [digits (digitVal ?c) 1 _] =>
        change (Ascii.eqb c "0") with false; change (JS.isDigit c) with true; cbv iota;
        let a := eval vm_compute in (Z.to_pos (digitVal c)) in
        change (digitVal c) with (Z.pos a);
        destruct (digits_of_uint l a 1 rest Hrest) as [k ->]
    end;
    cbn [Pos.of_uint] in Hof; injection Hof as <-; reflexivity.
Qed.

Lemma to_uint_no_leading_zero (p : positive) (l : Decimal.uint) : Pos.to_uint p <> D0 l.
Proof.
  intros E. pose proof (DecimalPos.Unsigned.to_of (Pos.to_uint p)) as H.
  rewrite DecimalPos.Unsigned.of_to in H. cbn [N.to_uint] in H.
  rewrite E in H. unfold unorm in H. cbn [nzhead] in H.
  destruct (nzhead l) eqn:En; try discriminate H.
  - injection H as ->. apply (DecimalPos.Unsigned.to_uint_nonzero p). exact E.
  - now apply nzhead_nonzero in En.
Qed.

Lemma parseValue_digit (f : nat) (c : ascii) (s : list ascii) :
  JS.isDigit c = true ->
  parseValue (S f) (c :: s) = parseNumber (c :: s) /\ headIs "-" (c :: s) = None.
Proof.
  destruct c as [[] [] [] [] [] [] [] []]; intros H; vm_compute in H;
    try discriminate H; split; reflexivity.
Qed.

Lemma parseValue_number (f : nat) (z : Z) (rest : list ascii) :
  closes rest ->
  parseValue (S f) (stringifyNumber z ++ rest) = POk (JNum z 0) rest.
Proof.
  intros Hrest. unfold stringifyNumber, JS.showZ.
  destruct z as [| p | p].
  - destruct Hrest as [r [-> | ->]]; reflexivity.
  - cbn [Z.to_int NilZero.string_of_int].
    destruct (intPart_uint (Pos.to_uint p) p rest Hrest
                (DecimalPos.Unsigned.of_to p) (to_uint_no_leading_zero p))
      as (Hint & c & r & Hc & Hd).
    destruct (parseNumber_from _ _ _ Hrest Hint) as [Hn _].
    assert (Hs : NilZero.string_of_uint (Pos.to_uint p)
                 = NilEmpty.string_of_uint (Pos.to_uint p)).
    { destruct (Pos.to_uint p) eqn:E; try reflexivity.
      now apply DecimalPos.Unsigned.to_uint_nonnil in E. }
    rewrite Hs. rewrite Hc in Hn |- *. cbn [app] in Hn |- *.
    destruct (parseValue_digit f c (r ++ rest) Hd) as [-> Hm]. exact (Hn Hm).
  - cbn [Z.to_int NilZero.string_of_int].
    destruct (intPart_uint (Pos.to_uint p) p rest Hrest
                (DecimalPos.Unsigned.of_to p) (to_uint_no_leading_zero p))
      as (Hint & _).
    destruct (parseNumber_from _ _ _ Hrest Hint) as [_ Hn].
    assert (Hs : NilZero.string_of_uint (Pos.to_uint p)
                 = NilEmpty.string_of_uint (Pos.to_uint p)).
    { destruct (Pos.to_uint p) eqn:E; try reflexivity.
      now apply DecimalPos.Unsigned.to_uint_nonnil in E. }
    rewrite Hs. cbn [list_ascii_of_string app]. exact Hn.
Qed.

Lemma parseElems_eq (f : nat) (s : list ascii) (acc : list json) :
  parseElems (S f) s acc =
  match parseValue f s with
  | POk v r =>
      match headIs "," (skipWs r), headIs "]" (skipWs r) with
      | Some r', _ => parseElems f r' (v :: acc)
      | None, Some r' => POk (JArr (rev (v :: acc))) r'
      | None, None => PErr
      end
  | PErr => PErr
  | PFuel => PFuel
  end.
Proof. reflexivity. Qed.

Lemma parseElems_strings (ss : list string) (x : string) (f : nat)
    (rest : list ascii) (acc : list json) :
  (length ss + 2 <= f)%nat ->
  parseElems f (commaSeparated (map quoteJSONString (x :: ss)) ++ "]"%char :: rest) acc
  = POk (JArr (rev acc ++ map str (x :: ss))) rest.
Proof.
  revert x f acc. induction ss as [| y ss IH]; intros x f acc Hf;
    (destruct f as [| [| f]]; [simpl in Hf; lia | simpl in Hf; lia |]);
    rewrite parseElems_eq.
  - cbn [map commaSeparated]. rewrite parseValue_string. reflexivity.
  - change (commaSeparated (map quoteJSONString (x :: y :: ss)))
      with (quoteJSONString x ++ ","%char :: commaSeparated (map quoteJSONString (y :: ss))).
    rewrite <- app_assoc. rewrite parseValue_string.
    cbn [app skipWs]. change (isWs ",") with false. cbv iota. cbn [headIs].
    change (Ascii.eqb "," ",") with true. cbv iota.
    rewrite IH by (simpl in Hf |- *; lia).
    cbn [rev map]. now rewrite <- app_assoc.
Qed.

Lemma parseValue_strings (ss : list string) (f : nat) (rest : list ascii) :
  (length ss + 2 <= f)%nat ->
  parseValue f (stringifyArray (map quoteJSONString ss) ++ rest)
  = POk (JArr (map str ss)) rest.
Proof.
  intros Hf. destruct f as [| f]; [lia |].
  destruct ss as [| x ss]; [reflexivity |].
  unfold stringifyArray. cbn [app]. rewrite <- app_assoc. cbn [app].
  assert (Hq : exists r, commaSeparated (map quoteJSONString (x :: ss)) = quote :: r).
  { destruct ss; eexists; reflexivity. }
  destruct Hq as [r Hr].
  transitivity (parseElems f (commaSeparated (map quoteJSONString (x :: ss))
                              ++ "]"%char :: rest) []).
  - rewrite Hr. reflexivity.
  - apply parseElems_strings. simpl in Hf. lia.
Qed.

Lemma parseMembers_member (f : nat) (key : string) (value : list ascii) (v : json)
    (after : list ascii) (acc : list (list N * json)) :
  parseValue f (value ++ after) = POk v after ->
  parseMembers (S f) (stringifyMember (key, value) ++ after) acc =
  match headIs "," (skipWs after), headIs "}" (skipWs after) with
  | Some r, _ => parseMembers f r ((JS.units key, v) :: acc)
  | None, Some r => POk (JObj (rev ((JS.units key, v) :: acc))) r
  | None, None => PErr
  end.
Proof.
  intros Hv. unfold stringifyMember, quoteJSONString. cbn [fst snd app].
  rewrite <- !app_assoc. cbn [app parseMembers skipWs].
  change (isWs quote) with false. cbv iota. cbn [headIs].
  change (Ascii.eqb quote quote) with true. cbv iota.
  rewrite stringBody_quoted. cbn [skipWs]. change (isWs ":") with false.
  cbv iota. cbn [headIs]. change (Ascii.eqb ":" ":") with true. cbv iota.
  now rewrite Hv.
Qed.

Lemma parseMembers_more (f : nat) (key : string) (value : list ascii) (v : json)
    (rest : list ascii) (acc : list (list N * json)) :
  parseValue f (value ++ ","%char :: rest) = POk v (","%char :: rest) ->
  parseMembers (S f) (stringifyMember (key, value) ++ ","%char :: rest) acc
  = parseMembers f rest ((JS.units key, v) :: acc).
Proof. intros H. now rewrite (parseMembers_member _ _ _ _ _ _ H). Qed.

Lemma parseMembers_last (f : nat) (key : string) (value : list ascii) (v : json)
    (rest : list ascii) (acc : list (list N * json)) :
  parseValue f (value ++ "}"%char :: rest) = POk v ("}"%char :: rest) ->
  parseMembers (S f) (stringifyMember (key, value) ++ "}"%char :: rest) acc
  = POk (JObj (rev ((JS.units key, v) :: acc))) rest.
Proof. intros H. now rewrite (parseMembers_member _ _ _ _ _ _ H). Qed.

Lemma parseValue_members (f : nat) (member : string * list ascii) (rest : list ascii) :
  parseValue (S f) ("{"%char :: stringifyMember member ++ rest)
  = parseMembers f (stringifyMember member ++ rest) [].
Proof. reflexivity. Qed.

Lemma closes_comma (r : list ascii) : closes (","%char :: r).
Proof. exists r. now left. Qed.

Lemma parseValue_progress (p : StudentProgress) (f : nat) :
  (length (learnedSigns p) + 7 <= f)%nat ->
  parseValue f (list_ascii_of_string (stringifyProgress p)) = POk (progressObject p) [].
Proof.
  intros Hf. unfold stringifyProgress.
  rewrite list_ascii_of_string_of_list_ascii.
  do 5 (destruct f as [| f]; [lia |]).
  unfold stringifyObject. cbn [map commaSeparated].
  repeat (rewrite <- app_assoc || rewrite <- app_comm_cons).
  rewrite parseValue_members.
  rewrite (parseMembers_more _ _ _ (JNum (xp p) 0))
    by (apply parseValue_number, closes_comma).
  rewrite (parseMembers_more _ _ _ (str (difficultyName (level p))))
    by apply parseValue_string.
  rewrite (parseMembers_more _ _ _ (JNum (streakDays p) 0))
    by (apply parseValue_number, closes_comma).
  rewrite (parseMembers_last _ _ _ (JArr (map str (learnedSigns p))))
    by (apply parseValue_strings; lia).
  reflexivity.
Qed.

Lemma stringifyProgress_length (p : StudentProgress) :
  (length (learnedSigns p) <=
   length (list_ascii_of_string (stringifyProgress p)))%nat.
Proof.
  unfold stringifyProgress. rewrite list_ascii_of_string_of_list_ascii.
  unfold stringifyObject. cbn [map commaSeparated].
  assert (H : forall ss : list string,
             (length ss <= length (commaSeparated (map quoteJSONString ss)))%nat).
  { induction ss as [| x [| y ss] IH]; [simpl; lia | simpl; lia |].
    change (commaSeparated (map quoteJSONString (x :: y :: ss)))
      with (quoteJSONString x ++ ","%char :: commaSeparated (map quoteJSONString (y :: ss))).
    rewrite length_app. simpl in IH |- *. lia. }
  specialize (H (learnedSigns p)).
  unfold stringifyMember, stringifyArray. cbn [fst snd].
  repeat (rewrite length_app || cbn [length]). lia.
Qed.

Lemma parse_stringifyProgress (p : StudentProgress) :
  parse (stringifyProgress p) = Some (progressObject p).
Proof.
  unfold parse. cbv zeta. rewrite parseValue_progress; [reflexivity |].
  unfold budget. pose proof (stringifyProgress_length p).
  assert (5 <= length (list_ascii_of_string (stringifyProgress p)))%nat; [| lia].
  unfold stringifyProgress. rewrite list_ascii_of_string_of_list_ascii.
  unfold stringifyObject. cbn [map commaSeparated].
  repeat (rewrite length_app || cbn [length]). lia.
Qed.
End RoundTrip.

Lemma units_inj (a b : string) : JS.units a = JS.units b -> a = b.
Proof.
  unfold JS.units, JS.code. revert b.
  induction a as [| x a IH]; intros [| y b]; cbn; try discriminate; [reflexivity |].
  intros [= Hxy Hab]. f_equal; [| now apply IH].
  now rewrite <- (ascii_N_embedding x), <- (ascii_N_embedding y), Hxy.
Qed.

Lemma progressObject_inj (p q : StudentProgress) :
  progressObject p = progressObject q -> p = q.
Proof.
  destruct p as [x k d l], q as [x' k' d' l']. unfold progressObject, JSON.str.
  cbn [xp level streakDays learnedSigns]. intros [= -> Hk -> Hl].
  apply units_inj in Hk. f_equal.
  - now destruct k, k'.
  - revert l' Hl. induction l as [| s l IH]; intros [| s' l']; cbn;
      try discriminate; [reflexivity |].
    intros [= Hs Hl]. f_equal; [now apply units_inj | now apply IH].
Qed.

(** What the hook stores is what the next session starts from: for a
    record whose numbers are safe integers, the text the effect writes
    is never empty, always parses, and [load] returns the object of the
    very record, whatever characters the learned signs hold (quotation
    marks, reverse solidi and control characters are escaped and read
    back).  Two records stored as the same text are equal. *)
Theorem saved_progress_is_read_back (p : StudentProgress) :
  safeInteger (xp p) -> safeInteger (streakDays p) ->
  load (save p) = Returns (progressObject p) /\
  forall q, safeInteger (xp q) -> safeInteger (streakDays q) -> save q = save p -> q = p.
Proof.
  intros _ _.
  assert (Hload : forall r, load (save r) = Returns (progressObject r)).
  { intros r. unfold save, load.
    destruct (stringifyProgress r) eqn:E; [discriminate E |].
    rewrite <- E. now rewrite parse_stringifyProgress. }
  split; [apply Hload |].
  intros q _ _ Hq. apply progressObject_inj.
  pose proof (Hload q) as H. rewrite Hq, Hload in H. congruence.
Qed.

Lemma saved_progress_is_read_back_witness :
  let p := {| xp := 150; level := Beginner; streakDays := 1;
              learnedSigns := ["A"; JS.dq +:+ "B\n"] |} in
  load (save p) = Returns (progressObject p).
Proof.
  intros p. apply (saved_progress_is_read_back p); unfold safeInteger; cbn; lia.
Defined.
